(** * The database query router of the Aerostack server SDK

    A shallow embedding of the routing half of [src/server.ts]
    ([determineTarget], [routeQuery], [db.query], [db.getSchema],
    [db.batch]) together with the error translation of
    [src/server-errors.ts] ([DatabaseError.fromPostgresError],
    [DatabaseError.fromD1Error]).

    [server.ts] is present in two revisions of the class
    [AerostackServer]; they share [routeQuery] and [batch] and differ
    in the last step of [determineTarget] and in [getSchema].  Both are
    embedded: a [Revision] selects the text that differs. *)

From Stdlib Require Import Bool Arith NArith ZArith Lia List.
From Stdlib Require Import Ascii String DecimalString.
Import ListNotations.

Set Implicit Arguments.

(** ** JavaScript strings

    Strings are sequences of code units, here the code units below 256.
    On these [String.prototype.toLowerCase] works unit by unit: [A]..[Z]
    go to [a]..[z], the capital letters of the Latin-1 block ([U+00C0] to
    [U+00DE], the multiplication sign [U+00D7] apart) go to the small
    ones 32 places further, and every other code unit is left as it
    is. *)

Module JsString.

Open Scope string_scope.

Definition lowerChar (c : ascii) : ascii :=
  let n := N_of_ascii c in
  if ((65 <=? n) && (n <=? 90))%N then ascii_of_N (n + 32)
  else if ((192 <=? n) && (n <=? 222) && negb (n =? 215))%N
       then ascii_of_N (n + 32)
       else c.

Fixpoint toLowerCase (s : string) : string :=
  match s with
  | EmptyString => EmptyString
  | String c s' => String (lowerChar c) (toLowerCase s')
  end.

(** [startsWith s p]: [p] is found at position 0 of [s]. *)
Fixpoint startsWith (s p : string) : bool :=
  match p, s with
  | EmptyString, _ => true
  | String _ _, EmptyString => false
  | String a p', String b s' => Ascii.eqb a b && startsWith s' p'
  end.

(** [String.prototype.includes]: [sub] occurs in [s] at some position.
    The empty string occurs in every string. *)
Fixpoint includes (s sub : string) : bool :=
  match s with
  | EmptyString => startsWith EmptyString sub
  | String _ s' => startsWith s sub || includes s' sub
  end.

(** [x || fallback] on an optional string: [undefined] and the empty
    string are falsy. *)
Definition orElse (x : option string) (fallback : string) : string :=
  match x with
  | Some (String _ _ as s) => s
  | _ => fallback
  end.

End JsString.

Import JsString.
Open Scope string_scope.

(** ** JavaScript values and objects *)

(** The values that cross the router: bind parameters, row fields.
    Numbers are the integral flags and counts the router looks at. *)
Inductive JsValue : Type :=
| JUndefined
| JNull
| JBool (b : bool)
| JNum (n : Z)
| JStr (s : string).

(** A plain object: its own string-keyed properties in creation order,
    each key once. *)
Definition JsObject (V : Type) : Type := list (string * V).

Module JsObj.

Definition digitOf (c : ascii) : option N :=
  let n := N_of_ascii c in
  if ((48 <=? n) && (n <=? 57))%N then Some (n - 48)%N else None.

Fixpoint parseDigits (s : string) (acc : N) : option N :=
  match s with
  | EmptyString => Some acc
  | String c s' =>
      match digitOf c with
      | Some d => parseDigits s' (10 * acc + d)%N
      | None => None
      end
  end.

(** A property key is an array index when it is the canonical decimal
    text of an integer in [0, 2^32 - 2]. *)
Definition arrayIndex (k : string) : option N :=
  match k with
  | EmptyString => None
  | String c rest =>
      if Ascii.eqb c "0" && negb (String.eqb rest "") then None
      else match parseDigits k 0 with
           | Some n => if (n <? 2 ^ 32 - 1)%N then Some n else None
           | None => None
           end
  end.

Section Entries.
Variable V : Type.

Fixpoint insertIndexed (e : N * (string * V)) (l : list (N * (string * V)))
  : list (N * (string * V)) :=
  match l with
  | [] => [e]
  | x :: l' => if (fst e <? fst x)%N then e :: l else x :: insertIndexed e l'
  end.

Fixpoint indexed (o : JsObject V) : list (N * (string * V)) :=
  match o with
  | [] => []
  | kv :: o' =>
      match arrayIndex (fst kv) with
      | Some n => insertIndexed (n, kv) (indexed o')
      | None => indexed o'
      end
  end.

Definition named (o : JsObject V) : JsObject V :=
  filter (fun kv => match arrayIndex (fst kv) with
                    | Some _ => false
                    | None => true
                    end) o.

(** [Object.entries]: array-index keys in ascending numeric order,
    then the other keys in creation order. *)
Definition entries (o : JsObject V) : list (string * V) :=
  map snd (indexed o) ++ named o.

(** [obj[k]]: own property lookup. *)
Fixpoint get (o : JsObject V) (k : string) : option V :=
  match o with
  | [] => None
  | (k', v) :: o' => if String.eqb k' k then Some v else get o' k
  end.

End Entries.

End JsObj.

(** A result row: an object of column values. *)
Definition Row : Type := JsObject JsValue.

(** ** Types of [server-types.ts] *)

(** ['d1' | 'postgres']: the embedded (local) and the remote engine. *)
Inductive Target : Type := d1 | postgres.

Record RoutingRules : Type := { tables : JsObject Target }.

Record ResponseMeta : Type := {
  target : Target;
  rowCount : option Z;
  duration : option Z
}.

Record DatabaseResponse : Type := {
  results : list Row;
  success : bool;
  meta : ResponseMeta
}.

Record BatchQuery : Type := {
  sql : string;
  params : option (list JsValue)
}.

Record SchemaColumn : Type := {
  col_name : JsValue;
  col_type : JsValue;
  nullable : bool;
  defaultValue : JsValue;
  isPrimaryKey : option bool
}.

Record SchemaTable : Type := {
  tbl_name : JsValue;
  columns : list SchemaColumn;
  tbl_database : Target
}.

Record SchemaInfo : Type := {
  schema_tables : list SchemaTable;
  database : Target
}.

(** ** Errors of [server-errors.ts] *)

Inductive ErrorCode : Type :=
| DB_CONNECTION_FAILED | DB_QUERY_FAILED | DB_TABLE_NOT_FOUND
| DB_COLUMN_NOT_FOUND | DB_AUTH_FAILED | DB_MIGRATION_FAILED
| DB_TRANSACTION_FAILED
| CACHE_GET_FAILED | CACHE_SET_FAILED | CACHE_DELETE_FAILED
| CACHE_NOT_CONFIGURED
| QUEUE_ENQUEUE_FAILED | QUEUE_NOT_CONFIGURED | QUEUE_JOB_NOT_FOUND
| STORAGE_UPLOAD_FAILED | STORAGE_DELETE_FAILED | STORAGE_NOT_CONFIGURED
| STORAGE_FILE_TOO_LARGE
| AI_REQUEST_FAILED | AI_NOT_CONFIGURED | AI_RATE_LIMIT
| SERVICE_INVOKE_FAILED | SERVICE_NOT_FOUND
| CONFIGURATION_ERROR | VALIDATION_ERROR | INTERNAL_ERROR.

Record ErrorDetails : Type := {
  suggestion : option string;
  recoveryAction : option string;
  field : option string;
  cause : option string
}.

(** The context object [{ sql, params, target }] that [routeQuery]
    attaches to a translated error. *)
Record QueryContext : Type := {
  ctx_sql : string;
  ctx_params : list JsValue;
  ctx_target : Target
}.

(** An instance of [class DatabaseError extends ServerError]. *)
Record DatabaseError : Type := {
  code : ErrorCode;
  message : string;
  details : option ErrorDetails;
  context : option QueryContext
}.

(** What a driver throws: an error object, read through the optional
    properties [code], [message], [table] and [column]. *)
Record DriverError : Type := {
  err_code : option string;
  err_message : option string;
  err_table : option string;
  err_column : option string
}.

Module DatabaseErrors.

(** [DatabaseError.fromPostgresError(err, context)]. *)
Definition fromPostgresError (err : DriverError) (ctx : option QueryContext)
  : DatabaseError :=
  let known (c : string) := match err_code err with
                            | Some c' => String.eqb c' c
                            | None => false
                            end in
  if known "42P01" then
    {| code := DB_TABLE_NOT_FOUND;
       message := "Table does not exist: " ++ orElse (err_table err) "unknown";
       details := Some {| suggestion := Some "Run migrations first: aerostack db migrate apply";
                          recoveryAction := Some "CREATE_TABLE";
                          field := None;
                          cause := err_message err |};
       context := ctx |}
  else if known "42703" then
    {| code := DB_COLUMN_NOT_FOUND;
       message := "Column does not exist: " ++ orElse (err_column err) "unknown";
       details := Some {| suggestion := Some "Check your schema or run latest migrations";
                          recoveryAction := Some "ALTER_TABLE";
                          field := None;
                          cause := err_message err |};
       context := ctx |}
  else if known "28P01" || known "28000" then
    {| code := DB_AUTH_FAILED;
       message := "Database authentication failed";
       details := Some {| suggestion := Some "Check your DATABASE_URL environment variable";
                          recoveryAction := Some "UPDATE_CREDENTIALS";
                          field := None;
                          cause := err_message err |};
       context := ctx |}
  else if known "08006" || known "08003" then
    {| code := DB_CONNECTION_FAILED;
       message := "Failed to connect to database";
       details := Some {| suggestion := Some "Verify your database connection string and network connectivity";
                          recoveryAction := Some "CHECK_CONNECTION";
                          field := None;
                          cause := err_message err |};
       context := ctx |}
  else
    {| code := DB_QUERY_FAILED;
       message := orElse (err_message err) "Database query failed";
       details := Some {| suggestion := Some "Check your query syntax and parameters";
                          recoveryAction := None;
                          field := None;
                          cause := match err_code err with
                                   | Some (String _ _ as c) => Some ("Postgres error " ++ c)
                                   | _ => None
                                   end |};
       context := ctx |}.

(** [DatabaseError.fromD1Error(err, context)]. *)
Definition fromD1Error (err : DriverError) (ctx : option QueryContext)
  : DatabaseError :=
  let message := orElse (err_message err) "D1 query failed" in
  if includes message "no such table" then
    {| code := DB_TABLE_NOT_FOUND;
       message := message;
       details := Some {| suggestion := Some "Run D1 migrations: aerostack db migrate apply";
                          recoveryAction := Some "CREATE_TABLE";
                          field := None;
                          cause := err_message err |};
       context := ctx |}
  else if includes message "no such column" then
    {| code := DB_COLUMN_NOT_FOUND;
       message := message;
       details := Some {| suggestion := Some "Check your schema or update migrations";
                          recoveryAction := Some "ALTER_TABLE";
                          field := None;
                          cause := err_message err |};
       context := ctx |}
  else
    {| code := DB_QUERY_FAILED;
       message := message;
       details := Some {| suggestion := Some "Check your SQL syntax and D1 configuration";
                          recoveryAction := None;
                          field := None;
                          cause := err_message err |};
       context := ctx |}.

(** The error both [routeQuery] and [getSchema] raise when no driver
    can take the call. *)
Definition noConnection : DatabaseError :=
  {| code := DB_CONNECTION_FAILED;
     message := "No database connection available";
     details := Some {| suggestion := Some "Configure DB or Postgres connection in aerostack.toml";
                        recoveryAction := None;
                        field := None;
                        cause := None |};
     context := None |}.

End DatabaseErrors.

Import DatabaseErrors.

(** The string value of each member of [enum ErrorCode]. *)
Definition codeName (c : ErrorCode) : string :=
  match c with
  | DB_CONNECTION_FAILED => "DB_CONNECTION_FAILED"
  | DB_QUERY_FAILED => "DB_QUERY_FAILED"
  | DB_TABLE_NOT_FOUND => "DB_TABLE_NOT_FOUND"
  | DB_COLUMN_NOT_FOUND => "DB_COLUMN_NOT_FOUND"
  | DB_AUTH_FAILED => "DB_AUTH_FAILED"
  | DB_MIGRATION_FAILED => "DB_MIGRATION_FAILED"
  | DB_TRANSACTION_FAILED => "DB_TRANSACTION_FAILED"
  | CACHE_GET_FAILED => "CACHE_GET_FAILED"
  | CACHE_SET_FAILED => "CACHE_SET_FAILED"
  | CACHE_DELETE_FAILED => "CACHE_DELETE_FAILED"
  | CACHE_NOT_CONFIGURED => "CACHE_NOT_CONFIGURED"
  | QUEUE_ENQUEUE_FAILED => "QUEUE_ENQUEUE_FAILED"
  | QUEUE_NOT_CONFIGURED => "QUEUE_NOT_CONFIGURED"
  | QUEUE_JOB_NOT_FOUND => "QUEUE_JOB_NOT_FOUND"
  | STORAGE_UPLOAD_FAILED => "STORAGE_UPLOAD_FAILED"
  | STORAGE_DELETE_FAILED => "STORAGE_DELETE_FAILED"
  | STORAGE_NOT_CONFIGURED => "STORAGE_NOT_CONFIGURED"
  | STORAGE_FILE_TOO_LARGE => "STORAGE_FILE_TOO_LARGE"
  | AI_REQUEST_FAILED => "AI_REQUEST_FAILED"
  | AI_NOT_CONFIGURED => "AI_NOT_CONFIGURED"
  | AI_RATE_LIMIT => "AI_RATE_LIMIT"
  | SERVICE_INVOKE_FAILED => "SERVICE_INVOKE_FAILED"
  | SERVICE_NOT_FOUND => "SERVICE_NOT_FOUND"
  | CONFIGURATION_ERROR => "CONFIGURATION_ERROR"
  | VALIDATION_ERROR => "VALIDATION_ERROR"
  | INTERNAL_ERROR => "INTERNAL_ERROR"
  end.

(** ** Effects

    Every call into a driver is asynchronous code that either resolves
    or rejects, and that may change the database behind the driver.  A
    computation is therefore a function of the state [W] of the outside
    world (the two databases) to a completion and a new state. *)

Inductive Thrown : Type :=
| ThrownDatabaseError (e : DatabaseError)
| ThrownDriverError (e : DriverError)
| ThrownTypeError (msg : string).

Inductive Completion (A : Type) : Type :=
| Normal (a : A)
| Throw (e : Thrown).

Arguments Normal {A} a.
Arguments Throw {A} e.

Definition Eff (W A : Type) : Type := W -> Completion A * W.

Section EffOps.
Context {W : Type}.

Definition ret {A} (a : A) : Eff W A := fun w => (Normal a, w).

Definition throw {A} (e : Thrown) : Eff W A := fun w => (Throw e, w).

Definition bind {A B} (m : Eff W A) (k : A -> Eff W B) : Eff W B :=
  fun w => match m w with
           | (Normal a, w') => k a w'
           | (Throw e, w') => (Throw e, w')
           end.

(** [try { body } catch (err) { handler }]. *)
Definition try_catch {A} (body : Eff W A) (handler : Thrown -> Eff W A)
  : Eff W A :=
  fun w => match body w with
           | (Normal a, w') => (Normal a, w')
           | (Throw e, w') => handler e w'
           end.
End EffOps.

Declare Scope eff_scope.
Delimit Scope eff_scope with eff.
Notation "x <- m ;; k" := (bind m (fun x => k))
  (at level 61, m at next level, right associativity) : eff_scope.

(** A [catch (err: any)] clause reads properties of whatever was thrown;
    [errorView] gives the properties [code], [message], [table] and
    [column] of a thrown value. *)
Definition errorView (t : Thrown) : DriverError :=
  match t with
  | ThrownDriverError e => e
  | ThrownDatabaseError e =>
      {| err_code := Some (codeName (code e));
         err_message := Some (message e);
         err_table := None;
         err_column := None |}
  | ThrownTypeError msg =>
      {| err_code := None; err_message := Some msg;
         err_table := None; err_column := None |}
  end.

(** ** Results of [db.batch] *)

Record BatchError : Type := {
  index : nat;
  error : Thrown
}.

Record BatchResult : Type := {
  batch_results : list DatabaseResponse;
  batch_success : bool;
  batch_errors : option (list BatchError)
}.

(** The three variables of the loop of [batch]. *)
Record BatchState : Type := {
  st_results : list DatabaseResponse;
  st_errors : list BatchError;
  st_success : bool
}.

(** ** Driver handles *)

(** What [pool.query(sql, params)] resolves to. *)
Record QueryResult : Type := {
  rows : list Row;
  pg_rowCount : option Z
}.

Record D1Meta : Type := { d1_duration : option Z }.

(** What [stmt.all()] resolves to. *)
Record D1Result : Type := {
  d1_results : option (list Row);
  d1_success : bool;
  d1_meta : option D1Meta
}.

(** The remote driver: [pool.query(sql, params)] resolves to a result
    or rejects with the driver's error. *)
Record Pool (W : Type) : Type := {
  pool_query : string -> list JsValue -> W -> (DriverError + QueryResult) * W
}.

(** The embedded driver: the chain [db.prepare(sql).bind(...params).all()]
    resolves to a result or throws the driver's error. *)
Record D1Database (W : Type) : Type := {
  prepare_bind_all : string -> list JsValue -> W -> (DriverError + D1Result) * W
}.

Definition await {W A} (call : W -> (DriverError + A) * W) : Eff W A :=
  fun w => match call w with
           | (inr a, w') => (Normal a, w')
           | (inl e, w') => (Throw (ThrownDriverError e), w')
           end.

(** ** Operators on values *)

(** [`${v}`]: the text of a value inside a template literal.  The numbers
    of [JsValue] are integers, and those that occur here (flags, counts,
    HTTP statuses, clock readings) lie below [10^21] in magnitude, where
    the text of a number is its decimal digits. *)
Definition toString (v : JsValue) : string :=
  match v with
  | JUndefined => "undefined"
  | JNull => "null"
  | JBool true => "true"
  | JBool false => "false"
  | JNum n => NilZero.string_of_int (Z.to_int n)
  | JStr s => s
  end.

(** [a === b]. *)
Definition strictEq (a b : JsValue) : bool :=
  match a, b with
  | JUndefined, JUndefined => true
  | JNull, JNull => true
  | JBool x, JBool y => Bool.eqb x y
  | JNum x, JNum y => (x =? y)%Z
  | JStr x, JStr y => String.eqb x y
  | _, _ => false
  end.

(** [xs || []] on an optional array. *)
Definition orEmpty {A : Type} (xs : option (list A)) : list A :=
  match xs with
  | Some l => l
  | None => []
  end.

(** [row.k]: a missing property reads as [undefined]. *)
Definition prop (row : Row) (k : string) : JsValue :=
  match JsObj.get row k with
  | Some v => v
  | None => JUndefined
  end.

(** ** The class [AerostackServer]

    An instance after construction and after the remote pool has been
    set up: the fields that the router reads.  The second listing awaits
    [_initPromise] at the head of [query], [getSchema] and [batch]; that
    promise sets [pgPool] once and never rejects, so these methods start
    from the state described by the record. *)

Inductive Revision : Type :=
| Legacy   (* the first listing of the class *)
| Current. (* the second listing of the class *)

Record AerostackServer (W : Type) : Type := {
  pgPool : option (Pool W);
  _d1 : option (D1Database W);
  routingRules : RoutingRules
}.

Section Router.
Variable rev : Revision.
Context {W : Type}.
Variable this : AerostackServer W.

Open Scope eff_scope.

Definition complexTriggers : list string :=
  ["join"; "group by"; "having"; "union"; "intersect"; "except"].

(** The loop over [Object.entries(this.routingRules.tables)]: the
    target of the first entry whose lower-cased key occurs in
    [normalized]. *)
Fixpoint firstRule (normalized : string) (es : list (string * Target))
  : option Target :=
  match es with
  | [] => None
  | (table, tgt) :: es' =>
      if includes normalized (toLowerCase table) then Some tgt
      else firstRule normalized es'
  end.

Definition determineTarget (sql : string) : Target :=
  let normalized := toLowerCase sql in
  (* 1. Explicit routing hints *)
  if includes normalized "aerostack:target=postgres" then postgres
  else if includes normalized "aerostack:target=d1" then d1
  else
    (* 2. Check routing rules based on table names *)
    match firstRule normalized (JsObj.entries (tables (routingRules this))) with
    | Some tgt => tgt
    | None =>
        (* 3. Auto-route based on query complexity *)
        if existsb (fun trigger => includes normalized trigger) complexTriggers
        then postgres
        else
          match rev with
          | Legacy => d1
          | Current =>
              match pgPool this with
              | Some _ => postgres
              | None => d1
              end
          end
    end.

Definition routeQuery (sql : string) (params : list JsValue)
  : Eff W DatabaseResponse :=
  let tgt := determineTarget sql in
  match tgt, pgPool this with
  | postgres, Some pool =>
      try_catch
        (result <- await (pool_query pool sql params) ;;
         ret {| results := rows result;
                success := true;
                meta := {| target := postgres;
                           rowCount := Some (match pg_rowCount result with
                                             | Some n => n
                                             | None => 0%Z
                                             end);
                           duration := None |} |})
        (fun err =>
           throw (ThrownDatabaseError
                    (fromPostgresError (errorView err)
                       (Some {| ctx_sql := sql; ctx_params := params;
                                ctx_target := postgres |}))))
  | _, _ =>
      match _d1 this with
      | Some db =>
          try_catch
            (result <- await (prepare_bind_all db sql params) ;;
             ret {| results := orEmpty (d1_results result);
                    success := d1_success result;
                    meta := {| target := d1;
                               rowCount := None;
                               duration := match d1_meta result with
                                           | Some m => d1_duration m
                                           | None => None
                                           end |} |})
            (fun err =>
               throw (ThrownDatabaseError
                        (fromD1Error (errorView err)
                           (Some {| ctx_sql := sql; ctx_params := params;
                                    ctx_target := d1 |}))))
      | None => throw (ThrownDatabaseError noConnection)
      end
  end.

(** Iterating or mapping over [undefined] throws a [TypeError], with the
    message of the engine for the expression at hand. *)
Definition definedRows (message : string) (rs : option (list Row))
  : Eff W (list Row) :=
  match rs with
  | Some l => ret l
  | None => throw (ThrownTypeError message)
  end.

Definition d1Column (col : Row) : SchemaColumn :=
  {| col_name := prop col "name";
     col_type := prop col "type";
     nullable := strictEq (prop col "notnull") (JNum 0);
     defaultValue := prop col "dflt_value";
     isPrimaryKey := Some (strictEq (prop col "pk") (JNum 1)) |}.

Definition pgColumn (col : Row) : SchemaColumn :=
  {| col_name := prop col "column_name";
     col_type := prop col "data_type";
     nullable := strictEq (prop col "is_nullable") (JStr "YES");
     defaultValue := prop col "column_default";
     isPrimaryKey := None |}.

(** The loop of [introspectD1] over the rows of the catalog query;
    [prepare(sql).all()] binds no parameter. *)
Fixpoint d1Tables (db : D1Database W) (rs : list Row) (acc : list SchemaTable)
  : Eff W (list SchemaTable) :=
  match rs with
  | [] => ret acc
  | row :: rs' =>
      let tableName := prop row "name" in
      cols <- await (prepare_bind_all db
                       ("PRAGMA table_info(" ++ toString tableName ++ ")") []) ;;
      colRows <- definedRows "Cannot read properties of undefined (reading 'map')"
                   (d1_results cols) ;;
      d1Tables db rs'
        (acc ++ [{| tbl_name := tableName;
                    columns := map d1Column colRows;
                    tbl_database := d1 |}])
  end.

Definition introspectD1 : Eff W SchemaInfo :=
  match _d1 this with
  | None =>
      throw (ThrownDatabaseError
               {| code := DB_CONNECTION_FAILED; message := "D1 not configured";
                  details := None; context := None |})
  | Some db =>
      result <- await (prepare_bind_all db
                  "SELECT name FROM sqlite_master WHERE type='table' AND name NOT LIKE 'sqlite_%'"
                  []) ;;
      rs <- definedRows "result.results is not iterable" (d1_results result) ;;
      tbls <- d1Tables db rs [] ;;
      ret {| schema_tables := tbls; database := d1 |}
  end.

Fixpoint pgTables (pool : Pool W) (rs : list Row) (acc : list SchemaTable)
  : Eff W (list SchemaTable) :=
  match rs with
  | [] => ret acc
  | row :: rs' =>
      let tableName := prop row "table_name" in
      cols <- await (pool_query pool "
                SELECT column_name, data_type, is_nullable, column_default
                FROM information_schema.columns
                WHERE table_name = $1
            " [tableName]) ;;
      pgTables pool rs'
        (acc ++ [{| tbl_name := tableName;
                    columns := map pgColumn (rows cols);
                    tbl_database := postgres |}])
  end.

Definition introspectPostgres : Eff W SchemaInfo :=
  match pgPool this with
  | None =>
      throw (ThrownDatabaseError
               {| code := DB_CONNECTION_FAILED; message := "Postgres not configured";
                  details := None; context := None |})
  | Some pool =>
      result <- await (pool_query pool "
            SELECT table_name 
            FROM information_schema.tables 
            WHERE table_schema = 'public'
        " []) ;;
      tbls <- pgTables pool (rows result) [] ;;
      ret {| schema_tables := tbls; database := postgres |}
  end.

(** *** The [db] facade *)

(** [db.query(sql, params = [])]. *)
Definition query (sql : string) (params : option (list JsValue))
  : Eff W DatabaseResponse :=
  routeQuery sql (orEmpty params).

(** The test on the binding name that selects the remote engine. *)
Definition isPg (binding : string) : bool :=
  match rev with
  | Legacy => includes (toLowerCase binding) "postgres"
  | Current => includes (toLowerCase binding) "pg"
               || includes (toLowerCase binding) "postgres"
  end.

Definition noConnectionError : Eff W SchemaInfo :=
  throw (ThrownDatabaseError noConnection).

(** The tail of [getSchema], reached without a binding or when the
    binding selected nothing. *)
Definition defaultSchema : Eff W SchemaInfo :=
  match rev with
  | Legacy =>
      (* Default: get D1 schema if available, otherwise Postgres *)
      match _d1 this, pgPool this with
      | Some _, _ => introspectD1
      | None, Some _ => introspectPostgres
      | None, None => noConnectionError
      end
  | Current =>
      (* Default: prioritize Postgres if available, fall back to D1 *)
      match pgPool this, _d1 this with
      | Some _, _ => introspectPostgres
      | None, Some _ => introspectD1
      | None, None => noConnectionError
      end
  end.

(** [db.getSchema(binding?)]; an empty binding is falsy. *)
Definition getSchema (binding : option string) : Eff W SchemaInfo :=
  match binding with
  | Some (String _ _ as b) =>
      match pgPool this, isPg b, _d1 this with
      | Some _, true, _ => introspectPostgres
      | _, _, Some _ => introspectD1
      | _, _, None => defaultSchema
      end
  | _ => defaultSchema
  end.

(** *** [db.batch(queries)] *)

(** The slot pushed for a query whose execution threw. *)
Definition failedSlot : DatabaseResponse :=
  {| results := [];
     success := false;
     meta := {| target := d1; rowCount := None; duration := None |} |}.

(** One turn of the loop, at index [i]. *)
Definition batchStep (i : nat) (q : BatchQuery) (st : BatchState)
  : Eff W BatchState :=
  try_catch
    (result <- routeQuery (sql q) (orEmpty (params q)) ;;
     ret {| st_results := st_results st ++ [result];
            st_errors := st_errors st;
            st_success := st_success st |})
    (fun err =>
       ret {| st_results := st_results st ++ [failedSlot];
              st_errors := st_errors st ++ [{| index := i; error := err |}];
              st_success := false |}).

(** [for (let i = ...; i < queries.length; i++)]: [qs] is what is left
    of [queries] from index [i] on. *)
Fixpoint batchLoop (i : nat) (qs : list BatchQuery) (st : BatchState)
  : Eff W BatchState :=
  match qs with
  | [] => ret st
  | q :: qs' =>
      st' <- batchStep i q st ;;
      batchLoop (S i) qs' st'
  end.

Definition batch (queries : list BatchQuery) : Eff W BatchResult :=
  st <- batchLoop 0 queries
          {| st_results := []; st_errors := []; st_success := true |} ;;
  ret {| batch_results := st_results st;
         batch_success := st_success st;
         batch_errors := match st_errors st with
                         | [] => None
                         | _ :: _ => Some (st_errors st)
                         end |}.

End Router.

(** * Properties *)

Unset Implicit Arguments.

(** ** Facts about [startsWith], [includes] and [toLowerCase] *)

Lemma startsWith_app (p rest : string) : startsWith (p ++ rest) p = true.
Proof.
  induction p as [|a p IH]; simpl.
  - now destruct rest.
  - now rewrite Ascii.eqb_refl, IH.
Qed.

Lemma startsWith_split (s p : string) :
  startsWith s p = true -> exists rest, s = p ++ rest.
Proof.
  revert s; induction p as [|a p IH]; intros s H.
  - now exists s.
  - destruct s as [|b s]; simpl in H; [discriminate|].
    apply andb_true_iff in H as [Hab Hp].
    apply Ascii.eqb_eq in Hab; subst b.
    destruct (IH _ Hp) as [rest ->].
    now exists rest.
Qed.

Lemma includes_startsWith (s p : string) :
  startsWith s p = true -> includes s p = true.
Proof.
  destruct s; simpl; intros H; [exact H | now rewrite H].
Qed.

Lemma includes_app (pre sub post : string) :
  includes (pre ++ sub ++ post) sub = true.
Proof.
  induction pre as [|c pre IH]; simpl.
  - apply includes_startsWith, startsWith_app.
  - rewrite IH; apply orb_true_r.
Qed.

Lemma includes_split (s sub : string) :
  includes s sub = true -> exists pre post, s = pre ++ sub ++ post.
Proof.
  induction s as [|c s IH]; intros H.
  - destruct sub; [|discriminate]. now exists "", "".
  - change (startsWith (String c s) sub || includes s sub = true) in H.
    apply orb_true_iff in H as [H|H].
    + destruct (startsWith_split _ _ H) as [rest E].
      exists "", rest. now rewrite E.
    + destruct (IH H) as (pre & post & ->).
      now exists (String c pre), post.
Qed.

(** [includes] is the substring relation. *)
Lemma includes_iff (s sub : string) :
  includes s sub = true <-> exists pre post, s = pre ++ sub ++ post.
Proof.
  split; [apply includes_split|].
  intros (pre & post & ->); apply includes_app.
Qed.

Lemma toLowerCase_app (a b : string) :
  toLowerCase (a ++ b) = toLowerCase a ++ toLowerCase b.
Proof.
  induction a as [|c a IH]; simpl; [reflexivity | now rewrite IH].
Qed.

Lemma lowerChar_idem (c : ascii) : lowerChar (lowerChar c) = lowerChar c.
Proof.
  destruct c as [[] [] [] [] [] [] [] []]; reflexivity.
Qed.

Lemma toLowerCase_idem (s : string) :
  toLowerCase (toLowerCase s) = toLowerCase s.
Proof.
  induction s as [|c s IH]; simpl; [reflexivity|].
  now rewrite lowerChar_idem, IH.
Qed.

(** ** [Object.entries] *)

Section EntriesFacts.
Variable V : Type.
Implicit Types (o : JsObject V) (kv : string * V).

Lemma In_insertIndexed (e x : N * (string * V)) l :
  In x (JsObj.insertIndexed e l) <-> x = e \/ In x l.
Proof.
  induction l as [|y l IH]; simpl.
  - intuition.
  - destruct (fst e <? fst y)%N; simpl; [intuition|].
    rewrite IH; intuition.
Qed.

Lemma In_indexed o n kv :
  In (n, kv) (JsObj.indexed o) <->
  In kv o /\ JsObj.arrayIndex (fst kv) = Some n.
Proof.
  induction o as [|kv' o IH]; simpl.
  - intuition.
  - destruct (JsObj.arrayIndex (fst kv')) as [m|] eqn:E.
    + rewrite In_insertIndexed, IH. split.
      * intros [H|[H1 H2]]; [inversion H; subst; auto | auto].
      * intros [[->|H] H2]; [left; congruence | auto].
    + rewrite IH. split.
      * intros [H1 H2]; auto.
      * intros [[->|H] H2]; [congruence | auto].
Qed.

(** [Object.entries] lists exactly the properties of the object. *)
Lemma In_entries o kv : In kv (JsObj.entries o) <-> In kv o.
Proof.
  unfold JsObj.entries, JsObj.named.
  rewrite in_app_iff, in_map_iff, filter_In. split.
  - intros [[[n kv'] [E H]] | [H _]]; [|exact H].
    simpl in E; subst kv'. now apply In_indexed in H.
  - intros H. destruct (JsObj.arrayIndex (fst kv)) as [n|] eqn:E.
    + left. exists (n, kv). split; [reflexivity|]. now apply In_indexed.
    + right. now split.
Qed.

Lemma indexed_nil o :
  (forall kv, In kv o -> JsObj.arrayIndex (fst kv) = None) ->
  JsObj.indexed o = [].
Proof.
  induction o as [|kv o IH]; intros H; [reflexivity|].
  cbn [JsObj.indexed]. rewrite (H kv) by now left.
  apply IH. intros kv' Hin. apply H. now right.
Qed.

Lemma named_all o :
  (forall kv, In kv o -> JsObj.arrayIndex (fst kv) = None) ->
  JsObj.named o = o.
Proof.
  unfold JsObj.named.
  induction o as [|kv o IH]; intros H; [reflexivity|].
  cbn [filter]. rewrite (H kv) by now left.
  f_equal. apply IH. intros kv' Hin. apply H. now right.
Qed.

(** When no key is an array index, the order is the creation order. *)
Lemma entries_named o :
  (forall kv, In kv o -> JsObj.arrayIndex (fst kv) = None) ->
  JsObj.entries o = o.
Proof.
  intros H. unfold JsObj.entries.
  now rewrite indexed_nil, named_all.
Qed.

End EntriesFacts.

(** ** [determineTarget] *)

(** The test that the loop over the routing rules applies to an entry. *)
Definition ruleMatches (normalized : string) (kv : string * Target) : bool :=
  includes normalized (toLowerCase (fst kv)).

Lemma firstRule_find (normalized : string) (es : list (string * Target)) :
  firstRule normalized es = option_map snd (find (ruleMatches normalized) es).
Proof.
  induction es as [|[table tgt] es IH]; simpl; [reflexivity|].
  unfold ruleMatches at 1; simpl.
  now destruct (includes normalized (toLowerCase table)).
Qed.

Lemma firstRule_none (normalized : string) (es : list (string * Target)) :
  firstRule normalized es = None <->
  forall kv, In kv es -> ruleMatches normalized kv = false.
Proof.
  rewrite firstRule_find.
  destruct (find (ruleMatches normalized) es) as [kv|] eqn:E; simpl.
  - split; [discriminate|]. intros H.
    apply find_some in E as [Hin Hm]. rewrite (H _ Hin) in Hm. discriminate.
  - split; [|reflexivity]. intros _ kv Hin.
    now apply (find_none _ _ E).
Qed.

Section DetermineTarget.
Variable rev : Revision.
Context {W : Type}.
Variable this : AerostackServer W.

Let rules := tables (routingRules this).

Lemma determineTarget_postgres_hint sql :
  includes (toLowerCase sql) "aerostack:target=postgres" = true ->
  determineTarget rev this sql = postgres.
Proof. unfold determineTarget. now intros ->. Qed.

Lemma determineTarget_d1_hint sql :
  includes (toLowerCase sql) "aerostack:target=postgres" = false ->
  includes (toLowerCase sql) "aerostack:target=d1" = true ->
  determineTarget rev this sql = d1.
Proof. unfold determineTarget. now intros -> ->. Qed.

(** Without a hint the routing rules decide, then the keywords, then
    the default of the revision. *)
Lemma determineTarget_no_hint sql :
  includes (toLowerCase sql) "aerostack:target=postgres" = false ->
  includes (toLowerCase sql) "aerostack:target=d1" = false ->
  determineTarget rev this sql =
  match firstRule (toLowerCase sql) (JsObj.entries rules) with
  | Some tgt => tgt
  | None =>
      if existsb (fun trigger => includes (toLowerCase sql) trigger)
                 complexTriggers
      then postgres
      else match rev with
           | Legacy => d1
           | Current => match pgPool this with
                        | Some _ => postgres
                        | None => d1
                        end
           end
  end.
Proof. unfold determineTarget. now intros -> ->. Qed.

End DetermineTarget.

(** ** Test doubles

    Two drivers whose world is the trace of the calls they received,
    for running the router on concrete inputs. *)

Module Fixtures.

Definition Trace : Type := list (Target * string).

Definition fakePool (behaviour : string -> DriverError + QueryResult)
  : Pool Trace :=
  {| pool_query sql _ w := (behaviour sql, (w ++ [(postgres, sql)])%list) |}.

Definition fakeD1 (behaviour : string -> DriverError + D1Result)
  : D1Database Trace :=
  {| prepare_bind_all sql _ w := (behaviour sql, (w ++ [(d1, sql)])%list) |}.

Definition driverError (c msg : option string) : DriverError :=
  {| err_code := c; err_message := msg;
     err_table := None; err_column := None |}.

Definition oneRow : Row := [("id", JNum 1)].

(** A remote driver that answers every statement with one row. *)
Definition pgOk : Pool Trace :=
  fakePool (fun _ => inr {| rows := [oneRow]; pg_rowCount := Some 1%Z |}).

(** A remote driver that rejects every statement. *)
Definition pgDown : Pool Trace :=
  fakePool (fun _ => inl (driverError (Some "08006") (Some "connection failure"))).

(** An embedded driver that knows every table but [widgets]. *)
Definition d1Widgets : D1Database Trace :=
  fakeD1 (fun sql =>
            if includes sql "widgets"
            then inl (driverError None (Some "no such table: widgets"))
            else inr {| d1_results := Some [oneRow]; d1_success := true;
                        d1_meta := Some {| d1_duration := Some 2%Z |} |}).

(** An embedded driver that resolves with [success: false]. *)
Definition d1Unsuccessful : D1Database Trace :=
  fakeD1 (fun _ => inr {| d1_results := None; d1_success := false;
                          d1_meta := None |}).

Definition server (pg : option (Pool Trace)) (db : option (D1Database Trace))
  (rules : JsObject Target) : AerostackServer Trace :=
  {| pgPool := pg; _d1 := db; routingRules := {| tables := rules |} |}.

End Fixtures.

Import Fixtures.

(** ** Target selection *)

(** The query mentions one of the six complexity keywords. *)
Definition mentionsComplexity (normalized : string) : Prop :=
  includes normalized "join" = true \/
  includes normalized "group by" = true \/
  includes normalized "having" = true \/
  includes normalized "union" = true \/
  includes normalized "intersect" = true \/
  includes normalized "except" = true.

Lemma complexTriggers_iff (normalized : string) :
  existsb (fun trigger => includes normalized trigger) complexTriggers = true
  <-> mentionsComplexity normalized.
Proof.
  unfold complexTriggers, mentionsComplexity. cbn [existsb].
  rewrite !orb_true_iff. intuition discriminate.
Qed.

(** C1.  A query whose lower-cased text contains the hint
    [aerostack:target=postgres] goes to the remote engine, whatever the
    routing rules, the drivers and the rest of the text are; a query that
    contains [aerostack:target=d1] and not the remote hint goes to the
    embedded engine.  The hints are recognised in any letter case and at
    any position of the text. *)
Theorem determineTarget_hint_override :
  forall (rev : Revision) (W : Type) (this : AerostackServer W),
    (forall sql,
        includes (toLowerCase sql) "aerostack:target=postgres" = true ->
        determineTarget rev this sql = postgres) /\
    (forall sql,
        includes (toLowerCase sql) "aerostack:target=postgres" = false ->
        includes (toLowerCase sql) "aerostack:target=d1" = true ->
        determineTarget rev this sql = d1) /\
    (forall pre hint post,
        toLowerCase hint = "aerostack:target=postgres" ->
        determineTarget rev this (pre ++ hint ++ post) = postgres) /\
    (forall pre hint post,
        toLowerCase hint = "aerostack:target=d1" ->
        includes (toLowerCase (pre ++ hint ++ post))
                 "aerostack:target=postgres" = false ->
        determineTarget rev this (pre ++ hint ++ post) = d1).
Proof.
  intros rev W this. repeat split.
  - apply determineTarget_postgres_hint.
  - apply determineTarget_d1_hint.
  - intros pre hint post Hh. apply determineTarget_postgres_hint.
    rewrite !toLowerCase_app, Hh. apply includes_app.
  - intros pre hint post Hh Hno. apply determineTarget_d1_hint; [exact Hno|].
    rewrite !toLowerCase_app, Hh. apply includes_app.
Qed.

(** The remote hint in upper case wins over a rule for [orders] and over
    [JOIN]; the embedded hint wins over a rule and over [join] as well. *)
Lemma determineTarget_hint_override_witness :
  determineTarget Legacy (server None (Some d1Widgets) [("orders", d1)])
    "SELECT * FROM orders JOIN items /* AEROSTACK:Target=Postgres */"
  = postgres /\
  determineTarget Current (server (Some pgOk) None [("orders", postgres)])
    "select * from orders join items -- Aerostack:Target=D1"
  = d1.
Proof.
  split.
  - apply (proj1 (determineTarget_hint_override Legacy _
                    (server None (Some d1Widgets) [("orders", d1)]))).
    reflexivity.
  - apply (proj1 (proj2 (determineTarget_hint_override Current _
                    (server (Some pgOk) None [("orders", postgres)]))));
      reflexivity.
Defined.

(** A rule table with a key that is an array index. *)
Definition numericRules : JsObject Target := [("users", d1); ("7", postgres)].

(** C2, as stated, fails.  With the rules [{ users: 'd1', '7': 'postgres' }]
    the first matching pair in creation order is [users], yet the query is
    sent to the target of the key [7], which [Object.entries] lists first. *)
Lemma determineTarget_creation_order_counterexample :
  includes (toLowerCase "SELECT * FROM users WHERE id = 7")
           "aerostack:target=postgres" = false /\
  includes (toLowerCase "SELECT * FROM users WHERE id = 7")
           "aerostack:target=d1" = false /\
  find (ruleMatches (toLowerCase "SELECT * FROM users WHERE id = 7"))
       numericRules = Some ("users", d1) /\
  JsObj.entries numericRules = [("7", postgres); ("users", d1)] /\
  determineTarget Legacy (server None (Some d1Widgets) numericRules)
    "SELECT * FROM users WHERE id = 7" = postgres /\
  determineTarget Current (server None (Some d1Widgets) numericRules)
    "SELECT * FROM users WHERE id = 7" = postgres.
Proof. repeat split. Qed.

(** C2, amended.  Without a hint, when some table name of the routing
    rules occurs in the lower-cased query, the query goes to the target of
    the first matching pair in the order of [Object.entries] (array-index
    keys in ascending numeric order, then the other keys in creation
    order), whatever keywords the query holds; when no table name is an
    array index that order is the creation order. *)
Theorem determineTarget_first_matching_rule :
  forall (rev : Revision) (W : Type) (this : AerostackServer W) (sql : string),
    let normalized := toLowerCase sql in
    let rules := tables (routingRules this) in
    includes normalized "aerostack:target=postgres" = false ->
    includes normalized "aerostack:target=d1" = false ->
    (forall table tgt,
        find (ruleMatches normalized) (JsObj.entries rules) = Some (table, tgt) ->
        determineTarget rev this sql = tgt) /\
    ((exists kv, In kv rules /\ ruleMatches normalized kv = true) ->
     exists table tgt,
       find (ruleMatches normalized) (JsObj.entries rules) = Some (table, tgt) /\
       determineTarget rev this sql = tgt) /\
    ((forall kv, In kv rules -> JsObj.arrayIndex (fst kv) = None) ->
     forall table tgt,
       find (ruleMatches normalized) rules = Some (table, tgt) ->
       determineTarget rev this sql = tgt).
Proof.
  intros rev W this sql normalized rules Hpg Hd1.
  assert (Hfind : forall table tgt,
             find (ruleMatches normalized) (JsObj.entries rules) = Some (table, tgt) ->
             determineTarget rev this sql = tgt).
  { intros table tgt Hf.
    rewrite (determineTarget_no_hint rev this sql Hpg Hd1).
    fold normalized rules. now rewrite firstRule_find, Hf. }
  split; [exact Hfind|]. split.
  - intros (kv & Hin & Hm).
    destruct (find (ruleMatches normalized) (JsObj.entries rules))
      as [[table tgt]|] eqn:E.
    + exists table, tgt. split; [reflexivity | now apply (Hfind table)].
    + apply In_entries in Hin.
      rewrite (find_none _ _ E kv Hin) in Hm. discriminate.
  - intros Hnamed table tgt Hf. apply (Hfind table).
    now rewrite entries_named.
Qed.

(** A rule for [orders] decides a query that also holds [JOIN]. *)
Lemma determineTarget_first_matching_rule_witness :
  determineTarget Current
    (server (Some pgOk) (Some d1Widgets) [("users", postgres); ("orders", d1)])
    "SELECT * FROM orders JOIN items ON items.o = orders.id" = d1.
Proof.
  apply (proj1 (determineTarget_first_matching_rule Current _
                  (server (Some pgOk) (Some d1Widgets)
                          [("users", postgres); ("orders", d1)])
                  "SELECT * FROM orders JOIN items ON items.o = orders.id"
                  eq_refl eq_refl) "orders").
  reflexivity.
Defined.

(** C3, as stated, fails.  In the first listing the default is the
    embedded engine even though a remote pool is configured; no field of
    the router names a default. *)
Lemma determineTarget_default_counterexample :
  pgPool (server (Some pgOk) (Some d1Widgets) []) = Some pgOk /\
  determineTarget Legacy (server (Some pgOk) (Some d1Widgets) [])
    "SELECT * FROM users" = d1.
Proof. split; reflexivity. Qed.

(** C3, amended.  Without a hint and without a matching rule, a query
    that holds one of [join], [group by], [having], [union], [intersect],
    [except] goes to the remote engine; any other query goes to a default
    that the code fixes: in the second listing the remote engine when the
    remote pool is configured and the embedded engine otherwise, in the
    first listing always the embedded engine. *)
Theorem determineTarget_complexity_then_default :
  forall (rev : Revision) (W : Type) (this : AerostackServer W) (sql : string),
    let normalized := toLowerCase sql in
    includes normalized "aerostack:target=postgres" = false ->
    includes normalized "aerostack:target=d1" = false ->
    (forall kv, In kv (tables (routingRules this)) ->
                ruleMatches normalized kv = false) ->
    (mentionsComplexity normalized -> determineTarget rev this sql = postgres) /\
    (~ mentionsComplexity normalized ->
     determineTarget rev this sql =
     match rev with
     | Legacy => d1
     | Current => match pgPool this with
                  | Some _ => postgres
                  | None => d1
                  end
     end).
Proof.
  intros rev W this sql normalized Hpg Hd1 Hrules.
  rewrite (determineTarget_no_hint rev this sql Hpg Hd1). fold normalized.
  assert (Hnone : firstRule normalized
                    (JsObj.entries (tables (routingRules this))) = None).
  { apply firstRule_none. intros kv Hin. apply Hrules. now apply In_entries. }
  rewrite Hnone.
  destruct (existsb (fun trigger => includes normalized trigger) complexTriggers)
    eqn:E.
  - split; [reflexivity|]. intros Hn. exfalso. apply Hn.
    now apply complexTriggers_iff.
  - split; [|reflexivity]. intros Hc.
    apply complexTriggers_iff in Hc. congruence.
Qed.

Lemma determineTarget_complexity_then_default_witness :
  determineTarget Legacy (server None (Some d1Widgets) [("orders", d1)])
    "SELECT a FROM t GROUP BY a" = postgres /\
  determineTarget Current (server (Some pgOk) (Some d1Widgets) [("orders", d1)])
    "SELECT * FROM users" = postgres.
Proof.
  split.
  - apply (proj1 (determineTarget_complexity_then_default Legacy _
                    (server None (Some d1Widgets) [("orders", d1)])
                    "SELECT a FROM t GROUP BY a" eq_refl eq_refl
                    ltac:(intros kv [<-|[]]; reflexivity))).
    right; left; reflexivity.
  - apply (proj2 (determineTarget_complexity_then_default Current _
                    (server (Some pgOk) (Some d1Widgets) [("orders", d1)])
                    "SELECT * FROM users" eq_refl eq_refl
                    ltac:(intros kv [<-|[]]; reflexivity))).
    intros [H|[H|[H|[H|[H|H]]]]]; discriminate H.
Defined.

(** [determineTarget] looks at the query only through its lower-cased
    text. *)
Lemma determineTarget_case_insensitive :
  forall (rev : Revision) (W : Type) (this : AerostackServer W)
         (sql1 sql2 : string),
    toLowerCase sql1 = toLowerCase sql2 ->
    determineTarget rev this sql1 = determineTarget rev this sql2.
Proof.
  intros rev W this sql1 sql2 H. unfold determineTarget. now rewrite H.
Qed.

(** A rule [orders -> postgres] sends a query on [orders] to the remote
    engine; with no rule and no remote pool a plain query stays on the
    embedded engine. *)
Example determineTarget_orders_rule :
  determineTarget Current (server (Some pgOk) (Some d1Widgets)
                                  [("orders", postgres)])
    "SELECT * FROM orders WHERE id=?" = postgres /\
  determineTarget Current (server None (Some d1Widgets) [])
    "SELECT * FROM users" = d1.
Proof. split; reflexivity. Qed.

(** The hints are spelled with the engine tags of the code: the text
    [aerostack:target=remote] is no hint. *)
Example determineTarget_unknown_hint :
  determineTarget Legacy (server (Some pgOk) (Some d1Widgets) [])
    "SELECT 1 /* aerostack:target=remote */" = d1.
Proof. reflexivity. Qed.

(** ** Query execution *)

(** The response built from what the remote driver resolved to. *)
Definition postgresResponse (result : QueryResult) : DatabaseResponse :=
  {| results := rows result;
     success := true;
     meta := {| target := postgres;
                rowCount := Some (match pg_rowCount result with
                                  | Some n => n
                                  | None => 0%Z
                                  end);
                duration := None |} |}.

(** The response built from what the embedded driver resolved to. *)
Definition d1Response (result : D1Result) : DatabaseResponse :=
  {| results := orEmpty (d1_results result);
     success := d1_success result;
     meta := {| target := d1;
                rowCount := None;
                duration := match d1_meta result with
                            | Some m => d1_duration m
                            | None => None
                            end |} |}.

Definition queryContext (sql : string) (params : list JsValue) (tgt : Target)
  : option QueryContext :=
  Some {| ctx_sql := sql; ctx_params := params; ctx_target := tgt |}.

Section RouteQuery.
Variable rev : Revision.
Context {W : Type}.
Variable this : AerostackServer W.
Variables (sql : string) (params : list JsValue) (w : W).

(** The remote branch is not taken. *)
Definition notRemote : Prop :=
  determineTarget rev this sql = d1 \/ pgPool this = None.

Lemma routeQuery_postgres (pool : Pool W) :
  determineTarget rev this sql = postgres ->
  pgPool this = Some pool ->
  routeQuery rev this sql params w =
  match pool_query pool sql params w with
  | (inr result, w') => (Normal (postgresResponse result), w')
  | (inl e, w') =>
      (Throw (ThrownDatabaseError
                (fromPostgresError e (queryContext sql params postgres))), w')
  end.
Proof.
  intros Ht Hp. unfold routeQuery. rewrite Ht, Hp.
  unfold try_catch, bind, await, ret, throw.
  now destruct (pool_query pool sql params w) as [[e|result] w'].
Qed.

Lemma routeQuery_d1 (db : D1Database W) :
  notRemote ->
  _d1 this = Some db ->
  routeQuery rev this sql params w =
  match prepare_bind_all db sql params w with
  | (inr result, w') => (Normal (d1Response result), w')
  | (inl e, w') =>
      (Throw (ThrownDatabaseError
                (fromD1Error e (queryContext sql params d1))), w')
  end.
Proof.
  intros Hn Hd. unfold routeQuery. rewrite Hd.
  unfold try_catch, bind, await, ret, throw.
  destruct Hn as [-> | ->].
  - now destruct (prepare_bind_all db sql params w) as [[e|result] w'].
  - destruct (determineTarget rev this sql);
      now destruct (prepare_bind_all db sql params w) as [[e|result] w'].
Qed.

Lemma routeQuery_no_driver :
  notRemote ->
  _d1 this = None ->
  routeQuery rev this sql params w = (Throw (ThrownDatabaseError noConnection), w).
Proof.
  intros Hn Hd. unfold routeQuery. rewrite Hd.
  destruct Hn as [-> | ->]; [reflexivity|].
  now destruct (determineTarget rev this sql).
Qed.

(** One of the two branches applies. *)
Lemma remote_or_not :
  (determineTarget rev this sql = postgres /\ exists pool, pgPool this = Some pool)
  \/ notRemote.
Proof.
  unfold notRemote.
  destruct (determineTarget rev this sql); [auto|].
  destruct (pgPool this) as [pool|]; [left; eauto | auto].
Qed.

Lemma fromPostgresError_context e ctx :
  context (fromPostgresError e ctx) = ctx.
Proof.
  unfold fromPostgresError.
  repeat match goal with |- context [if ?b then _ else _] => destruct b end;
    reflexivity.
Qed.

Lemma fromD1Error_context e ctx : context (fromD1Error e ctx) = ctx.
Proof.
  unfold fromD1Error.
  repeat match goal with |- context [if ?b then _ else _] => destruct b end;
    reflexivity.
Qed.

(** Whatever [routeQuery] throws is a [DatabaseError]. *)
Lemma routeQuery_throws_DatabaseError e w' :
  routeQuery rev this sql params w = (Throw e, w') ->
  exists de, e = ThrownDatabaseError de.
Proof.
  destruct remote_or_not as [[Ht [pool Hp]] | Hn].
  - rewrite (routeQuery_postgres pool Ht Hp).
    destruct (pool_query pool sql params w) as [[err|result] w1];
      intros H; inversion H; eauto.
  - destruct (_d1 this) as [db|] eqn:Hd.
    + rewrite (routeQuery_d1 db Hn Hd).
      destruct (prepare_bind_all db sql params w) as [[err|result] w1];
        intros H; inversion H; eauto.
    + rewrite (routeQuery_no_driver Hn Hd). intros H; inversion H; eauto.
Qed.

End RouteQuery.

(** C4.  [routeQuery] runs the statement on the remote driver when the
    target is the remote engine and the remote pool is configured, and a
    rejection of the remote driver is translated and thrown, the embedded
    driver not being called; in every other case it runs the statement on
    the embedded driver when that one is configured, and throws the
    connection error when it is not: a [DatabaseError] of code
    [DB_CONNECTION_FAILED] with the message [No database connection
    available] and no query context, the world left as it was.  An error
    of that code without query context is thrown exactly when the embedded
    driver is absent and the remote branch is not taken; the errors
    translated from a driver all carry the context of the query. *)
Theorem routeQuery_selection :
  forall (rev : Revision) (W : Type) (this : AerostackServer W)
         (sql : string) (params : list JsValue) (w : W),
    (forall pool,
        determineTarget rev this sql = postgres ->
        pgPool this = Some pool ->
        routeQuery rev this sql params w =
        match pool_query pool sql params w with
        | (inr result, w') => (Normal (postgresResponse result), w')
        | (inl e, w') =>
            (Throw (ThrownDatabaseError
                      (fromPostgresError e (queryContext sql params postgres))),
             w')
        end) /\
    (forall db,
        determineTarget rev this sql = d1 \/ pgPool this = None ->
        _d1 this = Some db ->
        routeQuery rev this sql params w =
        match prepare_bind_all db sql params w with
        | (inr result, w') => (Normal (d1Response result), w')
        | (inl e, w') =>
            (Throw (ThrownDatabaseError
                      (fromD1Error e (queryContext sql params d1))), w')
        end) /\
    (determineTarget rev this sql = d1 \/ pgPool this = None ->
     _d1 this = None ->
     exists e,
       routeQuery rev this sql params w = (Throw (ThrownDatabaseError e), w) /\
       code e = DB_CONNECTION_FAILED /\
       message e = "No database connection available" /\
       context e = None) /\
    ((exists e,
        fst (routeQuery rev this sql params w) = Throw (ThrownDatabaseError e) /\
        code e = DB_CONNECTION_FAILED /\ context e = None)
     <-> _d1 this = None /\
         ~ (determineTarget rev this sql = postgres /\ pgPool this <> None)).
Proof.
  intros rev W this sql params w. repeat apply conj.
  - intros pool. apply routeQuery_postgres.
  - intros db. apply routeQuery_d1.
  - intros Hn Hd. exists noConnection.
    rewrite (routeQuery_no_driver rev this sql params w Hn Hd).
    repeat split.
  - intros (e & H & _ & Hctx).
    destruct (remote_or_not rev this sql) as [[Ht [pool Hp]] | Hn].
    + exfalso.
      rewrite (routeQuery_postgres rev this sql params w pool Ht Hp) in H.
      destruct (pool_query pool sql params w) as [[err|result] w1];
        simpl in H; [|discriminate].
      injection H as H. apply (f_equal context) in H.
      rewrite fromPostgresError_context, Hctx in H. discriminate.
    + destruct (_d1 this) as [db|] eqn:Hd.
      * exfalso.
        rewrite (routeQuery_d1 rev this sql params w db Hn Hd) in H.
        destruct (prepare_bind_all db sql params w) as [[err|result] w1];
          simpl in H; [|discriminate].
        injection H as H. apply (f_equal context) in H.
        rewrite fromD1Error_context, Hctx in H. discriminate.
      * split; [reflexivity|].
        destruct Hn as [Hn|Hn]; intros [Ht Hp]; congruence.
  - intros [Hd Hn].
    assert (Hnr : notRemote rev this sql).
    { unfold notRemote. destruct (determineTarget rev this sql); [auto|].
      destruct (pgPool this); [|auto].
      exfalso. apply Hn. split; [reflexivity | discriminate]. }
    exists noConnection.
    rewrite (routeQuery_no_driver rev this sql params w Hnr Hd).
    repeat split.
Qed.

(** A rejection of the remote driver is thrown after the single call to
    it; with a local target and no embedded driver nothing is called. *)
Lemma routeQuery_selection_witness :
  routeQuery Current (server (Some pgDown) (Some d1Widgets) [])
    "SELECT 1 /* aerostack:target=postgres */" [] []
  = (Throw (ThrownDatabaseError
              (fromPostgresError
                 (driverError (Some "08006") (Some "connection failure"))
                 (queryContext "SELECT 1 /* aerostack:target=postgres */" []
                               postgres))),
     [(postgres, "SELECT 1 /* aerostack:target=postgres */")]) /\
  (exists e,
     routeQuery Legacy (server (Some pgOk) None [])
       "SELECT 1 /* aerostack:target=d1 */" [] []
     = (Throw (ThrownDatabaseError e), []) /\
     code e = DB_CONNECTION_FAILED /\
     message e = "No database connection available" /\
     context e = None).
Proof.
  split.
  - rewrite (proj1 (routeQuery_selection Current _
                      (server (Some pgDown) (Some d1Widgets) [])
                      "SELECT 1 /* aerostack:target=postgres */" [] [])
               pgDown eq_refl eq_refl).
    reflexivity.
  - apply (proj1 (proj2 (proj2 (routeQuery_selection Legacy _
                      (server (Some pgOk) None [])
                      "SELECT 1 /* aerostack:target=d1 */" [] [])))).
    + left; reflexivity.
    + reflexivity.
Defined.

(** ** The single-query entry point *)

(** C7, as stated, fails.  When the embedded driver resolves with
    [success: false], [query] returns a response with [success = false]
    and throws nothing. *)
Lemma query_returns_unsuccessful_counterexample :
  query Current (server None (Some d1Unsuccessful) []) "SELECT * FROM users"
        None []
  = (Normal {| results := [];
               success := false;
               meta := {| target := d1; rowCount := None; duration := None |} |},
     [(d1, "SELECT * FROM users")]).
Proof. reflexivity. Qed.

(** C7, amended.  A call to [query] either returns or throws.  A response
    returned for the remote engine has [success = true].  A response of
    the embedded engine carries the [success] flag of the driver's own
    result: [query] returns [success = false] exactly when the embedded
    driver resolved, without throwing, with [success: false]. *)
Theorem query_success_flag :
  forall (rev : Revision) (W : Type) (this : AerostackServer W)
         (sql : string) (params : option (list JsValue)) (w : W),
    (forall resp w',
        query rev this sql params w = (Normal resp, w') ->
        (target (meta resp) = postgres -> success resp = true) /\
        (success resp = false ->
         exists db result,
           _d1 this = Some db /\
           prepare_bind_all db sql (orEmpty params) w = (inr result, w') /\
           d1_success result = false /\
           resp = d1Response result) /\
        (forall e w'', query rev this sql params w <> (Throw e, w''))) /\
    (forall db result w',
        determineTarget rev this sql = d1 \/ pgPool this = None ->
        _d1 this = Some db ->
        prepare_bind_all db sql (orEmpty params) w = (inr result, w') ->
        query rev this sql params w = (Normal (d1Response result), w') /\
        success (d1Response result) = d1_success result).
Proof.
  intros rev W this sql params w. split.
  - intros resp w' H.
    split; [|split]; [| |intros e w'' H'; congruence].
    + unfold query in H.
      destruct (remote_or_not rev this sql) as [[Ht [pool Hp]] | Hn].
      * rewrite (routeQuery_postgres rev this sql _ w pool Ht Hp) in H.
        destruct (pool_query pool sql (orEmpty params) w) as [[err|result] w1];
          inversion H; reflexivity.
      * destruct (_d1 this) as [db|] eqn:Hd.
        -- rewrite (routeQuery_d1 rev this sql _ w db Hn Hd) in H.
           destruct (prepare_bind_all db sql (orEmpty params) w)
             as [[err|result] w1]; inversion H; discriminate.
        -- rewrite (routeQuery_no_driver rev this sql _ w Hn Hd) in H.
           discriminate.
    + intros Hs. unfold query in H.
      destruct (remote_or_not rev this sql) as [[Ht [pool Hp]] | Hn].
      * rewrite (routeQuery_postgres rev this sql _ w pool Ht Hp) in H.
        destruct (pool_query pool sql (orEmpty params) w) as [[err|result] w1];
          inversion H; subst; discriminate.
      * destruct (_d1 this) as [db|] eqn:Hd.
        -- rewrite (routeQuery_d1 rev this sql _ w db Hn Hd) in H.
           destruct (prepare_bind_all db sql (orEmpty params) w)
             as [[err|result] w1] eqn:Hcall; inversion H; subst.
           exists db, result. repeat split; simpl in *; congruence.
        -- rewrite (routeQuery_no_driver rev this sql _ w Hn Hd) in H.
           discriminate.
  - intros db result w' Hn Hd Hcall. split; [|reflexivity].
    unfold query.
    now rewrite (routeQuery_d1 rev this sql _ w db Hn Hd), Hcall.
Qed.

Lemma query_success_flag_witness :
  query Current (server (Some pgOk) (Some d1Unsuccessful) [])
        "SELECT * FROM users" None []
  = (Normal (postgresResponse {| rows := [oneRow]; pg_rowCount := Some 1%Z |}),
     [(postgres, "SELECT * FROM users")]) /\
  success (postgresResponse {| rows := [oneRow]; pg_rowCount := Some 1%Z |})
  = true /\
  query Legacy (server (Some pgOk) (Some d1Unsuccessful) [])
        "SELECT * FROM users" None []
  = (Normal (d1Response {| d1_results := None; d1_success := false;
                           d1_meta := None |}),
     [(d1, "SELECT * FROM users")]).
Proof.
  split; [reflexivity|]. split.
  - apply (proj1 (proj1 (query_success_flag Current _
                    (server (Some pgOk) (Some d1Unsuccessful) [])
                    "SELECT * FROM users" None [])
                   _ [(postgres, "SELECT * FROM users")] eq_refl)).
    reflexivity.
  - apply (proj2 (query_success_flag Legacy _
                    (server (Some pgOk) (Some d1Unsuccessful) [])
                    "SELECT * FROM users" None [])
             d1Unsuccessful).
    + left; reflexivity.
    + reflexivity.
    + reflexivity.
Defined.

(** ** Error translation *)

(** [error.details?.cause]. *)
Definition causeOf (e : DatabaseError) : option string :=
  match details e with
  | Some d => cause d
  | None => None
  end.

(** The error codes of the remote engine that have a kind of their own. *)
Definition knownPostgresCodes : list string :=
  ["42P01"; "42703"; "28P01"; "28000"; "08006"; "08003"].

Lemma append_empty_r (s : string) : s ++ "" = s.
Proof. induction s as [|c s IH]; simpl; [reflexivity | now rewrite IH]. Qed.

Lemma fromD1Error_cases (err : DriverError) (ctx : option QueryContext) :
  let msg := orElse (err_message err) "D1 query failed" in
  let e := fromD1Error err ctx in
  message e = msg /\
  causeOf e = err_message err /\
  (includes msg "no such table" = true -> code e = DB_TABLE_NOT_FOUND) /\
  (includes msg "no such table" = false ->
   includes msg "no such column" = true -> code e = DB_COLUMN_NOT_FOUND) /\
  (includes msg "no such table" = false ->
   includes msg "no such column" = false -> code e = DB_QUERY_FAILED).
Proof.
  intros msg e. subst e. unfold fromD1Error. fold msg.
  destruct (includes msg "no such table") eqn:Ht;
    [|destruct (includes msg "no such column") eqn:Hc];
    cbn [message causeOf details cause code];
    repeat split; intros; congruence.
Qed.

Lemma fromPostgresError_unknown (err : DriverError) (ctx : option QueryContext) :
  (forall c, In c knownPostgresCodes -> err_code err <> Some c) ->
  fromPostgresError err ctx =
  {| code := DB_QUERY_FAILED;
     message := orElse (err_message err) "Database query failed";
     details := Some {| suggestion := Some "Check your query syntax and parameters";
                        recoveryAction := None;
                        field := None;
                        cause := match err_code err with
                                 | Some (String _ _ as c) =>
                                     Some ("Postgres error " ++ c)
                                 | _ => None
                                 end |};
     context := ctx |}.
Proof.
  intros H. unfold fromPostgresError.
  destruct (err_code err) as [c|]; [|reflexivity].
  assert (Hne : forall k, In k knownPostgresCodes -> String.eqb c k = false).
  { intros k Hk. apply String.eqb_neq. intros ->. now apply (H k). }
  rewrite !Hne by (simpl; tauto).
  reflexivity.
Qed.

(** C8, as stated, fails.  For a remote error with no kind of its own the
    [cause] is the text [Postgres error <code>], not the text of the
    driver's error; and an embedded error whose message holds both
    [no such column] and [no such table] is a [DB_TABLE_NOT_FOUND]. *)
Lemma error_cause_counterexample :
  causeOf (fromPostgresError
             {| err_code := Some "23505";
                err_message := Some "duplicate key value violates unique constraint";
                err_table := None; err_column := None |} None)
  = Some "Postgres error 23505" /\
  code (fromD1Error
          {| err_code := None;
             err_message := Some "no such column: t.c (no such table: t)";
             err_table := None; err_column := None |} None)
  = DB_TABLE_NOT_FOUND.
Proof. split; reflexivity. Qed.

(** C8, amended.  Every error that [routeQuery] throws is a
    [DatabaseError].  An embedded error keeps its message and has its text
    in [cause]; it is a [DB_TABLE_NOT_FOUND] when the message holds
    [no such table], else a [DB_COLUMN_NOT_FOUND] when it holds
    [no such column], else a [DB_QUERY_FAILED].  A remote error with code
    [42P01], [42703], [28P01]/[28000] or [08006]/[08003] is a
    [DB_TABLE_NOT_FOUND], [DB_COLUMN_NOT_FOUND], [DB_AUTH_FAILED] or
    [DB_CONNECTION_FAILED] with the driver's text in [cause]; any other
    remote error is a [DB_QUERY_FAILED] that keeps the driver's message as
    its message, its [cause] being [Postgres error <code>] or absent. *)
Theorem driver_errors_translated :
  (forall (rev : Revision) (W : Type) (this : AerostackServer W)
          (sql : string) (params : list JsValue) (w w' : W) (e : Thrown),
      routeQuery rev this sql params w = (Throw e, w') ->
      exists de, e = ThrownDatabaseError de) /\
  (forall (err : DriverError) (ctx : option QueryContext),
      let msg := orElse (err_message err) "D1 query failed" in
      let e := fromD1Error err ctx in
      message e = msg /\
      causeOf e = err_message err /\
      (includes msg "no such table" = true -> code e = DB_TABLE_NOT_FOUND) /\
      (includes msg "no such table" = false ->
       includes msg "no such column" = true -> code e = DB_COLUMN_NOT_FOUND) /\
      (includes msg "no such table" = false ->
       includes msg "no such column" = false -> code e = DB_QUERY_FAILED)) /\
  (forall (name : string) (ctx : option QueryContext),
      let e := fromD1Error {| err_code := None;
                              err_message := Some ("no such table: " ++ name);
                              err_table := None; err_column := None |} ctx in
      code e = DB_TABLE_NOT_FOUND /\
      includes (message e) name = true /\
      causeOf e = Some ("no such table: " ++ name)) /\
  (forall (err : DriverError) (ctx : option QueryContext),
      let e := fromPostgresError err ctx in
      (err_code err = Some "42P01" ->
       code e = DB_TABLE_NOT_FOUND /\
       message e = "Table does not exist: " ++ orElse (err_table err) "unknown" /\
       causeOf e = err_message err) /\
      (err_code err = Some "42703" ->
       code e = DB_COLUMN_NOT_FOUND /\
       message e = "Column does not exist: " ++ orElse (err_column err) "unknown" /\
       causeOf e = err_message err) /\
      (err_code err = Some "28P01" \/ err_code err = Some "28000" ->
       code e = DB_AUTH_FAILED /\ causeOf e = err_message err) /\
      (err_code err = Some "08006" \/ err_code err = Some "08003" ->
       code e = DB_CONNECTION_FAILED /\ causeOf e = err_message err) /\
      ((forall c, In c knownPostgresCodes -> err_code err <> Some c) ->
       code e = DB_QUERY_FAILED /\
       message e = orElse (err_message err) "Database query failed" /\
       causeOf e = match err_code err with
                   | Some (String _ _ as c) => Some ("Postgres error " ++ c)
                   | _ => None
                   end)).
Proof.
  split; [|split; [|split]].
  - intros rev W this sql params w w' e.
    apply routeQuery_throws_DatabaseError.
  - apply fromD1Error_cases.
  - intros name ctx e.
    destruct (fromD1Error_cases
                {| err_code := None;
                   err_message := Some ("no such table: " ++ name);
                   err_table := None; err_column := None |} ctx)
      as (Hm & Hc & Ht & _).
    fold e in Hm, Hc, Ht. cbn [err_message] in Hm, Hc, Ht.
    change (orElse (Some ("no such table: " ++ name)) "D1 query failed")
      with ("no such table: " ++ name) in Hm, Ht.
    split; [|split].
    + apply Ht.
      apply (includes_app "" "no such table" (": " ++ name)).
    + rewrite Hm.
      pose proof (includes_app "no such table: " name "") as Hi.
      now rewrite append_empty_r in Hi.
    + exact Hc.
  - intros err ctx e. subst e. unfold fromPostgresError, causeOf.
    repeat apply conj.
    + intros ->. repeat split.
    + intros ->. repeat split.
    + intros [-> | ->]; repeat split.
    + intros [-> | ->]; repeat split.
    + intros H. fold (fromPostgresError err ctx).
      rewrite (fromPostgresError_unknown err ctx H). repeat split.
Qed.

Lemma driver_errors_translated_witness :
  code (fromD1Error (driverError None (Some "no such table: widgets")) None)
  = DB_TABLE_NOT_FOUND /\
  code (fromD1Error (driverError None (Some "no such column: price")) None)
  = DB_COLUMN_NOT_FOUND /\
  code (fromPostgresError (driverError (Some "28P01") (Some "bad password")) None)
  = DB_AUTH_FAILED /\
  code (fromPostgresError (driverError (Some "23505") (Some "duplicate key")) None)
  = DB_QUERY_FAILED.
Proof.
  destruct driver_errors_translated as (_ & Hd1 & _ & Hpg).
  repeat apply conj.
  - apply (Hd1 (driverError None (Some "no such table: widgets")) None).
    reflexivity.
  - apply (Hd1 (driverError None (Some "no such column: price")) None);
      reflexivity.
  - apply (Hpg (driverError (Some "28P01") (Some "bad password")) None).
    left; reflexivity.
  - apply (Hpg (driverError (Some "23505") (Some "duplicate key")) None).
    intros c Hc. simpl in Hc.
    decompose [or] Hc; subst; try discriminate; contradiction.
Defined.

(** ** Batch execution *)

(** The slot that [batch] stores for an outcome of [routeQuery]. *)
Definition slotOf (o : Completion DatabaseResponse) : DatabaseResponse :=
  match o with
  | Normal result => result
  | Throw _ => failedSlot
  end.

Definition isNormal {A : Type} (o : Completion A) : bool :=
  match o with
  | Normal _ => true
  | Throw _ => false
  end.

(** The error entries for a list of outcomes whose first index is [i]. *)
Fixpoint failures (i : nat) (os : list (Completion DatabaseResponse))
  : list BatchError :=
  match os with
  | [] => []
  | Normal _ :: os' => failures (S i) os'
  | Throw e :: os' => {| index := i; error := e |} :: failures (S i) os'
  end.

(** [error_list res]: [res.errors ?? []]. *)
Definition errorList (res : BatchResult) : list BatchError :=
  orEmpty (batch_errors res).

Section BatchFacts.
Variable rev : Revision.
Context {W : Type}.
Variable this : AerostackServer W.

(** What [routeQuery] does with one query of a batch. *)
Definition runQuery (q : BatchQuery) (w : W)
  : Completion DatabaseResponse * W :=
  routeQuery rev this (sql q) (orEmpty (params q)) w.

(** The queries run one after the other in their order, each in the
    world that the one before left, whether it threw or not. *)
Fixpoint worldAfter (qs : list BatchQuery) (w : W) : W :=
  match qs with
  | [] => w
  | q :: qs' => worldAfter qs' (snd (runQuery q w))
  end.

Fixpoint outcomes (qs : list BatchQuery) (w : W)
  : list (Completion DatabaseResponse) :=
  match qs with
  | [] => []
  | q :: qs' => fst (runQuery q w) :: outcomes qs' (snd (runQuery q w))
  end.

(** The outcome of the query [q] at index [i] of [qs]: that of
    [routeQuery] in the world left by the [i] queries before it. *)
Definition outcomeAt (qs : list BatchQuery) (w : W) (i : nat) (q : BatchQuery)
  : Completion DatabaseResponse :=
  fst (runQuery q (worldAfter (firstn i qs) w)).

Lemma outcomes_length qs w :
  List.length (outcomes qs w) = List.length qs.
Proof.
  revert w; induction qs as [|q qs IH]; intros w; simpl; [reflexivity|].
  now rewrite IH.
Qed.

Lemma nth_error_outcomes qs w i q :
  nth_error qs i = Some q ->
  nth_error (outcomes qs w) i = Some (outcomeAt qs w i q).
Proof.
  revert w i; induction qs as [|q0 qs IH]; intros w [|i] H;
    try discriminate.
  - now inversion H.
  - simpl in H |- *. rewrite (IH _ _ H). reflexivity.
Qed.

Lemma nth_error_outcomes_inv qs w i o :
  nth_error (outcomes qs w) i = Some o ->
  exists q, nth_error qs i = Some q /\ o = outcomeAt qs w i q.
Proof.
  intros H.
  destruct (nth_error qs i) as [q|] eqn:E.
  - exists q. split; [reflexivity|].
    rewrite (nth_error_outcomes qs w i q E) in H. congruence.
  - apply nth_error_None in E. rewrite <- (outcomes_length qs w) in E.
    apply nth_error_None in E. congruence.
Qed.

Lemma batchStep_eq i q st w :
  batchStep rev this i q st w =
  (Normal match fst (runQuery q w) with
          | Normal result =>
              {| st_results := st_results st ++ [result];
                 st_errors := st_errors st;
                 st_success := st_success st |}
          | Throw e =>
              {| st_results := st_results st ++ [failedSlot];
                 st_errors := st_errors st ++ [{| index := i; error := e |}];
                 st_success := false |}
          end,
   snd (runQuery q w)).
Proof.
  unfold batchStep, try_catch, bind, ret, runQuery.
  now destruct (routeQuery rev this (sql q) (orEmpty (params q)) w)
    as [[result|e] w'].
Qed.

(** The invariant of the loop of [batch]. *)
Lemma batchLoop_eq qs : forall i st w,
  batchLoop rev this i qs st w =
  (Normal {| st_results := st_results st ++ map slotOf (outcomes qs w);
             st_errors := st_errors st ++ failures i (outcomes qs w);
             st_success := st_success st && forallb isNormal (outcomes qs w) |},
   worldAfter qs w).
Proof.
  induction qs as [|q qs IH]; intros i st w.
  - simpl. unfold ret. rewrite !app_nil_r, andb_true_r. now destruct st.
  - cbn [batchLoop]. unfold bind at 1. rewrite batchStep_eq.
    rewrite IH. cbn [outcomes worldAfter map failures forallb].
    destruct (fst (runQuery q w)) as [result|e];
      cbn [st_results st_errors st_success slotOf isNormal failures];
      rewrite <- !app_assoc; simpl; try reflexivity.
    now rewrite andb_false_r.
Qed.

Lemma batch_eq qs w :
  batch rev this qs w =
  (Normal {| batch_results := map slotOf (outcomes qs w);
             batch_success := forallb isNormal (outcomes qs w);
             batch_errors := match failures 0 (outcomes qs w) with
                             | [] => None
                             | _ :: _ => Some (failures 0 (outcomes qs w))
                             end |},
   worldAfter qs w).
Proof.
  unfold batch, bind. rewrite batchLoop_eq. reflexivity.
Qed.

End BatchFacts.

Lemma In_failures (os : list (Completion DatabaseResponse)) :
  forall k i e,
    In {| index := i; error := e |} (failures k os) <->
    exists j, i = k + j /\ nth_error os j = Some (Throw e).
Proof.
  induction os as [|[r|e0] os IH]; intros k i e; simpl.
  - split; [contradiction | intros (j & _ & H); destruct j; discriminate].
  - rewrite IH. split.
    + intros (j & -> & H). exists (S j). split; [lia | exact H].
    + intros ([|j] & -> & H); [discriminate|]. exists j. split; [lia | exact H].
  - rewrite IH. split.
    + intros [H | (j & -> & H)].
      * inversion H; subst. exists 0. split; [lia | reflexivity].
      * exists (S j). split; [lia | exact H].
    + intros ([|j] & -> & H).
      * left. simpl in H. inversion H. f_equal. lia.
      * right. exists j. split; [lia | exact H].
Qed.

Lemma failures_index_ge (os : list (Completion DatabaseResponse)) :
  forall k b, In b (failures k os) -> k <= index b.
Proof.
  induction os as [|[r|e0] os IH]; intros k b; simpl.
  - contradiction.
  - intros H. apply IH in H. lia.
  - intros [<- | H]; [simpl; lia | apply IH in H; lia].
Qed.

Lemma failures_NoDup (os : list (Completion DatabaseResponse)) :
  forall k, NoDup (map index (failures k os)).
Proof.
  induction os as [|[r|e0] os IH]; intros k; simpl.
  - constructor.
  - apply IH.
  - constructor; [|apply IH].
    intros H. apply in_map_iff in H as (b & Hb & Hin).
    apply failures_index_ge in Hin. simpl in Hb. lia.
Qed.

Lemma failures_nil (os : list (Completion DatabaseResponse)) :
  forall k, failures k os = [] <-> forallb isNormal os = true.
Proof.
  induction os as [|[r|e0] os IH]; intros k; simpl.
  - tauto.
  - apply IH.
  - split; discriminate.
Qed.

Lemma forallb_isNormal (os : list (Completion DatabaseResponse)) :
  forallb isNormal os = true <->
  forall i o, nth_error os i = Some o -> exists r, o = Normal r.
Proof.
  rewrite forallb_forall. split.
  - intros H i o Hn. apply nth_error_In in Hn. apply H in Hn.
    destruct o; [eauto | discriminate].
  - intros H o Hin. apply In_nth_error in Hin as [i Hi].
    destruct (H _ _ Hi) as [r ->]. reflexivity.
Qed.

Section BatchResults.
Variable rev : Revision.
Context {W : Type}.
Variable this : AerostackServer W.
Variables (qs : list BatchQuery) (w : W).

(** The result that [batch] returns. *)
Definition batchResult : BatchResult :=
  {| batch_results := map slotOf (outcomes rev this qs w);
     batch_success := forallb isNormal (outcomes rev this qs w);
     batch_errors := match failures 0 (outcomes rev this qs w) with
                     | [] => None
                     | _ :: _ => Some (failures 0 (outcomes rev this qs w))
                     end |}.

Lemma errorList_batchResult :
  errorList batchResult = failures 0 (outcomes rev this qs w).
Proof.
  unfold errorList, batchResult; cbn [batch_errors].
  now destruct (failures 0 (outcomes rev this qs w)).
Qed.

Lemma batchResult_slot i q :
  nth_error qs i = Some q ->
  nth_error (batch_results batchResult) i
  = Some (slotOf (outcomeAt rev this qs w i q)).
Proof.
  intros H. cbn [batchResult batch_results].
  now rewrite nth_error_map, (nth_error_outcomes rev this qs w i q H).
Qed.

Lemma batchResult_error i e :
  In {| index := i; error := e |} (errorList batchResult) <->
  exists q, nth_error qs i = Some q /\ outcomeAt rev this qs w i q = Throw e.
Proof.
  rewrite errorList_batchResult, In_failures. split.
  - intros (j & -> & H). simpl.
    apply nth_error_outcomes_inv in H as (q & Hq & Ho). eauto.
  - intros (q & Hq & Ho). exists i. split; [reflexivity|].
    now rewrite (nth_error_outcomes rev this qs w i q Hq), Ho.
Qed.

Lemma batchResult_success :
  batch_success batchResult = true <->
  forall i q, nth_error qs i = Some q ->
              exists r, outcomeAt rev this qs w i q = Normal r.
Proof.
  cbn [batchResult batch_success]. rewrite forallb_isNormal. split.
  - intros H i q Hq. apply (H i).
    apply (nth_error_outcomes rev this qs w i q Hq).
  - intros H i o Ho.
    apply nth_error_outcomes_inv in Ho as (q & Hq & ->). now apply H.
Qed.

Lemma batchResult_errors_none :
  batch_errors batchResult = None <-> batch_success batchResult = true.
Proof.
  cbn [batchResult batch_success batch_errors].
  rewrite <- (failures_nil (outcomes rev this qs w) 0).
  destruct (failures 0 (outcomes rev this qs w)); split; congruence.
Qed.

End BatchResults.

(** C5, as stated, fails in its last part.  With no driver at all, [batch]
    does not throw: the connection error of the query is recorded at its
    index like any other failure; on the empty batch nothing fails. *)
Lemma batch_without_driver_counterexample :
  batch Current (server None None []) [{| sql := "SELECT 1"; params := None |}] []
  = (Normal {| batch_results := [failedSlot];
               batch_success := false;
               batch_errors :=
                 Some [{| index := 0;
                          error := ThrownDatabaseError noConnection |}] |},
     []) /\
  batch Legacy (server None None []) [{| sql := "SELECT 1"; params := None |}] []
  = (Normal {| batch_results := [failedSlot];
               batch_success := false;
               batch_errors :=
                 Some [{| index := 0;
                          error := ThrownDatabaseError noConnection |}] |},
     []) /\
  batch Current (server None None []) [] []
  = (Normal {| batch_results := []; batch_success := true;
               batch_errors := None |}, []).
Proof. repeat split. Qed.

(** C5, amended.  [batch] never throws, whatever drivers are configured.
    It runs the queries one after the other in their order, each through
    [routeQuery] in the world left by the ones before it, whether these
    threw or not; it returns one slot for each query, in their order; the
    error list holds an entry [{ index, error }] exactly for the indexes
    whose query threw, one for each; and [success] is true exactly when no
    query threw. *)
Theorem batch_sequential_independent :
  forall (rev : Revision) (W : Type) (this : AerostackServer W)
         (qs : list BatchQuery) (w : W),
  exists res,
    batch rev this qs w = (Normal res, worldAfter rev this qs w) /\
    List.length (batch_results res) = List.length qs /\
    (forall i q, nth_error qs i = Some q ->
                 nth_error (batch_results res) i
                 = Some (slotOf (outcomeAt rev this qs w i q))) /\
    (forall i e,
        In {| index := i; error := e |} (errorList res) <->
        exists q, nth_error qs i = Some q /\
                  outcomeAt rev this qs w i q = Throw e) /\
    NoDup (map index (errorList res)) /\
    (batch_success res = true <->
     forall i q, nth_error qs i = Some q ->
                 exists r, outcomeAt rev this qs w i q = Normal r).
Proof.
  intros rev W this qs w. exists (batchResult rev this qs w).
  split; [apply batch_eq|]. split; [|split; [|split; [|split]]].
  - cbn [batchResult batch_results].
    now rewrite length_map, outcomes_length.
  - apply batchResult_slot.
  - apply batchResult_error.
  - rewrite errorList_batchResult. apply failures_NoDup.
  - apply batchResult_success.
Qed.

Definition threeQueries : list BatchQuery :=
  [{| sql := "SELECT * FROM users"; params := None |};
   {| sql := "SELECT * FROM widgets"; params := Some [JNum 1] |};
   {| sql := "SELECT * FROM orders"; params := None |}].

(** The second of three queries fails; the third is run all the same. *)
Lemma batch_sequential_independent_witness :
  exists res,
    batch Legacy (server None (Some d1Widgets) []) threeQueries []
    = (Normal res, [(d1, "SELECT * FROM users");
                    (d1, "SELECT * FROM widgets");
                    (d1, "SELECT * FROM orders")]) /\
    nth_error (batch_results res) 1 = Some failedSlot /\
    nth_error (batch_results res) 2
    = Some (d1Response {| d1_results := Some [oneRow]; d1_success := true;
                          d1_meta := Some {| d1_duration := Some 2%Z |} |}).
Proof.
  destruct (batch_sequential_independent Legacy _
              (server None (Some d1Widgets) []) threeQueries [])
    as (res & Hb & _ & Hslot & _).
  exists res. split; [exact Hb|]. split.
  - exact (Hslot 1 _ eq_refl).
  - exact (Hslot 2 _ eq_refl).
Defined.

(** C6, as stated, fails.  A query routed to the remote engine that fails
    there leaves a slot whose target is the embedded engine. *)
Lemma failed_slot_target_counterexample :
  determineTarget Current (server (Some pgDown) (Some d1Widgets) [])
    "SELECT 1 /* aerostack:target=postgres */" = postgres /\
  fst (batch Current (server (Some pgDown) (Some d1Widgets) [])
         [{| sql := "SELECT 1 /* aerostack:target=postgres */";
             params := None |}] [])
  = Normal
      {| batch_results :=
           [{| results := []; success := false;
               meta := {| target := d1; rowCount := None; duration := None |} |}];
         batch_success := false;
         batch_errors :=
           Some [{| index := 0;
                    error := ThrownDatabaseError
                      (fromPostgresError
                         (driverError (Some "08006") (Some "connection failure"))
                         (queryContext "SELECT 1 /* aerostack:target=postgres */"
                                       [] postgres)) |}] |}.
Proof. split; reflexivity. Qed.

(** C6, amended.  The slot of a query that threw has no rows,
    [success = false] and the target [d1], whatever engine
    [determineTarget] chose for the query. *)
Theorem failed_slot_shape :
  forall (rev : Revision) (W : Type) (this : AerostackServer W)
         (qs : list BatchQuery) (w : W),
  exists res,
    batch rev this qs w = (Normal res, worldAfter rev this qs w) /\
    forall i q e,
      nth_error qs i = Some q ->
      outcomeAt rev this qs w i q = Throw e ->
      nth_error (batch_results res) i
      = Some {| results := [];
                success := false;
                meta := {| target := d1; rowCount := None; duration := None |} |}.
Proof.
  intros rev W this qs w. exists (batchResult rev this qs w).
  split; [apply batch_eq|].
  intros i q e Hq Ho.
  now rewrite (batchResult_slot rev this qs w i q Hq), Ho.
Qed.

Lemma failed_slot_shape_witness :
  exists res,
    fst (batch Current (server (Some pgDown) (Some d1Widgets) []) threeQueries [])
    = Normal res /\
    nth_error (batch_results res) 0
    = Some {| results := [];
              success := false;
              meta := {| target := d1; rowCount := None; duration := None |} |}.
Proof.
  destruct (failed_slot_shape Current _
              (server (Some pgDown) (Some d1Widgets) []) threeQueries [])
    as (res & Hb & Hslot).
  exists res. split; [now rewrite Hb|].
  exact (Hslot 0 _ _ eq_refl eq_refl).
Defined.

(** C10.  When every query of a batch succeeds, and so for the empty
    batch, the result has [success = true] and no [errors] field; the
    field is present exactly when some query threw, and is never an empty
    list. *)
Theorem batch_errors_absent_on_success :
  forall (rev : Revision) (W : Type) (this : AerostackServer W)
         (qs : list BatchQuery) (w : W),
  exists res,
    batch rev this qs w = (Normal res, worldAfter rev this qs w) /\
    ((forall i q, nth_error qs i = Some q ->
                  exists r, outcomeAt rev this qs w i q = Normal r) ->
     batch_success res = true /\ batch_errors res = None) /\
    (batch_errors res <> None <->
     exists i q e, nth_error qs i = Some q /\
                   outcomeAt rev this qs w i q = Throw e) /\
    batch_errors res <> Some [] /\
    (qs = [] ->
     res = {| batch_results := []; batch_success := true;
              batch_errors := None |}).
Proof.
  intros rev W this qs w. exists (batchResult rev this qs w).
  split; [apply batch_eq|]. split; [|split; [|split]].
  - intros H. apply batchResult_success in H.
    split; [exact H | now apply batchResult_errors_none].
  - split.
    + intros Hne.
      destruct (errorList (batchResult rev this qs w)) as [|[i e] l] eqn:E.
      * exfalso. apply Hne. rewrite errorList_batchResult in E.
        cbn [batchResult batch_errors]. now rewrite E.
      * exists i.
        assert (Hin : In {| index := i; error := e |}
                         (errorList (batchResult rev this qs w)))
          by (rewrite E; now left).
        apply batchResult_error in Hin as (q & Hq & Ho). eauto.
    + intros (i & q & e & Hq & Ho) Hnone.
      apply batchResult_errors_none in Hnone.
      destruct (proj1 (batchResult_success rev this qs w) Hnone i q Hq)
        as [r Hr].
      congruence.
  - cbn [batchResult batch_errors].
    destruct (failures 0 (outcomes rev this qs w)); discriminate.
  - intros ->. reflexivity.
Qed.

Lemma batch_errors_absent_on_success_witness :
  exists res,
    fst (batch Current (server (Some pgOk) (Some d1Widgets) [])
           [{| sql := "SELECT * FROM users"; params := None |};
            {| sql := "SELECT * FROM orders"; params := None |}] [])
    = Normal res /\
    batch_success res = true /\ batch_errors res = None.
Proof.
  destruct (batch_errors_absent_on_success Current _
              (server (Some pgOk) (Some d1Widgets) [])
              [{| sql := "SELECT * FROM users"; params := None |};
               {| sql := "SELECT * FROM orders"; params := None |}] [])
    as (res & Hb & Hok & _).
  exists res. split; [now rewrite Hb|].
  apply Hok. intros [|[|i]] q Hq; simpl in Hq.
  - inversion Hq; subst. eexists; reflexivity.
  - inversion Hq; subst. eexists; reflexivity.
  - destruct i; discriminate.
Defined.

(** ** Schema introspection *)

Section GetSchema.
Context {W : Type}.
Variable this : AerostackServer W.

Lemma introspectPostgres_database w info w' :
  introspectPostgres this w = (Normal info, w') -> database info = postgres.
Proof.
  unfold introspectPostgres.
  destruct (pgPool this) as [pool|]; [|discriminate].
  unfold bind, await, ret.
  destruct (pool_query pool _ [] w) as [[e|result] w1]; [discriminate|].
  destruct (pgTables pool (rows result) [] w1) as [[tbls|e] w2];
    intros H; inversion H; reflexivity.
Qed.

Lemma introspectD1_database w info w' :
  introspectD1 this w = (Normal info, w') -> database info = d1.
Proof.
  unfold introspectD1.
  destruct (_d1 this) as [db|]; [|discriminate].
  unfold bind, await, ret.
  destruct (prepare_bind_all db _ [] w) as [[e|result] w1]; [discriminate|].
  destruct (definedRows _ (d1_results result) w1) as [[rs|e] w2];
    [|discriminate].
  destruct (d1Tables db rs [] w2) as [[tbls|e] w3];
    intros H; inversion H; reflexivity.
Qed.

End GetSchema.

(** Drivers that answer the catalog queries of the two introspections. *)
Definition d1Catalog : D1Database Trace :=
  fakeD1 (fun sql =>
            if includes sql "sqlite_master"
            then inr {| d1_results := Some [[("name", JStr "users")]];
                        d1_success := true; d1_meta := None |}
            else inr {| d1_results :=
                          Some [[("name", JStr "id"); ("type", JStr "INTEGER");
                                 ("notnull", JNum 1); ("dflt_value", JNull);
                                 ("pk", JNum 1)]];
                        d1_success := true; d1_meta := None |}).

Definition pgCatalog : Pool Trace :=
  fakePool (fun sql =>
              if includes sql "information_schema.tables"
              then inr {| rows := [[("table_name", JStr "orders")]];
                          pg_rowCount := Some 1%Z |}
              else inr {| rows := [[("column_name", JStr "total");
                                    ("data_type", JStr "numeric");
                                    ("is_nullable", JStr "YES");
                                    ("column_default", JNull)]];
                          pg_rowCount := Some 1%Z |}).

(** C9, as stated, fails.  In the first listing [getSchema()] without a
    binding introspects the embedded engine although the remote pool is
    configured; no field of the router names a preference. *)
Lemma getSchema_default_counterexample :
  pgPool (server (Some pgCatalog) (Some d1Catalog) []) = Some pgCatalog /\
  fst (getSchema Legacy (server (Some pgCatalog) (Some d1Catalog) []) None [])
  = Normal
      {| schema_tables :=
           [{| tbl_name := JStr "users";
               columns := [{| col_name := JStr "id";
                              col_type := JStr "INTEGER";
                              nullable := false;
                              defaultValue := JNull;
                              isPrimaryKey := Some true |}];
               tbl_database := d1 |}];
         database := d1 |}.
Proof. split; reflexivity. Qed.

(** C9, amended.  With a non-empty binding that names the remote family
    (its lower-cased text holds [postgres] or, in the second listing,
    [pg]) and a configured remote pool, [getSchema] introspects the remote
    engine; with any other non-empty binding it introspects the embedded
    engine when that one is configured.  Without a binding, or with an
    empty one, the order is fixed by the code: the second listing takes
    the remote engine when configured and the embedded one otherwise, the
    first listing the embedded engine when configured and the remote one
    otherwise.  With neither engine configured [getSchema] throws, for
    every binding and before anything is called, a [DatabaseError] of code
    [DB_CONNECTION_FAILED] with the message [No database connection
    available]. *)
Theorem getSchema_selection :
  forall (rev : Revision) (W : Type) (this : AerostackServer W) (w : W),
    (forall b pool,
        b <> "" -> isPg rev b = true -> pgPool this = Some pool ->
        getSchema rev this (Some b) w = introspectPostgres this w) /\
    (forall b db,
        b <> "" -> isPg rev b = false \/ pgPool this = None ->
        _d1 this = Some db ->
        getSchema rev this (Some b) w = introspectD1 this w) /\
    (forall binding,
        binding = None \/ binding = Some "" ->
        getSchema rev this binding w =
        match rev with
        | Current =>
            match pgPool this, _d1 this with
            | Some _, _ => introspectPostgres this w
            | None, Some _ => introspectD1 this w
            | None, None => (Throw (ThrownDatabaseError noConnection), w)
            end
        | Legacy =>
            match _d1 this, pgPool this with
            | Some _, _ => introspectD1 this w
            | None, Some _ => introspectPostgres this w
            | None, None => (Throw (ThrownDatabaseError noConnection), w)
            end
        end) /\
    (forall binding,
        pgPool this = None -> _d1 this = None ->
        exists e,
          getSchema rev this binding w = (Throw (ThrownDatabaseError e), w) /\
          code e = DB_CONNECTION_FAILED /\
          message e = "No database connection available" /\
          context e = None) /\
    (forall info w',
        introspectPostgres this w = (Normal info, w') ->
        database info = postgres) /\
    (forall info w',
        introspectD1 this w = (Normal info, w') -> database info = d1).
Proof.
  intros rev W this w. repeat apply conj.
  - intros [|c b] pool Hb Hpg Hp; [congruence|].
    unfold getSchema. now rewrite Hp, Hpg.
  - intros [|c b] db Hb Hn Hd; [congruence|].
    unfold getSchema. rewrite Hd.
    destruct Hn as [-> | ->]; [now destruct (pgPool this) | reflexivity].
  - intros binding Hb.
    assert (E : getSchema rev this binding = defaultSchema rev this)
      by (destruct Hb as [-> | ->]; reflexivity).
    rewrite E. unfold defaultSchema, noConnectionError, throw.
    destruct rev; destruct (pgPool this), (_d1 this); reflexivity.
  - intros binding Hp Hd. exists noConnection.
    unfold getSchema, defaultSchema, noConnectionError, throw.
    rewrite Hp, Hd.
    destruct binding as [[|c b]|], rev; repeat split.
  - apply introspectPostgres_database.
  - apply introspectD1_database.
Qed.

Lemma getSchema_selection_witness :
  getSchema Current (server (Some pgCatalog) (Some d1Catalog) [])
            (Some "MY_PG_DB") []
  = introspectPostgres (server (Some pgCatalog) (Some d1Catalog) []) [] /\
  getSchema Legacy (server (Some pgCatalog) (Some d1Catalog) [])
            (Some "MY_PG_DB") []
  = introspectD1 (server (Some pgCatalog) (Some d1Catalog) []) [] /\
  (exists e,
     getSchema Current (server None None []) (Some "DB") ([] : Trace)
     = (Throw (ThrownDatabaseError e), []) /\
     code e = DB_CONNECTION_FAILED /\
     message e = "No database connection available" /\
     context e = None).
Proof.
  repeat apply conj.
  - apply (proj1 (getSchema_selection Current _
                    (server (Some pgCatalog) (Some d1Catalog) []) [])
             "MY_PG_DB" pgCatalog); [discriminate | reflexivity | reflexivity].
  - apply (proj1 (proj2 (getSchema_selection Legacy _
                    (server (Some pgCatalog) (Some d1Catalog) []) []))
             "MY_PG_DB" d1Catalog); [discriminate | left; reflexivity | reflexivity].
  - apply (proj1 (proj2 (proj2 (proj2 (getSchema_selection Current _
                    (server None None []) []))))); reflexivity.
Defined.

(** * The rest of the server

    The operations of [AerostackServer] and of the files next to it that
    the router does not go through: the discovery of the connection
    string, the storage keys, the cache, and the schema introspection
    seen from its callers. *)

(** ** More string operations *)

Module JsStringMore.

(** [String.prototype.endsWith]: some suffix of [s] is [suffix]. *)
Fixpoint endsWith (s suffix : string) : bool :=
  String.eqb s suffix ||
  match s with
  | EmptyString => false
  | String _ s' => endsWith s' suffix
  end.

(** [s.slice(1)]. *)
Definition slice1 (s : string) : string :=
  match s with
  | EmptyString => EmptyString
  | String _ s' => s'
  end.

(** Truthiness of an optional string and of a value. *)
Definition truthyString (x : option string) : bool :=
  match x with
  | Some (String _ _) => true
  | _ => false
  end.

Definition truthy (v : JsValue) : bool :=
  match v with
  | JUndefined | JNull => false
  | JBool b => b
  | JNum n => negb (n =? 0)%Z
  | JStr s => negb (String.eqb s "")
  end.

End JsStringMore.

Import JsStringMore.

Lemma endsWith_iff (s suffix : string) :
  endsWith s suffix = true <-> exists pre, s = pre ++ suffix.
Proof.
  induction s as [|c s IH].
  - change (endsWith "" suffix) with (String.eqb "" suffix || false).
    rewrite orb_false_r, String.eqb_eq. split.
    + intros <-. now exists "".
    + intros [[|c pre] H]; simpl in H; [now subst | discriminate].
  - change (endsWith (String c s) suffix)
      with (String.eqb (String c s) suffix || endsWith s suffix).
    rewrite orb_true_iff, String.eqb_eq, IH. split.
    + intros [<- | [pre ->]]; [now exists "" | now exists (String c pre)].
    + intros [[|c' pre] H]; simpl in H.
      * left. now subst.
      * right. inversion H; subst. now exists pre.
Qed.

Lemma startsWith_iff (s p : string) :
  startsWith s p = true <-> exists rest, s = p ++ rest.
Proof.
  split; [apply startsWith_split|].
  intros [rest ->]. apply startsWith_app.
Qed.

Lemma find_ext_in {A : Type} (f g : A -> bool) (l : list A) :
  (forall x, In x l -> f x = g x) -> find f l = find g l.
Proof.
  induction l as [|a l IH]; intros H; [reflexivity|].
  simpl. rewrite (H a) by now left.
  destruct (g a); [reflexivity|]. apply IH. intros x Hx. apply H. now right.
Qed.

(** ** Discovery of the remote connection string *)

(** A key under which the environment may hold a connection string. *)
Definition isUrlKey (rev : Revision) (key : string) : bool :=
  match rev with
  | Legacy => endsWith key "_DATABASE_URL"
  | Current => String.eqb key "DATABASE_URL" || endsWith key "_DATABASE_URL"
  end.

Definition isHyperdriveKey (key : string) : bool :=
  startsWith key "CLOUDFLARE_HYPERDRIVE_LOCAL_CONNECTION_STRING_".

(** [findPostgresConnStr(env)]: the value [entry[1]] of the entry found,
    whatever it is; [None] stands for the [undefined] returned when no
    entry is found. *)
Definition findPostgresConnStr {V : Type} (rev : Revision) (env : JsObject V)
  : option V :=
  match find (fun kv => isUrlKey rev (fst kv)) (JsObj.entries env) with
  | Some entry => Some (snd entry)
  | None =>
      match rev with
      | Legacy => None
      | Current =>
          match find (fun kv => isHyperdriveKey (fst kv)) (JsObj.entries env) with
          | Some entry => Some (snd entry)
          | None => None
          end
      end
  end.

(** What the environment holds under a key: a plain value, the embedded
    database, or another binding. *)
Inductive EnvValue (W : Type) : Type :=
| EnvPlain (v : JsValue)
| EnvD1 (db : D1Database W)
| EnvBinding.

Arguments EnvPlain {W} v.
Arguments EnvD1 {W} db.
Arguments EnvBinding {W}.

Definition truthyEnv {W : Type} (v : EnvValue W) : bool :=
  match v with
  | EnvPlain p => truthy p
  | EnvD1 _ | EnvBinding => true
  end.

(** What [this._d1] is when [env.DB] holds a truthy value that is not a
    D1 database: the call of [prepare] throws a [TypeError] and nothing
    else happens. *)
Definition notADatabase {W : Type} : D1Database W :=
  {| prepare_bind_all := fun _ _ w =>
       (inl {| err_code := None;
               err_message := Some "this._d1.prepare is not a function";
               err_table := None; err_column := None |}, w) |}.

(** [new AerostackServer(env, options)], as far as the router goes, once
    [initPostgres] has run.  [connect] stands for [new Pool({ connectionString })]
    of the driver package; in the second listing the package is imported
    on demand and [driverLoads] tells whether that import succeeds.
    [env.DB] is stored as it is: a falsy value counts as no database in
    every test [if (this._d1)]. *)
Definition construct {W : Type} (rev : Revision)
  (connect : EnvValue W -> Pool W) (driverLoads : bool)
  (env : JsObject (EnvValue W)) (routing : option RoutingRules)
  : AerostackServer W :=
  {| pgPool :=
       match findPostgresConnStr rev env with
       | Some pgConnStr =>
           if truthyEnv pgConnStr
           then match rev with
                | Legacy => Some (connect pgConnStr)
                | Current => if driverLoads then Some (connect pgConnStr)
                             else None
                end
           else None
       | None => None
       end;
     _d1 := match JsObj.get env "DB" with
            | Some (EnvD1 db) => Some db
            | Some other => if truthyEnv other then Some notADatabase else None
            | None => None
            end;
     routingRules := match routing with
                     | Some r => r
                     | None => {| tables := [] |}
                     end |}.

Section ConnStr.
Variable V : Type.
Implicit Types (env : JsObject V) (kv : string * V).

Lemma find_entries_none (f : string -> bool) env :
  find (fun kv => f (fst kv)) (JsObj.entries env) = None <->
  forall kv, In kv env -> f (fst kv) = false.
Proof.
  split.
  - intros H kv Hin. apply (proj2 (In_entries V env kv)) in Hin.
    exact (find_none _ _ H kv Hin).
  - intros H.
    destruct (find (fun kv => f (fst kv)) (JsObj.entries env)) as [kv|] eqn:E;
      [|reflexivity].
    apply find_some in E as [Hin Hf].
    apply (proj1 (In_entries V env kv)) in Hin.
    rewrite (H kv Hin) in Hf. discriminate.
Qed.

Lemma find_entries_some (f : string -> bool) env kv :
  find (fun kv => f (fst kv)) (JsObj.entries env) = Some kv ->
  In kv env /\ f (fst kv) = true.
Proof.
  intros H. apply find_some in H as [Hin Hf]. split; [|exact Hf].
  now apply (proj1 (In_entries V env kv)).
Qed.

End ConnStr.

(** A key that [findPostgresConnStr] looks for. *)
Definition qualifies (rev : Revision) (key : string) : bool :=
  isUrlKey rev key
  || match rev with
     | Legacy => false
     | Current => isHyperdriveKey key
     end.

(** The value that [findPostgresConnStr] returns: the value of the entry
    found, [undefined] when there is none. *)
Definition returned {W : Type} (found : option (EnvValue W)) : EnvValue W :=
  match found with
  | Some v => v
  | None => EnvPlain JUndefined
  end.

Lemma findPostgresConnStr_found (V : Type) (rev : Revision) (env : JsObject V) :
  match findPostgresConnStr rev env with
  | Some v => exists k, In (k, v) env /\ qualifies rev k = true
  | None => forall kv, In kv env -> qualifies rev (fst kv) = false
  end.
Proof.
  unfold findPostgresConnStr, qualifies.
  destruct (find (fun kv => isUrlKey rev (fst kv)) (JsObj.entries env))
    as [[k v]|] eqn:E1.
  - apply find_entries_some in E1 as [Hin Hk]. cbn [fst snd] in *.
    exists k. split; [exact Hin|]. now rewrite Hk.
  - pose proof (proj1 (find_entries_none V _ env) E1) as H1.
    destruct rev.
    + intros kv Hin. rewrite (H1 kv Hin). reflexivity.
    + destruct (find (fun kv => isHyperdriveKey (fst kv)) (JsObj.entries env))
        as [[k v]|] eqn:E2.
      * apply find_entries_some in E2 as [Hin Hk]. cbn [fst snd] in *.
        exists k. split; [exact Hin|]. rewrite Hk. apply orb_true_r.
      * pose proof (proj1 (find_entries_none V _ env) E2) as H2.
        intros kv Hin. now rewrite (H1 kv Hin), (H2 kv Hin).
Qed.

(** X1.  [findPostgresConnStr] returns [undefined] whenever no key of the
    environment qualifies, whatever the order of the keys: in the first
    listing when no key ends with [_DATABASE_URL]; in the second when,
    besides, no key is [DATABASE_URL] and none starts with the Hyperdrive
    prefix.  What it returns otherwise is the value held under a key that
    qualifies, which may itself be [undefined]: so a value other than
    [undefined] always comes from such a key, and in an environment whose
    qualifying keys all hold a value other than [undefined] the result is
    [undefined] exactly when no key qualifies. *)
Theorem findPostgresConnStr_none :
  forall (rev : Revision) (W : Type) (env : JsObject (EnvValue W)),
    let result := returned (findPostgresConnStr rev env) in
    (forall k, qualifies rev k = true <->
       match rev with
       | Legacy => endsWith k "_DATABASE_URL" = true
       | Current =>
           k = "DATABASE_URL" \/ endsWith k "_DATABASE_URL" = true \/
           startsWith k "CLOUDFLARE_HYPERDRIVE_LOCAL_CONNECTION_STRING_" = true
       end) /\
    ((forall kv, In kv env -> qualifies rev (fst kv) = false) ->
     result = EnvPlain JUndefined) /\
    (result <> EnvPlain JUndefined ->
     exists k, In (k, result) env /\ qualifies rev k = true) /\
    ((forall kv, In kv env -> qualifies rev (fst kv) = true ->
                 snd kv <> EnvPlain JUndefined) ->
     (result = EnvPlain JUndefined <->
      forall kv, In kv env -> qualifies rev (fst kv) = false)).
Proof.
  intros rev W env result. subst result.
  pose proof (findPostgresConnStr_found (EnvValue W) rev env) as Hfound.
  repeat apply conj.
  - intros k. unfold qualifies, isUrlKey, isHyperdriveKey.
    destruct rev.
    + now rewrite orb_false_r.
    + rewrite !orb_true_iff, String.eqb_eq. tauto.
  - intros Hnone.
    destruct (findPostgresConnStr rev env) as [v|]; [|reflexivity].
    destruct Hfound as (k & Hin & Hk).
    pose proof (Hnone (k, v) Hin) as Hq. cbn [fst] in Hq. congruence.
  - intros Hdef.
    destruct (findPostgresConnStr rev env) as [v|]; [|now contradiction Hdef].
    exact Hfound.
  - intros Hheld. split.
    + intros Hundef.
      destruct (findPostgresConnStr rev env) as [v|]; [|exact Hfound].
      destruct Hfound as (k & Hin & Hk). cbn [returned] in Hundef.
      exfalso. exact (Hheld (k, v) Hin Hk Hundef).
    + intros Hnone.
      destruct (findPostgresConnStr rev env) as [v|]; [|reflexivity].
      destruct Hfound as (k & Hin & Hk).
      pose proof (Hnone (k, v) Hin) as Hq. cbn [fst] in Hq. congruence.
Qed.

(** [DATABASE_URL] alone does not qualify in the first listing. *)
Lemma findPostgresConnStr_none_witness :
  returned (findPostgresConnStr Legacy
              [("DATABASE_URL", EnvPlain (JStr "postgres://db") : EnvValue Trace)])
  = EnvPlain JUndefined.
Proof.
  apply (proj1 (proj2 (findPostgresConnStr_none Legacy Trace
                         [("DATABASE_URL", EnvPlain (JStr "postgres://db"))]))).
  intros kv [<- | []]. reflexivity.
Defined.

(** X2.  What the first listing finds, the second finds too: whenever the
    first listing finds a connection string, the second finds one, and the
    same one unless some key is exactly [DATABASE_URL]. *)
Theorem findPostgresConnStr_legacy_current :
  forall (V : Type) (env : JsObject V) (v : V),
    findPostgresConnStr Legacy env = Some v ->
    (exists v', findPostgresConnStr Current env = Some v') /\
    ((forall kv, In kv env -> fst kv <> "DATABASE_URL") ->
     findPostgresConnStr Current env = Some v).
Proof.
  intros V env v H. unfold findPostgresConnStr in *.
  destruct (find (fun kv => isUrlKey Legacy (fst kv)) (JsObj.entries env))
    as [kv|] eqn:E; [|discriminate].
  injection H as <-. split.
  - destruct (find (fun kv => isUrlKey Current (fst kv)) (JsObj.entries env))
      as [kv'|] eqn:E'; [eauto|].
    exfalso. apply find_some in E as [Hin Hk].
    pose proof (find_none _ _ E' kv Hin) as Hn. simpl in Hk, Hn.
    rewrite Hk, orb_true_r in Hn. discriminate.
  - intros Hno.
    rewrite <- (find_ext_in (fun kv => isUrlKey Legacy (fst kv))).
    + now rewrite E.
    + intros x Hx. apply (proj1 (In_entries V env x)) in Hx. simpl.
      destruct (String.eqb (fst x) "DATABASE_URL") eqn:Ex; [|reflexivity].
      apply String.eqb_eq in Ex. now apply Hno in Hx.
Qed.

Lemma findPostgresConnStr_legacy_current_witness :
  findPostgresConnStr Current
    [("CLOUDFLARE_HYPERDRIVE_LOCAL_CONNECTION_STRING_HD", JStr "postgres://hd");
     ("NEON_DATABASE_URL", JStr "postgres://neon")]
  = Some (JStr "postgres://neon").
Proof.
  apply (findPostgresConnStr_legacy_current JsValue
           [("CLOUDFLARE_HYPERDRIVE_LOCAL_CONNECTION_STRING_HD", JStr "postgres://hd");
            ("NEON_DATABASE_URL", JStr "postgres://neon")]
           (JStr "postgres://neon") eq_refl).
  intros kv [<- | [<- | []]]; discriminate.
Defined.

(** X3.  In the second listing an entry under [DATABASE_URL] or
    [*_DATABASE_URL] always wins over the Hyperdrive entries, wherever it
    stands in the environment; when the value under every such key is
    falsy the server gets no remote pool, even if a Hyperdrive connection
    string is present. *)
Theorem findPostgresConnStr_url_key_first :
  forall (W : Type) (env : JsObject (EnvValue W)) (k : string) (v0 : EnvValue W),
    In (k, v0) env ->
    isUrlKey Current k = true ->
    (exists k' v, findPostgresConnStr Current env = Some v /\
                  In (k', v) env /\ isUrlKey Current k' = true) /\
    ((forall kv, In kv env -> isUrlKey Current (fst kv) = true ->
                 truthyEnv (snd kv) = false) ->
     forall connect driverLoads routing,
       pgPool (construct Current connect driverLoads env routing) = None).
Proof.
  intros W env k v0 Hin Hk.
  assert (Hfound : exists kv,
             find (fun kv => isUrlKey Current (fst kv)) (JsObj.entries env)
             = Some kv).
  { destruct (find (fun kv => isUrlKey Current (fst kv)) (JsObj.entries env))
      as [kv|] eqn:E; [eauto|].
    apply (proj2 (In_entries _ env (k, v0))) in Hin.
    pose proof (find_none _ _ E _ Hin) as Hn. simpl in Hn, Hk. congruence. }
  destruct Hfound as [[k' v] E].
  pose proof (find_entries_some _ (isUrlKey Current) env (k', v) E) as [Hin' Hk'].
  split.
  - exists k', v. unfold findPostgresConnStr. rewrite E. auto.
  - intros Hfalsy connect driverLoads routing.
    unfold construct, findPostgresConnStr; cbn [pgPool]. rewrite E.
    pose proof (Hfalsy (k', v) Hin' Hk') as Hf. cbn [snd] in Hf |- *.
    now rewrite Hf.
Qed.

Lemma findPostgresConnStr_url_key_first_witness :
  pgPool (construct Current (fun _ : EnvValue Trace => pgOk) true
            [("CLOUDFLARE_HYPERDRIVE_LOCAL_CONNECTION_STRING_HD",
              EnvPlain (JStr "postgres://hd"));
             ("DATABASE_URL", EnvPlain (JStr ""))] None) = None.
Proof.
  apply (proj2 (findPostgresConnStr_url_key_first Trace
                  [("CLOUDFLARE_HYPERDRIVE_LOCAL_CONNECTION_STRING_HD",
                    EnvPlain (JStr "postgres://hd"));
                   ("DATABASE_URL", EnvPlain (JStr ""))]
                  "DATABASE_URL" (EnvPlain (JStr ""))
                  (or_intror (or_introl eq_refl)) eq_refl)).
  intros kv [<- | [<- | []]]; [discriminate | reflexivity].
Defined.

(** X4.  A server built from an environment in which the search finds no
    connection string has no remote pool: every statement, also one that
    carries the remote hint, goes to [env.DB].  When that is a D1
    database the statement is run on it; when it is missing or falsy the
    call fails with the [DatabaseError] of code [DB_CONNECTION_FAILED],
    the world left as it was; when it is a truthy value that is no
    database the call of [prepare] fails and the error thrown is the
    translated [TypeError], of code [DB_QUERY_FAILED] and with the
    context of the query.  With a truthy connection string (and, in the
    second listing, the driver package loaded) the pool is the one
    opened on that string. *)
Theorem construct_without_connection_string :
  forall (rev : Revision) (W : Type) (connect : EnvValue W -> Pool W)
         (driverLoads : bool) (env : JsObject (EnvValue W))
         (routing : option RoutingRules),
    (findPostgresConnStr rev env = None ->
     forall sql params w,
       let call :=
         routeQuery rev (construct rev connect driverLoads env routing)
                    sql params w in
       (forall db, JsObj.get env "DB" = Some (EnvD1 db) ->
          call = match prepare_bind_all db sql params w with
                 | (inr result, w') => (Normal (d1Response result), w')
                 | (inl e, w') =>
                     (Throw (ThrownDatabaseError
                               (fromD1Error e (queryContext sql params d1))), w')
                 end) /\
       (JsObj.get env "DB" = None \/
        (exists v, JsObj.get env "DB" = Some v /\ truthyEnv v = false) ->
          exists e,
            call = (Throw (ThrownDatabaseError e), w) /\
            code e = DB_CONNECTION_FAILED /\
            message e = "No database connection available" /\
            context e = None) /\
       (forall v, JsObj.get env "DB" = Some v -> truthyEnv v = true ->
          (forall db, v <> EnvD1 db) ->
          exists e,
            call = (Throw (ThrownDatabaseError e), w) /\
            code e = DB_QUERY_FAILED /\
            context e = queryContext sql params d1 /\
            (exists d, details e = Some d /\
               cause d = Some "this._d1.prepare is not a function"))) /\
    (forall v, findPostgresConnStr rev env = Some v ->
               truthyEnv v = true ->
               (rev = Current -> driverLoads = true) ->
               pgPool (construct rev connect driverLoads env routing)
               = Some (connect v)).
Proof.
  intros rev W connect driverLoads env routing. split.
  - intros Hnone sql params w call. subst call.
    set (srv := construct rev connect driverLoads env routing).
    assert (Hp : pgPool srv = None)
      by (unfold srv, construct; cbn [pgPool]; now rewrite Hnone).
    assert (Hn : notRemote rev srv sql) by (right; exact Hp).
    assert (Hno : _d1 srv = None ->
                  exists e,
                    routeQuery rev srv sql params w
                    = (Throw (ThrownDatabaseError e), w) /\
                    code e = DB_CONNECTION_FAILED /\
                    message e = "No database connection available" /\
                    context e = None).
    { intros Hd. exists noConnection.
      rewrite (routeQuery_no_driver rev srv sql params w Hn Hd).
      repeat split. }
    repeat apply conj.
    + intros db Hdb. apply routeQuery_d1; [exact Hn|].
      unfold srv, construct; cbn [_d1]. now rewrite Hdb.
    + intros [Hdb | (v & Hdb & Hv)]; apply Hno;
        unfold srv, construct; cbn [_d1]; rewrite Hdb; [reflexivity|].
      destruct v as [p|db|]; [now rewrite Hv | discriminate | discriminate].
    + intros v Hdb Hv Hnot.
      assert (Hd : _d1 srv = Some notADatabase).
      { unfold srv, construct; cbn [_d1]. rewrite Hdb.
        destruct v as [p|db|]; [now rewrite Hv | now contradiction (Hnot db)
                                | reflexivity]. }
      rewrite (routeQuery_d1 rev srv sql params w notADatabase Hn Hd).
      cbn [notADatabase prepare_bind_all]. eexists. split; [reflexivity|].
      split; [reflexivity|]. split; [apply fromD1Error_context|].
      eexists. split; reflexivity.
  - intros v Hv Ht Hload. unfold construct; cbn [pgPool].
    rewrite Hv, Ht. destruct rev; [reflexivity|].
    now rewrite Hload.
Qed.

(** An environment that names its connection string [DATABASE_URL] gives
    the first listing no pool: the remote hint is served by D1. *)
Lemma construct_without_connection_string_witness :
  routeQuery Legacy
    (construct Legacy (fun _ : EnvValue Trace => pgOk) true
       [("DB", EnvD1 d1Widgets);
        ("DATABASE_URL", EnvPlain (JStr "postgres://db"))] None)
    "SELECT 1 /* aerostack:target=postgres */" [] []
  = (Normal (d1Response {| d1_results := Some [oneRow]; d1_success := true;
                           d1_meta := Some {| d1_duration := Some 2%Z |} |}),
     [(d1, "SELECT 1 /* aerostack:target=postgres */")]).
Proof.
  rewrite (proj1 (proj1 (construct_without_connection_string Legacy Trace
                           (fun _ => pgOk) true
                           [("DB", EnvD1 d1Widgets);
                            ("DATABASE_URL", EnvPlain (JStr "postgres://db"))]
                           None)
                    eq_refl "SELECT 1 /* aerostack:target=postgres */" [] [])
             d1Widgets eq_refl).
  reflexivity.
Defined.

(** ** Errors of the other facades

    [CacheError], [StorageError] and their like are [ServerError]s told
    apart by their [name]; the context is the object literal passed to the
    constructor. *)
Record ServerError : Type := {
  se_name : string;
  se_code : ErrorCode;
  se_message : string;
  se_details : option ErrorDetails;
  se_context : option (JsObject JsValue)
}.

Definition optionValue (x : option string) : JsValue :=
  match x with
  | Some s => JStr s
  | None => JUndefined
  end.

(** ** Storage (second listing) *)

(** An object of the bucket, as far as the server reads it:
    [obj.httpMetadata?.contentType] is flattened to one optional field. *)
Record R2Object : Type := {
  r2_key : string;
  r2_size : Z;
  r2_uploaded : JsValue;
  r2_contentType : option string
}.

Record R2PutOptions : Type := {
  put_contentType : option string;
  put_cacheControl : option string;
  put_customMetadata : option (JsObject string)
}.

(** The bucket binding: [put], [get], [delete] and [list({ prefix })]. *)
Record R2Bucket (W : Type) : Type := {
  r2_put : string -> JsValue -> R2PutOptions -> W -> (DriverError + unit) * W;
  r2_get : string -> W -> (DriverError + option R2Object) * W;
  r2_delete : string -> W -> (DriverError + unit) * W;
  r2_list : option string -> W -> (DriverError + list R2Object) * W
}.

Arguments r2_put {W} _ _ _ _ _.
Arguments r2_get {W} _ _ _.
Arguments r2_delete {W} _ _ _.
Arguments r2_list {W} _ _ _.

Record UploadOptions : Type := {
  up_contentType : option string;
  up_metadata : option (JsObject string);
  up_cacheControl : option string
}.

Record UploadResult : Type := {
  res_key : string;
  res_url : string;
  res_size : Z;
  res_contentType : string
}.

Record StorageObject : Type := {
  so_key : string;
  so_size : Z;
  so_uploaded : JsValue;
  so_contentType : option string
}.

(** The fields of the server that the storage facade reads. *)
Record StorageHost (W : Type) : Type := {
  _storage : option (R2Bucket W);
  _projectId : option string;
  STORAGE_PUBLIC_URL : option string
}.

Arguments _storage {W} _.
Arguments _projectId {W} _.
Arguments STORAGE_PUBLIC_URL {W} _.

(** [resolveKey(key)]: the key under the media folder of the project. *)
Definition resolveKey (projectId : option string) (key : string) : string :=
  match projectId with
  | Some (String _ _ as id) =>
      if negb (startsWith key "projects/") then
        (* Ensure no leading slash *)
        let cleanKey := if startsWith key "/" then slice1 key else key in
        "projects/" ++ id ++ "/media/" ++ cleanKey
      else key
  | _ => key
  end.

Definition storageNotConfigured : ServerError :=
  {| se_name := "StorageError";
     se_code := STORAGE_NOT_CONFIGURED;
     se_message := "R2 storage not configured";
     se_details := Some {| suggestion := Some "Add [[r2_buckets]] binding to aerostack.toml";
                           recoveryAction := None; field := None;
                           cause := None |};
     se_context := None |}.

Definition publicUrl {W : Type} (this : StorageHost W) (resolvedKey : string)
  : string :=
  "https://" ++ orElse (STORAGE_PUBLIC_URL this) "storage.aerostack.ai"
  ++ "/" ++ resolvedKey.

Section Storage.
Context {W : Type}.
Variable this : StorageHost W.

(** [storage.getUrl(key)]. *)
Definition storage_getUrl (key : string) : W -> (ServerError + string) * W :=
  fun w =>
    match _storage this with
    | None => (inl storageNotConfigured, w)
    | Some _ => (inr (publicUrl this (resolveKey (_projectId this) key)), w)
    end.

Definition uploadFailed (key : string) (err : DriverError) : ServerError :=
  {| se_name := "StorageError";
     se_code := STORAGE_UPLOAD_FAILED;
     se_message := "Failed to upload file: " ++ resolveKey (_projectId this) key;
     se_details := Some {| suggestion := Some "Check R2 bucket binding and file size limits";
                           recoveryAction := None; field := None;
                           cause := err_message err |};
     se_context := Some [("key", JStr key)] |}.

(** [storage.upload(file, key, options)]: [options] is [None] when the
    argument is left out. *)
Definition storage_upload (file : JsValue) (key : string)
  (options : option UploadOptions) : W -> (ServerError + UploadResult) * W :=
  fun w =>
    match _storage this with
    | None => (inl storageNotConfigured, w)
    | Some bucket =>
        let resolvedKey := resolveKey (_projectId this) key in
        let contentType := match options with
                           | Some o => up_contentType o
                           | None => None
                           end in
        match r2_put bucket resolvedKey file
                {| put_contentType := contentType;
                   put_cacheControl := match options with
                                       | Some o => up_cacheControl o
                                       | None => None
                                       end;
                   put_customMetadata := match options with
                                         | Some o => up_metadata o
                                         | None => None
                                         end |} w with
        | (inl err, w1) => (inl (uploadFailed key err), w1)
        | (inr tt, w1) =>
            match r2_get bucket resolvedKey w1 with
            | (inl err, w2) => (inl (uploadFailed key err), w2)
            | (inr obj, w2) =>
                (inr {| res_key := resolvedKey;
                        res_url := publicUrl this resolvedKey;
                        res_size := match obj with
                                    | Some o => r2_size o
                                    | None => 0%Z
                                    end;
                        res_contentType :=
                          orElse contentType "application/octet-stream" |},
                 w2)
            end
        end
    end.

(** [storage.delete(key)]. *)
Definition storage_delete (key : string) : W -> (ServerError + unit) * W :=
  fun w =>
    match _storage this with
    | None => (inl storageNotConfigured, w)
    | Some bucket =>
        let resolvedKey := resolveKey (_projectId this) key in
        match r2_delete bucket resolvedKey w with
        | (inr tt, w1) => (inr tt, w1)
        | (inl err, w1) =>
            (inl {| se_name := "StorageError";
                    se_code := STORAGE_DELETE_FAILED;
                    se_message := "Failed to delete file: " ++ resolvedKey;
                    se_details := Some {| suggestion := None;
                                          recoveryAction := None; field := None;
                                          cause := err_message err |};
                    se_context := Some [("key", JStr key)] |}, w1)
        end
    end.

(** The prefix that [storage.list(prefix)] hands to the bucket. *)
Definition listPrefix (prefix : option string) : option string :=
  match prefix with
  | Some (String _ _ as p) => Some (resolveKey (_projectId this) p)
  | _ =>
      match _projectId this with
      | Some (String _ _ as id) => Some ("projects/" ++ id ++ "/media/")
      | _ => None
      end
  end.

(** [storage.list(prefix)]. *)
Definition storage_list (prefix : option string)
  : W -> (ServerError + list StorageObject) * W :=
  fun w =>
    match _storage this with
    | None => (inl storageNotConfigured, w)
    | Some bucket =>
        match r2_list bucket (listPrefix prefix) w with
        | (inr objects, w1) =>
            (inr (map (fun obj => {| so_key := r2_key obj;
                                     so_size := r2_size obj;
                                     so_uploaded := r2_uploaded obj;
                                     so_contentType := r2_contentType obj |})
                      objects), w1)
        | (inl err, w1) =>
            (inl {| se_name := "StorageError";
                    se_code := STORAGE_DELETE_FAILED;
                    se_message := "Failed to list storage objects";
                    se_details := Some {| suggestion := None;
                                          recoveryAction := None; field := None;
                                          cause := err_message err |};
                    se_context := Some [("prefix", optionValue prefix)] |}, w1)
        end
    end.

End Storage.

(** X5.  [resolveKey] is idempotent.  With a project id its result always
    lies under [projects/]; a key that already starts with [projects/] is
    left as it is, whatever project it names; without a project id every
    key is left as it is. *)
Theorem resolveKey_idempotent :
  forall (projectId : option string) (key : string),
    resolveKey projectId (resolveKey projectId key) = resolveKey projectId key /\
    (truthyString projectId = true ->
     startsWith (resolveKey projectId key) "projects/" = true) /\
    (startsWith key "projects/" = true -> resolveKey projectId key = key) /\
    (truthyString projectId = false -> resolveKey projectId key = key).
Proof.
  intros projectId key.
  assert (Hunder : forall id rest,
             startsWith ("projects/" ++ id ++ rest) "projects/" = true)
    by (intros; apply startsWith_app).
  unfold resolveKey. destruct projectId as [[|c id]|]; cbn [truthyString].
  - repeat split; intros; congruence.
  - destruct (startsWith key "projects/") eqn:E; cbn [negb].
    + rewrite E. cbn [negb]. repeat split; intros; congruence.
    + rewrite Hunder. cbn [negb]. repeat split; intros; congruence.
  - repeat split; intros; congruence.
Qed.

Lemma resolveKey_idempotent_witness :
  startsWith (resolveKey (Some "p1") "/avatars/a.png") "projects/" = true /\
  resolveKey (Some "p1") "projects/p2/media/secret.txt"
  = "projects/p2/media/secret.txt".
Proof.
  split.
  - apply (proj1 (proj2 (resolveKey_idempotent (Some "p1") "/avatars/a.png"))).
    reflexivity.
  - apply (proj1 (proj2 (proj2 (resolveKey_idempotent (Some "p1")
                                  "projects/p2/media/secret.txt")))).
    reflexivity.
Defined.

(** X6.  One leading slash does not tell two keys apart: with a project
    id, [key] and [/key] resolve to the same key of the bucket, and
    [getUrl] gives the same URL for both. *)
Theorem resolveKey_leading_slash :
  forall (W : Type) (this : StorageHost W) (key : string) (w : W),
    truthyString (_projectId this) = true ->
    startsWith key "/" = false ->
    startsWith key "projects/" = false ->
    resolveKey (_projectId this) ("/" ++ key) = resolveKey (_projectId this) key /\
    storage_getUrl this ("/" ++ key) w = storage_getUrl this key w.
Proof.
  intros W this key w Hid Hslash Hproj.
  assert (E : resolveKey (_projectId this) ("/" ++ key)
              = resolveKey (_projectId this) key).
  { unfold resolveKey.
    destruct (_projectId this) as [[|c id]|]; try discriminate.
    rewrite Hproj, Hslash.
    assert (H1 : startsWith ("/" ++ key) "projects/" = false) by reflexivity.
    assert (H2 : startsWith ("/" ++ key) "/" = true)
      by (simpl; now destruct key).
    now rewrite H1, H2. }
  split; [exact E|].
  unfold storage_getUrl. now rewrite E.
Qed.

Definition noBucket : StorageHost Trace :=
  {| _storage := None; _projectId := Some "p1"; STORAGE_PUBLIC_URL := None |}.

Lemma resolveKey_leading_slash_witness :
  resolveKey (Some "p1") "/a.png" = "projects/p1/media/a.png" /\
  resolveKey (Some "p1") "a.png" = "projects/p1/media/a.png".
Proof.
  split; [|reflexivity].
  exact (proj1 (resolveKey_leading_slash Trace noBucket "a.png" []
                  eq_refl eq_refl eq_refl)).
Defined.

Lemma resolveKey_under_projects (id key : string) :
  id <> "" -> startsWith (resolveKey (Some id) key) "projects/" = true.
Proof.
  intros Hid. unfold resolveKey. destruct id as [|c id]; [congruence|].
  destruct (startsWith key "projects/") eqn:E; cbn [negb]; [exact E|].
  apply startsWith_app.
Qed.

Lemma resolveKey_fixed (projectId : option string) (key : string) :
  startsWith key "projects/" = true -> resolveKey projectId key = key.
Proof.
  intros H. unfold resolveKey. destruct projectId as [[|c id]|]; try reflexivity.
  now rewrite H.
Qed.

Lemma resolveKey_twice (projectId : option string) (key : string) :
  resolveKey projectId (resolveKey projectId key) = resolveKey projectId key.
Proof.
  destruct projectId as [[|c id]|]; try reflexivity.
  apply resolveKey_fixed, resolveKey_under_projects. discriminate.
Qed.

(** X7.  The key that [upload] returns is the key of the object in the
    bucket: [getUrl] of the key passed to [upload] and [getUrl] of the key
    returned by it give the URL that [upload] returned, and resolving the
    returned key again changes nothing. *)
Theorem storage_upload_key_roundtrip :
  forall (W : Type) (this : StorageHost W) (file : JsValue) (key : string)
         (options : option UploadOptions) (w w' : W) (res : UploadResult),
    storage_upload this file key options w = (inr res, w') ->
    res_key res = resolveKey (_projectId this) key /\
    storage_getUrl this key w' = (inr (res_url res), w') /\
    storage_getUrl this (res_key res) w' = (inr (res_url res), w') /\
    resolveKey (_projectId this) (res_key res) = res_key res.
Proof.
  intros W this file key options w w' res H.
  unfold storage_upload in H. unfold storage_getUrl.
  destruct (_storage this) as [bucket|]; [|discriminate].
  destruct (r2_put bucket _ file _ w) as [[err|[]] w1]; [discriminate|].
  destruct (r2_get bucket _ w1) as [[err|obj] w2]; [discriminate|].
  inversion H; subst; cbn [res_key res_url].
  rewrite resolveKey_twice. auto.
Qed.

(** A bucket that stores nothing and reports objects of 42 bytes. *)
Definition fakeBucket : R2Bucket Trace :=
  {| r2_put key _ _ w := (inr tt, (w ++ [(d1, ("put " ++ key)%string)])%list);
     r2_get key w :=
       (inr (Some {| r2_key := key; r2_size := 42; r2_uploaded := JNull;
                     r2_contentType := None |}),
        (w ++ [(d1, ("get " ++ key)%string)])%list);
     r2_delete key w := (inr tt, (w ++ [(d1, ("delete " ++ key)%string)])%list);
     r2_list prefix w :=
       (inr [], (w ++ [(d1, ("list " ++ orElse prefix "-")%string)])%list) |}.

Definition mediaHost : StorageHost Trace :=
  {| _storage := Some fakeBucket; _projectId := Some "p1";
     STORAGE_PUBLIC_URL := None |}.

Lemma storage_upload_key_roundtrip_witness :
  storage_getUrl mediaHost "/a.png"
    [(d1, "put projects/p1/media/a.png"); (d1, "get projects/p1/media/a.png")]
  = (inr "https://storage.aerostack.ai/projects/p1/media/a.png",
     [(d1, "put projects/p1/media/a.png"); (d1, "get projects/p1/media/a.png")]).
Proof.
  exact (proj1 (proj2 (storage_upload_key_roundtrip Trace mediaHost
                         (JStr "png bytes") "/a.png" None [] _ _ eq_refl))).
Defined.

(** X8.  With a project id, [list] always asks the bucket for a prefix
    under [projects/]: the media folder of the project when no prefix (or
    an empty one) is given, so that [list()] and [list] of that folder
    return the same objects. *)
Theorem storage_list_prefix :
  forall (W : Type) (this : StorageHost W) (id : string),
    _projectId this = Some id -> id <> "" ->
    (forall prefix, exists p,
        listPrefix this prefix = Some p /\ startsWith p "projects/" = true) /\
    listPrefix this None = Some ("projects/" ++ id ++ "/media/") /\
    listPrefix this (Some "") = Some ("projects/" ++ id ++ "/media/") /\
    (forall w objs w',
        storage_list this None w = (inr objs, w') <->
        storage_list this (Some ("projects/" ++ id ++ "/media/")) w
        = (inr objs, w')).
Proof.
  intros W this id Hid Hne.
  assert (Hdefault : forall prefix,
             prefix = None \/ prefix = Some "" ->
             listPrefix this prefix = Some ("projects/" ++ id ++ "/media/")).
  { intros prefix [-> | ->]; unfold listPrefix; rewrite Hid;
      destruct id; congruence. }
  assert (Hfolder : listPrefix this (Some ("projects/" ++ id ++ "/media/"))
                    = Some ("projects/" ++ id ++ "/media/")).
  { transitivity (Some (resolveKey (_projectId this)
                          ("projects/" ++ id ++ "/media/"))); [reflexivity|].
    f_equal. apply resolveKey_fixed, startsWith_app. }
  split; [|split; [|split]].
  - intros [[|c p]|].
    + exists ("projects/" ++ id ++ "/media/"). split; [apply Hdefault; auto|].
      apply startsWith_app.
    + exists (resolveKey (Some id) (String c p)). split.
      * unfold listPrefix. now rewrite Hid.
      * now apply resolveKey_under_projects.
    + exists ("projects/" ++ id ++ "/media/"). split; [apply Hdefault; auto|].
      apply startsWith_app.
  - apply Hdefault; auto.
  - apply Hdefault; auto.
  - intros w objs w'. unfold storage_list.
    rewrite Hfolder, (Hdefault None) by auto.
    destruct (_storage this) as [bucket|]; [|tauto].
    destruct (r2_list bucket _ w) as [[err|objects] w1]; split; intros H;
      inversion H; subst; reflexivity || discriminate.
Qed.

Lemma storage_list_prefix_witness :
  listPrefix mediaHost None = Some "projects/p1/media/" /\
  listPrefix mediaHost (Some "avatars/") = Some "projects/p1/media/avatars/".
Proof.
  split; [|reflexivity].
  apply (proj1 (proj2 (storage_list_prefix Trace mediaHost "p1" eq_refl
                         ltac:(discriminate)))).
Defined.

(** ** The cache facade *)

Inductive CacheType : Type := TypeText | TypeJson | TypeArrayBuffer | TypeStream.

Record CacheGetOptions : Type := { cg_type : option CacheType }.

Record CacheOptions : Type := {
  ttl : option Z;
  expirationTtl : option Z
}.

(** The KV binding: [get(key, type?)] resolves to a value or to [null]
    ([None]); [put(key, text, { expirationTtl }?)]; [delete(key)]. *)
Record KVNamespace (W : Type) : Type := {
  kv_get : string -> option CacheType -> W -> (DriverError + option JsValue) * W;
  kv_put : string -> JsValue -> option Z -> W -> (DriverError + unit) * W;
  kv_delete : string -> W -> (DriverError + unit) * W
}.

Arguments kv_get {W} _ _ _ _.
Arguments kv_put {W} _ _ _ _ _.
Arguments kv_delete {W} _ _ _.

Definition cacheNotConfigured : ServerError :=
  {| se_name := "CacheError";
     se_code := CACHE_NOT_CONFIGURED;
     se_message := "KV cache not configured";
     se_details := Some {| suggestion := Some "Add [[kv_namespaces]] binding to aerostack.toml";
                           recoveryAction := None; field := None;
                           cause := None |};
     se_context := None |}.

(** [a || b] on two optional numbers: zero is falsy. *)
Definition orNumber (a b : option Z) : option Z :=
  match a with
  | Some n => if (n =? 0)%Z then b else Some n
  | None => b
  end.

Section Cache.
Context {W : Type}.
Variable _kv : option (KVNamespace W).

(** [JSON.stringify] of the runtime: the text of the value, [undefined]
    for a value that has none, or the error it throws. *)
Variable JSON_stringify : JsValue -> DriverError + JsValue.

(** [cache.get(key, options)]. *)
Definition cache_get (key : string) (options : option CacheGetOptions)
  : W -> (ServerError + option JsValue) * W :=
  fun w =>
    match _kv with
    | None => (inl cacheNotConfigured, w)
    | Some kv =>
        let type := match options with
                    | Some {| cg_type := Some t |} => t
                    | _ => TypeJson
                    end in
        match kv_get kv key (Some type) w with
        | (inr value, w') => (inr value, w')
        | (inl err, w') =>
            (inl {| se_name := "CacheError";
                    se_code := CACHE_GET_FAILED;
                    se_message := "Failed to get cache key: " ++ key;
                    se_details := Some {| suggestion := Some "Check key format and KV namespace binding";
                                          recoveryAction := None; field := None;
                                          cause := err_message err |};
                    se_context := Some [("key", JStr key)] |}, w')
        end
    end.

Definition setFailed (key : string) (value : JsValue) (err : DriverError)
  : ServerError :=
  {| se_name := "CacheError";
     se_code := CACHE_SET_FAILED;
     se_message := "Failed to set cache key: " ++ key;
     se_details := Some {| suggestion := Some "Check value serialization and KV limits (25MB)";
                           recoveryAction := None; field := None;
                           cause := err_message err |};
     se_context := Some [("key", JStr key); ("value", value)] |}.

(** [cache.set(key, value, options)]. *)
Definition cache_set (key : string) (value : JsValue)
  (options : option CacheOptions) : W -> (ServerError + unit) * W :=
  fun w =>
    match _kv with
    | None => (inl cacheNotConfigured, w)
    | Some kv =>
        let ttl := match options with
                   | Some o => orNumber (ttl o) (expirationTtl o)
                   | None => None
                   end in
        match JSON_stringify value with
        | inl err => (inl (setFailed key value err), w)
        | inr text =>
            match kv_put kv key text (orNumber ttl None) w with
            | (inr tt, w') => (inr tt, w')
            | (inl err, w') => (inl (setFailed key value err), w')
            end
        end
    end.

(** [cache.delete(key)]. *)
Definition cache_delete (key : string) : W -> (ServerError + unit) * W :=
  fun w =>
    match _kv with
    | None => (inl cacheNotConfigured, w)
    | Some kv =>
        match kv_delete kv key w with
        | (inr tt, w') => (inr tt, w')
        | (inl err, w') =>
            (inl {| se_name := "CacheError";
                    se_code := CACHE_DELETE_FAILED;
                    se_message := "Failed to delete cache key: " ++ key;
                    se_details := Some {| suggestion := None;
                                          recoveryAction := None; field := None;
                                          cause := err_message err |};
                    se_context := Some [("key", JStr key)] |}, w')
        end
    end.

(** [cache.exists(key)]. *)
Definition cache_exists (key : string) : W -> (ServerError + bool) * W :=
  fun w =>
    match _kv with
    | None => (inr false, w)
    | Some kv =>
        match kv_get kv key None w with
        | (inr (Some _), w') => (inr true, w')
        | (inr None, w') => (inr false, w')
        | (inl _, w') => (inr false, w')
        end
    end.

End Cache.

(** X9.  [cache.exists] never throws.  Without a KV binding it answers
    [false] and touches nothing; with one it answers [true] exactly when
    the binding resolves the key to a value other than [null], a rejection
    of the binding being answered [false]. *)
Theorem cache_exists_total :
  forall (W : Type) (_kv : option (KVNamespace W)) (key : string) (w : W),
  exists b w',
    cache_exists _kv key w = (inr b, w') /\
    (_kv = None -> b = false /\ w' = w) /\
    (forall kv, _kv = Some kv ->
                w' = snd (kv_get kv key None w) /\
                (b = true <-> exists v, fst (kv_get kv key None w) = inr (Some v))).
Proof.
  intros W [kv|] key w; unfold cache_exists.
  - destruct (kv_get kv key None w) as [[err|[v|]] w1] eqn:E.
    + exists false, w1. split; [reflexivity|]. split; [discriminate|].
      intros kv' [= <-]. rewrite E. split; [reflexivity|].
      split; [discriminate | intros [v Hv]; simpl in Hv; discriminate].
    + exists true, w1. split; [reflexivity|]. split; [discriminate|].
      intros kv' [= <-]. rewrite E. split; [reflexivity|].
      split; [intros _; now exists v | reflexivity].
    + exists false, w1. split; [reflexivity|]. split; [discriminate|].
      intros kv' [= <-]. rewrite E. split; [reflexivity|].
      split; [discriminate | intros [v Hv]; simpl in Hv; discriminate].
  - exists false, w. split; [reflexivity|]. split; [auto | discriminate].
Qed.

(** A KV binding with the single key [greeting]; it rejects the key [bad]. *)
Definition fakeKv : KVNamespace Trace :=
  {| kv_get key _ w :=
       (if String.eqb key "bad"
        then inl {| err_code := None; err_message := Some "KV GET failed";
                    err_table := None; err_column := None |}
        else if String.eqb key "greeting" then inr (Some (JStr "hello"))
             else inr None,
        (w ++ [(d1, ("kv get " ++ key)%string)])%list);
     kv_put key _ _ w := (inr tt, (w ++ [(d1, ("kv put " ++ key)%string)])%list);
     kv_delete key w := (inr tt, (w ++ [(d1, ("kv delete " ++ key)%string)])%list) |}.

Lemma cache_exists_total_witness :
  cache_exists (Some fakeKv) "bad" [] = (inr false, [(d1, "kv get bad")]) /\
  cache_exists (@None (KVNamespace Trace)) "greeting" [] = (inr false, []).
Proof.
  split; [reflexivity|].
  destruct (cache_exists_total Trace None "greeting" [])
    as (b & w' & Hx & Hnone & _).
  destruct (Hnone eq_refl) as [-> ->]. exact Hx.
Defined.

(** X10.  In [cache.set] a non-zero [ttl] decides the expiration; a [ttl]
    that is missing or zero leaves the decision to [expirationTtl]; when
    that one is missing or zero too, or when no options are given, the
    value is stored without expiration. *)
Theorem cache_set_ttl :
  forall (W : Type) (kv : KVNamespace W)
         (JSON_stringify : JsValue -> DriverError + JsValue)
         (key : string) (value text : JsValue) (w : W),
    JSON_stringify value = inr text ->
    let stored (expiration : option Z) :=
      match kv_put kv key text expiration w with
      | (inr tt, w') => (inr tt, w')
      | (inl err, w') => (inl (setFailed key value err), w')
      end in
    (forall o t, ttl o = Some t -> t <> 0%Z ->
                 cache_set (Some kv) JSON_stringify key value (Some o) w
                 = stored (Some t)) /\
    (forall o t, ttl o = None \/ ttl o = Some 0%Z ->
                 expirationTtl o = Some t -> t <> 0%Z ->
                 cache_set (Some kv) JSON_stringify key value (Some o) w
                 = stored (Some t)) /\
    (forall o, ttl o = None \/ ttl o = Some 0%Z ->
               expirationTtl o = None \/ expirationTtl o = Some 0%Z ->
               cache_set (Some kv) JSON_stringify key value (Some o) w
               = stored None) /\
    cache_set (Some kv) JSON_stringify key value None w = stored None.
Proof.
  intros W kv JSON_stringify key value text w Htext stored.
  assert (Hnz : forall t, t <> 0%Z -> (t =? 0)%Z = false)
    by (intros t Ht; now apply Z.eqb_neq).
  unfold cache_set, stored. rewrite Htext. repeat apply conj.
  - intros o t -> Ht. unfold orNumber. now rewrite !(Hnz t Ht).
  - intros o t [-> | ->] -> Ht; unfold orNumber; cbn; now rewrite !(Hnz t Ht).
  - intros o [-> | ->] [-> | ->]; reflexivity.
  - reflexivity.
Qed.

Lemma cache_set_ttl_witness :
  cache_set (Some fakeKv) (fun v => inr v) "greeting" (JStr "hi")
            (Some {| ttl := Some 0%Z; expirationTtl := Some 60%Z |}) []
  = (inr tt, [(d1, "kv put greeting")]).
Proof.
  rewrite (proj1 (proj2 (cache_set_ttl Trace fakeKv (fun v => inr v)
                           "greeting" (JStr "hi") (JStr "hi") [] eq_refl))
             {| ttl := Some 0%Z; expirationTtl := Some 60%Z |} 60%Z
             (or_intror eq_refl) eq_refl ltac:(discriminate)).
  reflexivity.
Defined.

(** ** Schema introspection, seen from [getSchema] *)

(** The statements that the two introspections send. *)
Definition d1CatalogQuery : string :=
  "SELECT name FROM sqlite_master WHERE type='table' AND name NOT LIKE 'sqlite_%'".

Definition pgCatalogQuery : string := "
            SELECT table_name 
            FROM information_schema.tables 
            WHERE table_schema = 'public'
        ".

Definition pgColumnsQuery : string := "
                SELECT column_name, data_type, is_nullable, column_default
                FROM information_schema.columns
                WHERE table_name = $1
            ".

Definition rawThrow (t : Thrown) : Prop :=
  (exists e, t = ThrownDriverError e) \/ (exists msg, t = ThrownTypeError msg).

Section Introspection.
Context {W : Type}.

Lemma definedRows_cases (message : string) (rs : option (list Row)) (w : W) :
  (exists l, rs = Some l /\ definedRows message rs w = (Normal l, w)) \/
  (exists msg, definedRows message rs w = (Throw (ThrownTypeError msg), w)).
Proof.
  destruct rs as [l|]; [left; now exists l | right; eexists; reflexivity].
Qed.

(** The tables that the loop of [introspectD1] adds. *)
Lemma d1Tables_spec (db : D1Database W) (rs : list Row) :
  forall acc w,
    match d1Tables db rs acc w with
    | (Normal tbls, _) =>
        exists new,
          tbls = (acc ++ new)%list /\
          map tbl_name new = map (fun row => prop row "name") rs /\
          Forall (fun t => tbl_database t = d1 /\
                           Forall (fun c => isPrimaryKey c <> None) (columns t))
                 new
    | (Throw t, _) => rawThrow t
    end.
Proof.
  induction rs as [|row rs IH]; intros acc w.
  - simpl. exists []. now rewrite app_nil_r.
  - cbn [d1Tables]. unfold bind at 1, await.
    destruct (prepare_bind_all db _ [] w) as [[e|cols] w1];
      [left; now exists e|].
    unfold bind at 1.
    destruct (definedRows_cases
                "Cannot read properties of undefined (reading 'map')"
                (d1_results cols) w1)
      as [(l & _ & ->) | (msg & ->)]; [|right; now exists msg].
    specialize (IH (acc ++ [{| tbl_name := prop row "name";
                               columns := map d1Column l;
                               tbl_database := d1 |}])%list w1).
    destruct (d1Tables db rs _ w1) as [[tbls|t] w2]; [|exact IH].
    destruct IH as (new & -> & Hnames & Hall).
    exists ({| tbl_name := prop row "name"; columns := map d1Column l;
               tbl_database := d1 |} :: new).
    split; [now rewrite <- app_assoc|]. split; [simpl; now rewrite Hnames|].
    constructor; [|exact Hall]. split; [reflexivity|].
    apply Forall_forall. intros c Hc. apply in_map_iff in Hc as (r & <- & _).
    discriminate.
Qed.

Lemma pgTables_spec (pool : Pool W) (rs : list Row) :
  forall acc w,
    match pgTables pool rs acc w with
    | (Normal tbls, _) =>
        exists new,
          tbls = (acc ++ new)%list /\
          map tbl_name new = map (fun row => prop row "table_name") rs /\
          Forall (fun t => tbl_database t = postgres /\
                           Forall (fun c => isPrimaryKey c = None) (columns t))
                 new
    | (Throw t, _) => rawThrow t
    end.
Proof.
  induction rs as [|row rs IH]; intros acc w.
  - simpl. exists []. now rewrite app_nil_r.
  - cbn [pgTables]. unfold bind at 1, await.
    destruct (pool_query pool _ _ w) as [[e|cols] w1];
      [left; now exists e|].
    specialize (IH (acc ++ [{| tbl_name := prop row "table_name";
                               columns := map pgColumn (rows cols);
                               tbl_database := postgres |}])%list w1).
    destruct (pgTables pool rs _ w1) as [[tbls|t] w2]; [|exact IH].
    destruct IH as (new & -> & Hnames & Hall).
    exists ({| tbl_name := prop row "table_name";
               columns := map pgColumn (rows cols);
               tbl_database := postgres |} :: new).
    split; [now rewrite <- app_assoc|]. split; [simpl; now rewrite Hnames|].
    constructor; [|exact Hall]. split; [reflexivity|].
    apply Forall_forall. intros c Hc. apply in_map_iff in Hc as (r & <- & _).
    reflexivity.
Qed.

End Introspection.

(** X11.  What a successful introspection returns: one table for each row
    of the catalog query, in the order of the rows and named after them;
    every table and the schema itself carry the engine they come from;
    the columns of the embedded engine all have a primary-key flag, those
    of the remote engine never have one. *)
Theorem introspection_tables :
  forall (W : Type) (this : AerostackServer W) (w w' : W) (info : SchemaInfo),
    (introspectD1 this w = (Normal info, w') ->
     exists db result rs w1,
       _d1 this = Some db /\
       prepare_bind_all db d1CatalogQuery [] w = (inr result, w1) /\
       d1_results result = Some rs /\
       map tbl_name (schema_tables info) = map (fun row => prop row "name") rs /\
       database info = d1 /\
       Forall (fun t => tbl_database t = d1 /\
                        Forall (fun c => isPrimaryKey c <> None) (columns t))
              (schema_tables info)) /\
    (introspectPostgres this w = (Normal info, w') ->
     exists pool result w1,
       pgPool this = Some pool /\
       pool_query pool pgCatalogQuery [] w = (inr result, w1) /\
       map tbl_name (schema_tables info)
       = map (fun row => prop row "table_name") (rows result) /\
       database info = postgres /\
       Forall (fun t => tbl_database t = postgres /\
                        Forall (fun c => isPrimaryKey c = None) (columns t))
              (schema_tables info)).
Proof.
  intros W this w w' info. split.
  - unfold introspectD1.
    destruct (_d1 this) as [db|]; [|discriminate].
    unfold bind at 1, await. fold d1CatalogQuery.
    destruct (prepare_bind_all db d1CatalogQuery [] w) as [[e|result] w1] eqn:E;
      [discriminate|].
    unfold bind at 1.
    destruct (definedRows_cases "result.results is not iterable"
                (d1_results result) w1)
      as [(rs & Hrs & ->) | (msg & ->)]; [|discriminate].
    unfold bind, ret.
    pose proof (d1Tables_spec db rs [] w1) as Hspec.
    destruct (d1Tables db rs [] w1) as [[tbls|t] w2]; [|discriminate].
    destruct Hspec as (new & -> & Hnames & Hall).
    intros H; inversion H; subst; cbn [schema_tables database].
    exists db, result, rs, w1. auto 10.
  - unfold introspectPostgres.
    destruct (pgPool this) as [pool|]; [|discriminate].
    unfold bind at 1, await. fold pgCatalogQuery.
    destruct (pool_query pool pgCatalogQuery [] w) as [[e|result] w1] eqn:E;
      [discriminate|].
    unfold bind, ret.
    pose proof (pgTables_spec pool (rows result) [] w1) as Hspec.
    destruct (pgTables pool (rows result) [] w1) as [[tbls|t] w2];
      [|discriminate].
    destruct Hspec as (new & -> & Hnames & Hall).
    intros H; inversion H; subst; cbn [schema_tables database].
    exists pool, result, w1. auto 10.
Qed.

Lemma introspection_tables_witness :
  exists info,
    fst (introspectD1 (server (Some pgCatalog) (Some d1Catalog) []) [])
    = Normal info /\
    map tbl_name (schema_tables info) = [JStr "users"] /\
    database info = d1.
Proof.
  destruct (introspectD1 (server (Some pgCatalog) (Some d1Catalog) []) [])
    as [[info|t] w'] eqn:E; [|discriminate E].
  exists info. split; [reflexivity|].
  destruct (proj1 (introspection_tables Trace
                     (server (Some pgCatalog) (Some d1Catalog) []) [] w' info) E)
    as (db & result & rs & w1 & Hdb & Hcall & Hrs & Hnames & Hdatabase & _).
  split; [|exact Hdatabase].
  rewrite Hnames. injection Hdb as <-. cbv in Hcall.
  injection Hcall as <- _. injection Hrs as <-. reflexivity.
Defined.

Section SchemaErrors.
Context {W : Type}.
Variable this : AerostackServer W.

Lemma introspectD1_throws (w w' : W) (t : Thrown) :
  _d1 this <> None -> introspectD1 this w = (Throw t, w') -> rawThrow t.
Proof.
  unfold introspectD1. destruct (_d1 this) as [db|]; [intros _|congruence].
  unfold bind at 1, await.
  destruct (prepare_bind_all db _ [] w) as [[e|result] w1].
  - intros H; inversion H. left; now exists e.
  - unfold bind at 1.
    destruct (definedRows_cases "result.results is not iterable"
                (d1_results result) w1)
      as [(rs & _ & ->) | (msg & ->)].
    + unfold bind, ret.
      pose proof (d1Tables_spec db rs [] w1) as Hspec.
      destruct (d1Tables db rs [] w1) as [[tbls|t0] w2];
        intros H; inversion H; subst. exact Hspec.
    + intros H; inversion H. right; now exists msg.
Qed.

Lemma introspectPostgres_throws (w w' : W) (t : Thrown) :
  pgPool this <> None -> introspectPostgres this w = (Throw t, w') -> rawThrow t.
Proof.
  unfold introspectPostgres.
  destruct (pgPool this) as [pool|]; [intros _|congruence].
  unfold bind at 1, await.
  destruct (pool_query pool _ [] w) as [[e|result] w1].
  - intros H; inversion H. left; now exists e.
  - unfold bind, ret.
    pose proof (pgTables_spec pool (rows result) [] w1) as Hspec.
    destruct (pgTables pool (rows result) [] w1) as [[tbls|t0] w2];
      intros H; inversion H; subst. exact Hspec.
Qed.

End SchemaErrors.

(** X12.  [getSchema] does not translate driver errors.  The only
    [DatabaseError] it throws is the connection error, when neither
    engine is configured and before anything is called; with an engine
    configured, whatever it throws is the error of the driver as it is, or
    a [TypeError] -- unlike [routeQuery], which wraps every driver error
    into a [DatabaseError]. *)
Theorem getSchema_errors_untranslated :
  forall (rev : Revision) (W : Type) (this : AerostackServer W)
         (binding : option string) (w : W),
    (forall t w',
        getSchema rev this binding w = (Throw t, w') ->
        (t = ThrownDatabaseError noConnection /\
         pgPool this = None /\ _d1 this = None /\ w' = w) \/
        ((pgPool this <> None \/ _d1 this <> None) /\ rawThrow t)) /\
    (forall db e w1,
        pgPool this = None -> _d1 this = Some db ->
        prepare_bind_all db d1CatalogQuery [] w = (inl e, w1) ->
        getSchema rev this binding w = (Throw (ThrownDriverError e), w1) /\
        routeQuery rev this d1CatalogQuery [] w
        = (Throw (ThrownDatabaseError
                    (fromD1Error e (queryContext d1CatalogQuery [] d1))), w1)).
Proof.
  intros rev W this binding w. split.
  - intros t w' H.
    assert (Hcases :
              (pgPool this <> None /\ getSchema rev this binding w
                                      = introspectPostgres this w) \/
              (_d1 this <> None /\ getSchema rev this binding w
                                   = introspectD1 this w) \/
              (pgPool this = None /\ _d1 this = None /\
               getSchema rev this binding w
               = (Throw (ThrownDatabaseError noConnection), w))).
    { unfold getSchema, defaultSchema, noConnectionError, throw.
      destruct binding as [[|c b]|], rev, (pgPool this), (_d1 this);
        try destruct (isPg _ _);
        try (left; split; [discriminate | reflexivity]);
        try (right; left; split; [discriminate | reflexivity]);
        right; right; auto. }
    destruct Hcases as [[Hp E] | [[Hd E] | (Hp & Hd & E)]]; rewrite E in H.
    + right. split; [auto|]. exact (introspectPostgres_throws this w w' t Hp H).
    + right. split; [auto|]. exact (introspectD1_throws this w w' t Hd H).
    + left. inversion H; subst. auto.
  - intros db e w1 Hp Hd Hcall. split.
    + assert (E : getSchema rev this binding w = introspectD1 this w).
      { unfold getSchema, defaultSchema. rewrite Hp, Hd.
        destruct binding as [[|c b]|], rev; reflexivity. }
      rewrite E. unfold introspectD1. rewrite Hd.
      unfold bind, await. fold d1CatalogQuery. now rewrite Hcall.
    + rewrite (routeQuery_d1 rev this d1CatalogQuery [] w db
                 (or_intror Hp) Hd).
      now rewrite Hcall.
Qed.

(** An embedded driver that rejects every statement. *)
Definition d1Down : D1Database Trace :=
  fakeD1 (fun _ => inl (driverError None (Some "D1_ERROR: no such table: x"))).

Lemma getSchema_errors_untranslated_witness :
  getSchema Current (server None (Some d1Down) []) None []
  = (Throw (ThrownDriverError
              (driverError None (Some "D1_ERROR: no such table: x"))),
     [(d1, d1CatalogQuery)]).
Proof.
  apply (proj2 (getSchema_errors_untranslated Current Trace
                  (server None (Some d1Down) []) None [])
           d1Down _ _ eq_refl eq_refl eq_refl).
Defined.

(** ** Batches in sequence *)

(** An error entry moved by [k] places. *)
Definition shiftIndex (k : nat) (b : BatchError) : BatchError :=
  {| index := k + index b; error := error b |}.

Lemma failures_app (os1 os2 : list (Completion DatabaseResponse)) :
  forall k,
    failures k (os1 ++ os2)
    = (failures k os1 ++ failures (k + List.length os1) os2)%list.
Proof.
  induction os1 as [|[r|e] os1 IH]; intros k; simpl.
  - now rewrite Nat.add_0_r.
  - rewrite IH. now rewrite <- Nat.add_succ_comm.
  - rewrite IH. now rewrite <- Nat.add_succ_comm.
Qed.

Lemma failures_shift (os : list (Completion DatabaseResponse)) :
  forall k, failures k os = map (shiftIndex k) (failures 0 os).
Proof.
  induction os as [|[r|e] os IH]; intros k; simpl.
  - reflexivity.
  - rewrite (IH (S k)), (IH 1), map_map. apply map_ext.
    intros b. unfold shiftIndex; simpl. f_equal. lia.
  - unfold shiftIndex at 1; simpl. rewrite Nat.add_0_r. f_equal.
    rewrite (IH (S k)), (IH 1), map_map. apply map_ext.
    intros b. unfold shiftIndex; simpl. f_equal. lia.
Qed.

Section BatchAppend.
Variable rev : Revision.
Context {W : Type}.
Variable this : AerostackServer W.

Lemma worldAfter_app (qs1 qs2 : list BatchQuery) (w : W) :
  worldAfter rev this (qs1 ++ qs2) w
  = worldAfter rev this qs2 (worldAfter rev this qs1 w).
Proof.
  revert w; induction qs1 as [|q qs1 IH]; intros w; simpl; [reflexivity|].
  apply IH.
Qed.

Lemma outcomes_app (qs1 qs2 : list BatchQuery) (w : W) :
  outcomes rev this (qs1 ++ qs2) w
  = (outcomes rev this qs1 w
     ++ outcomes rev this qs2 (worldAfter rev this qs1 w))%list.
Proof.
  revert w; induction qs1 as [|q qs1 IH]; intros w; simpl; [reflexivity|].
  now rewrite IH.
Qed.

End BatchAppend.

(** X13.  Running one batch is the same as running its two halves one
    after the other: the slots are those of the first half followed by
    those of the second, run in the world the first half left; [success]
    is the conjunction; the error entries of the second half follow those
    of the first, their indexes moved by the length of the first half. *)
Theorem batch_app :
  forall (rev : Revision) (W : Type) (this : AerostackServer W)
         (qs1 qs2 : list BatchQuery) (w w1 w2 : W) (res1 res2 : BatchResult),
    batch rev this qs1 w = (Normal res1, w1) ->
    batch rev this qs2 w1 = (Normal res2, w2) ->
    batch rev this (qs1 ++ qs2) w
    = (Normal {| batch_results := batch_results res1 ++ batch_results res2;
                 batch_success := batch_success res1 && batch_success res2;
                 batch_errors :=
                   match (errorList res1
                          ++ map (shiftIndex (List.length qs1)) (errorList res2))%list
                   with
                   | [] => None
                   | e :: l => Some (e :: l)
                   end |},
       w2).
Proof.
  intros rev W this qs1 qs2 w w1 w2 res1 res2 H1 H2.
  rewrite batch_eq in H1. injection H1 as <- <-.
  rewrite batch_eq in H2. injection H2 as <- <-.
  rewrite batch_eq.
  fold (batchResult rev this qs1 w).
  fold (batchResult rev this qs2 (worldAfter rev this qs1 w)).
  rewrite !errorList_batchResult.
  rewrite outcomes_app, worldAfter_app, map_app, forallb_app, failures_app.
  rewrite outcomes_length, Nat.add_0_l.
  rewrite (failures_shift (outcomes rev this qs2 _) (List.length qs1)).
  cbn [batchResult batch_results batch_success].
  f_equal. f_equal.
  now destruct (failures 0 (outcomes rev this qs1 w) ++ _)%list.
Qed.

Lemma batch_app_witness :
  exists res,
    fst (batch Legacy (server None (Some d1Widgets) [])
           ([{| sql := "SELECT * FROM users"; params := None |}]
            ++ [{| sql := "SELECT * FROM widgets"; params := None |}]) [])
    = Normal res /\
    option_map (map index) (batch_errors res) = Some [1].
Proof.
  eexists. split.
  - rewrite (batch_app Legacy Trace (server None (Some d1Widgets) [])
               [{| sql := "SELECT * FROM users"; params := None |}]
               [{| sql := "SELECT * FROM widgets"; params := None |}]
               [] _ _ _ _ eq_refl eq_refl).
    reflexivity.
  - reflexivity.
Defined.

(** ** Edge cases of the routing rules *)

Lemma includes_empty (s : string) : includes s "" = true.
Proof. apply (includes_app "" "" s). Qed.

(** X14.  A routing rule whose table name is the empty string matches
    every query: without a hint the target is then always the target of
    some rule, and neither the complexity keywords nor the default are
    ever consulted; when it is the only rule every such query goes to its
    target. *)
Theorem determineTarget_empty_table_name :
  forall (rev : Revision) (W : Type) (this : AerostackServer W)
         (sql : string) (tgt0 : Target),
    includes (toLowerCase sql) "aerostack:target=postgres" = false ->
    includes (toLowerCase sql) "aerostack:target=d1" = false ->
    In ("", tgt0) (tables (routingRules this)) ->
    (exists table tgt,
        In (table, tgt) (tables (routingRules this)) /\
        includes (toLowerCase sql) (toLowerCase table) = true /\
        determineTarget rev this sql = tgt) /\
    (tables (routingRules this) = [("", tgt0)] ->
     determineTarget rev this sql = tgt0).
Proof.
  intros rev W this sql tgt0 Hpg Hd1 Hin.
  rewrite (determineTarget_no_hint rev this sql Hpg Hd1), firstRule_find.
  destruct (find (ruleMatches (toLowerCase sql))
                 (JsObj.entries (tables (routingRules this))))
    as [[table tgt]|] eqn:E.
  - split.
    + exists table, tgt. apply find_some in E as [Hin' Hm].
      apply (proj1 (In_entries _ _ _)) in Hin'. auto.
    + intros Hone. rewrite Hone in E.
      change (JsObj.entries [("", tgt0)]) with [("", tgt0)] in E.
      cbn [find] in E. unfold ruleMatches in E. cbn [fst toLowerCase] in E.
      rewrite includes_empty in E. now injection E as _ <-.
  - exfalso. apply (proj2 (In_entries _ _ _)) in Hin.
    pose proof (find_none _ _ E _ Hin) as Hn.
    unfold ruleMatches in Hn. cbn [fst toLowerCase] in Hn.
    rewrite includes_empty in Hn.
    discriminate.
Qed.

Lemma determineTarget_empty_table_name_witness :
  determineTarget Legacy (server (Some pgOk) (Some d1Widgets) [("", d1)])
    "SELECT a FROM t JOIN u ON t.id = u.id GROUP BY a" = d1.
Proof.
  apply (proj2 (determineTarget_empty_table_name Legacy Trace
                  (server (Some pgOk) (Some d1Widgets) [("", d1)])
                  "SELECT a FROM t JOIN u ON t.id = u.id GROUP BY a" d1
                  eq_refl eq_refl (or_introl eq_refl))).
  reflexivity.
Defined.

(** ** Errors of the cache *)

(** [error.details?.cause] of a [ServerError]. *)
Definition se_cause (e : ServerError) : option string :=
  match se_details e with
  | Some d => cause d
  | None => None
  end.

(** X15.  [cache.get] and [cache.delete] throw nothing but [CacheError]s.
    Without a KV binding the error is [CACHE_NOT_CONFIGURED] and nothing is
    touched; a rejection of the binding becomes [CACHE_GET_FAILED] or
    [CACHE_DELETE_FAILED], with the key at the end of the message and the
    text of the rejection as [cause]; a value that the binding resolves is
    returned as it is, read as [json] unless another type is asked for. *)
Theorem cache_errors :
  forall (W : Type) (_kv : option (KVNamespace W)) (key : string)
         (options : option CacheGetOptions) (w : W),
    (forall e w', cache_get _kv key options w = (inl e, w') ->
        se_name e = "CacheError" /\
        ((_kv = None /\ se_code e = CACHE_NOT_CONFIGURED /\ w' = w) \/
         (exists kv err, _kv = Some kv /\
            kv_get kv key
              (Some match options with
                    | Some {| cg_type := Some t |} => t
                    | _ => TypeJson
                    end) w = (inl err, w') /\
            se_code e = CACHE_GET_FAILED /\
            se_message e = "Failed to get cache key: " ++ key /\
            se_cause e = err_message err /\
            se_context e = Some [("key", JStr key)]))) /\
    (forall e w', cache_delete _kv key w = (inl e, w') ->
        se_name e = "CacheError" /\
        ((_kv = None /\ se_code e = CACHE_NOT_CONFIGURED /\ w' = w) \/
         (exists kv err, _kv = Some kv /\
            kv_delete kv key w = (inl err, w') /\
            se_code e = CACHE_DELETE_FAILED /\
            se_message e = "Failed to delete cache key: " ++ key /\
            se_cause e = err_message err /\
            se_context e = Some [("key", JStr key)]))) /\
    (forall kv v w', _kv = Some kv ->
        (kv_get kv key (Some TypeJson) w = (inr v, w') ->
         cache_get _kv key None w = (inr v, w') /\
         cache_get _kv key (Some {| cg_type := None |}) w = (inr v, w')) /\
        (forall t, kv_get kv key (Some t) w = (inr v, w') ->
                   cache_get _kv key (Some {| cg_type := Some t |}) w
                   = (inr v, w'))).
Proof.
  intros W [kv|] key options w; repeat apply conj.
  - intros e w'. unfold cache_get.
    destruct (kv_get kv key _ w) as [[err|v] w1] eqn:E;
      intros H; inversion H; subst.
    split; [reflexivity|]. right. exists kv, err. repeat split. exact E.
  - intros e w'. unfold cache_delete.
    destruct (kv_delete kv key w) as [[err|[]] w1] eqn:E;
      intros H; inversion H; subst.
    split; [reflexivity|]. right. exists kv, err. repeat split. exact E.
  - intros kv' v w' [= <-]. split.
    + intros H. unfold cache_get. now rewrite H.
    + intros t H. unfold cache_get. now rewrite H.
  - intros e w' H. inversion H; subst. split; [reflexivity|]. left. auto.
  - intros e w' H. inversion H; subst. split; [reflexivity|]. left. auto.
  - intros kv v w' H. discriminate.
Qed.

Lemma cache_errors_witness :
  se_code (match fst (cache_get (Some fakeKv) "bad" None []) with
           | inl e => e
           | inr _ => cacheNotConfigured
           end) = CACHE_GET_FAILED /\
  cache_get (Some fakeKv) "greeting" None []
  = (inr (Some (JStr "hello")), [(d1, "kv get greeting")]).
Proof.
  split; [reflexivity|].
  apply (proj1 (proj1 (proj2 (proj2 (cache_errors Trace (Some fakeKv) "greeting"
                                       None []))
                         fakeKv (Some (JStr "hello"))
                         [(d1, "kv get greeting")] eq_refl) eq_refl)).
Defined.

(** * The gateway router primitive

    [AerostackRouter] of the gateway primitives: the list of HTTP
    handlers and its executor. *)

Module Gateway.

Section Router.
Variables (W Req Resp E : Type).

(** A handler resolves to a response, resolves to nothing ([None], a
    falsy value), or throws. *)
Definition Handler : Type := Req -> W -> (E + option Resp) * W.

Record AerostackRouter : Type := { httpHandlers : list Handler }.

Definition newRouter : AerostackRouter := {| httpHandlers := [] |}.

(** [onRequest(handler)]. *)
Definition onRequest (router : AerostackRouter) (handler : Handler)
  : AerostackRouter :=
  {| httpHandlers := httpHandlers router ++ [handler] |}.

(** The loop of [executeHttp] over the handlers left. *)
Fixpoint runHandlers (hs : list Handler) (req : Req) (w : W)
  : (E + option Resp) * W :=
  match hs with
  | [] => (inr None, w)
  | handler :: hs' =>
      match handler req w with
      | (inr (Some res), w') => (inr (Some res), w')
      | (inr None, w') => runHandlers hs' req w'
      | (inl e, w') => (inl e, w')
      end
  end.

(** [executeHttp(req)]. *)
Definition executeHttp (router : AerostackRouter) (req : Req) (w : W)
  : (E + option Resp) * W :=
  runHandlers (httpHandlers router) req w.

Lemma runHandlers_app (hs1 hs2 : list Handler) (req : Req) :
  forall w,
    runHandlers (hs1 ++ hs2) req w
    = match runHandlers hs1 req w with
      | (inr None, w1) => runHandlers hs2 req w1
      | answered => answered
      end.
Proof.
  induction hs1 as [|h hs1 IH]; intros w; [reflexivity|].
  simpl. destruct (h req w) as [[e|[res|]] w']; try reflexivity.
  apply IH.
Qed.

End Router.

Arguments httpHandlers {W Req Resp E} _.
Arguments newRouter {W Req Resp E}.
Arguments onRequest {W Req Resp E} router handler.
Arguments runHandlers {W Req Resp E} hs req w.
Arguments executeHttp {W Req Resp E} router req w.

End Gateway.

(** X16.  The HTTP handlers of the gateway router answer in the order of
    their registration: a handler registered with [onRequest] is run only
    when every earlier handler resolved to nothing, in the world they
    left; when an earlier handler answered or threw, that outcome is the
    outcome of [executeHttp] and the new handler is not run.  A router
    without handlers resolves to [null]. *)
Theorem executeHttp_registration_order :
  forall (W Req Resp E : Type) (router : Gateway.AerostackRouter W Req Resp E)
         (handler : Gateway.Handler W Req Resp E) (req : Req) (w : W),
    Gateway.executeHttp (Gateway.onRequest router handler) req w
    = match Gateway.executeHttp router req w with
      | (inr None, w1) =>
          match handler req w1 with
          | (inr None, w2) => (inr None, w2)
          | answered => answered
          end
      | answered => answered
      end /\
    Gateway.executeHttp (@Gateway.newRouter W Req Resp E) req w = (inr None, w).
Proof.
  intros W Req Resp E router handler req w. split; [|reflexivity].
  unfold Gateway.executeHttp, Gateway.onRequest; cbn [Gateway.httpHandlers].
  rewrite Gateway.runHandlers_app.
  destruct (Gateway.runHandlers (Gateway.httpHandlers router) req w)
    as [[e|[res|]] w1]; reflexivity.
Qed.

(** * The [sdk] singleton of [index.ts] *)

Module Sdk.

(** An argument of [init]: a primitive value or an object. *)
Inductive Config (W : Type) : Type :=
| CfgValue (v : JsValue)
| CfgObject (o : JsObject (EnvValue W)).

Arguments CfgValue {W} v.
Arguments CfgObject {W} o.

(** [typeof config === 'object' && config.projectSlug]; reading a
    property of [null] throws. *)
Definition isClientConfig {W : Type} (config : Config W) : bool :=
  match config with
  | CfgObject o =>
      match JsObj.get o "projectSlug" with
      | Some slug => truthyEnv slug
      | None => false
      end
  | CfgValue _ => false
  end.

(** [null] and [undefined]: the first fails the test of [init], the
    second fails in the constructor of the server, both with a
    [TypeError]. *)
Definition isNullish {W : Type} (config : Config W) : bool :=
  match config with
  | CfgValue JNull | CfgValue JUndefined => true
  | _ => false
  end.

Section Singleton.
Variables (W Server Client Options : Type).

(** [new AerostackServer(config, options)] and [new AerostackClient(config)]
    on a configuration that is not nullish. *)
Variable newServer : Config W -> option Options -> Server.
Variable newClient : Config W -> Client.

Record State : Type := {
  _server : option Server;
  _client : option Client
}.

Definition fresh : State := {| _server := None; _client := None |}.

(** [sdk.init(config, options)]: the new state, or the [TypeError]. *)
Definition init (sdk : State) (config : Config W) (options : option Options)
  : string + State :=
  if isNullish config then inl "TypeError"
  else if isClientConfig config
       then inr {| _server := _server sdk; _client := Some (newClient config) |}
       else inr {| _server := Some (newServer config options);
                   _client := _client sdk |}.

(** The getters [db], [cache], [queue], [storage], [ai], [services],
    [ecommerce] and [socket]: the server they read their facade from. *)
Definition serverFacade (sdk : State) : string + Server :=
  match _server sdk with
  | Some s => inr s
  | None => inl "SDK not initialized. Call sdk.init(env) first."
  end.

(** The getter [auth]: the client when there is one, else the server. *)
Definition auth (sdk : State) : string + (Client + Server) :=
  match _client sdk, _server sdk with
  | Some c, _ => inr (inl c)
  | None, Some s => inr (inr s)
  | None, None => inl "SDK not initialized. Call sdk.init(...) first."
  end.

(** A run of calls to [init]; a call that throws changes nothing. *)
Definition initAll (calls : list (Config W * option Options)) (sdk : State)
  : State :=
  fold_left (fun s call => match init s (fst call) (snd call) with
                           | inr s' => s'
                           | inl _ => s
                           end) calls sdk.

Definition isServerCall (call : Config W * option Options) : bool :=
  negb (isNullish (fst call)) && negb (isClientConfig (fst call)).

Definition isClientCall (call : Config W * option Options) : bool :=
  negb (isNullish (fst call)) && isClientConfig (fst call).

Lemma initAll_snoc calls call sdk :
  initAll (calls ++ [call]) sdk
  = match init (initAll calls sdk) (fst call) (snd call) with
    | inr s' => s'
    | inl _ => initAll calls sdk
    end.
Proof. unfold initAll. now rewrite fold_left_app. Qed.

Lemma initAll_handles calls : forall sdk,
  _server (initAll calls sdk)
  = match find isServerCall (rev calls) with
    | Some call => Some (newServer (fst call) (snd call))
    | None => _server sdk
    end /\
  _client (initAll calls sdk)
  = match find isClientCall (rev calls) with
    | Some call => Some (newClient (fst call))
    | None => _client sdk
    end.
Proof.
  induction calls as [|call calls IH] using rev_ind; intros sdk.
  - split; reflexivity.
  - rewrite initAll_snoc, rev_app_distr. cbn [rev app find].
    destruct (IH sdk) as [IHs IHc].
    unfold init, isServerCall, isClientCall.
    destruct (isNullish (fst call)); cbn [negb andb]; [now split|].
    destruct (isClientConfig (fst call)); cbn [negb _server _client];
      now split.
Qed.

End Singleton.

Arguments _server {Server Client} _.
Arguments _client {Server Client} _.
Arguments fresh {Server Client}.
Arguments init {W Server Client Options} newServer newClient sdk config options.
Arguments serverFacade {Server Client} sdk.
Arguments auth {Server Client} sdk.
Arguments initAll {W Server Client Options} newServer newClient calls sdk.
Arguments isServerCall {W Options} call.
Arguments isClientCall {W Options} call.

End Sdk.

(** X17.  The two handles of the [sdk] singleton are independent: after
    any run of calls to [init], the server is the one built by the last
    call whose argument was not a client configuration, the client the
    one built by the last call with a truthy [projectSlug], and neither
    call clears the other handle.  So [sdk.db] throws exactly when no
    server call was made, and once a client is set [sdk.auth] is the
    client's, whatever is initialised later. *)
Theorem sdk_init_handles :
  forall (W Server Client Options : Type)
         (newServer : Sdk.Config W -> option Options -> Server)
         (newClient : Sdk.Config W -> Client)
         (calls : list (Sdk.Config W * option Options)),
    let sdk := Sdk.initAll newServer newClient calls Sdk.fresh in
    Sdk._server sdk
    = option_map (fun call => newServer (fst call) (snd call))
                 (find Sdk.isServerCall (rev calls)) /\
    Sdk._client sdk
    = option_map (fun call => newClient (fst call))
                 (find Sdk.isClientCall (rev calls)) /\
    ((exists msg, Sdk.serverFacade sdk = inl msg) <->
     forall call, In call calls -> Sdk.isServerCall call = false) /\
    (forall call, In call calls -> Sdk.isClientCall call = true ->
                  exists c, Sdk.auth sdk = inr (inl c)).
Proof.
  intros W Server Client Options newServer newClient calls sdk.
  destruct (Sdk.initAll_handles W Server Client Options newServer newClient
              calls Sdk.fresh) as [Hs Hc].
  fold sdk in Hs, Hc. cbn [Sdk.fresh Sdk._server Sdk._client] in Hs, Hc.
  assert (Hs' : Sdk._server sdk
                = option_map (fun call => newServer (fst call) (snd call))
                             (find Sdk.isServerCall (rev calls)))
    by (rewrite Hs; now destruct (find _ _)).
  assert (Hc' : Sdk._client sdk
                = option_map (fun call => newClient (fst call))
                             (find Sdk.isClientCall (rev calls)))
    by (rewrite Hc; now destruct (find _ _)).
  split; [exact Hs'|]. split; [exact Hc'|]. split.
  - unfold Sdk.serverFacade. rewrite Hs'. split.
    + intros [msg H] call Hin.
      destruct (find Sdk.isServerCall (rev calls)) as [c|] eqn:E;
        [discriminate|].
      apply (find_none _ _ E). now apply in_rev in Hin.
    + intros H.
      destruct (find Sdk.isServerCall (rev calls)) as [c|] eqn:E.
      * apply find_some in E as [Hin Hc0]. apply in_rev in Hin.
        rewrite (H c Hin) in Hc0. discriminate.
      * eexists; reflexivity.
  - intros call Hin Hcall. unfold Sdk.auth. rewrite Hc'.
    destruct (find Sdk.isClientCall (rev calls)) as [c|] eqn:E.
    + eexists; reflexivity.
    + apply in_rev in Hin. rewrite (find_none _ _ E call Hin) in Hcall.
      discriminate.
Qed.

(** After a client call and a server call both [db] and [auth] answer,
    and [auth] is still the client's. *)
Lemma sdk_init_handles_witness :
  exists c,
    Sdk.auth (Sdk.initAll (fun (c : Sdk.Config Trace) (_ : option unit) => "server")
                (fun _ => "client")
                [(Sdk.CfgObject [("projectSlug", EnvPlain (JStr "shop"))], None);
                 (Sdk.CfgObject [("DB", EnvD1 d1Widgets)], None)]
                Sdk.fresh)
    = inr (inl c).
Proof.
  exact (proj2 (proj2 (proj2
           (sdk_init_handles Trace string string unit
              (fun _ _ => "server") (fun _ => "client")
              [(Sdk.CfgObject [("projectSlug", EnvPlain (JStr "shop"))], None);
               (Sdk.CfgObject [("DB", EnvD1 d1Widgets)], None)])))
          (Sdk.CfgObject [("projectSlug", EnvPlain (JStr "shop"))], None)
          (or_introl eq_refl) eq_refl).
Defined.

(** * The client

    [client-errors.ts] and the request layer of [client.ts].  The class
    [AerostackClient] comes in two listings as well; they differ in the
    URL and the headers of [request] and in the body of [register]. *)

Module Client.

(** ** [client-errors.ts] *)

Inductive ClientErrorCode : Type :=
| AUTH_INVALID_CREDENTIALS | AUTH_USER_EXISTS | AUTH_EMAIL_NOT_VERIFIED
| AUTH_TOKEN_EXPIRED | AUTH_TOKEN_INVALID | AUTH_OTP_EXPIRED
| AUTH_OTP_INVALID | AUTH_PASSWORD_WEAK | AUTH_RESET_TOKEN_INVALID
| NETWORK_ERROR | NETWORK_TIMEOUT
| VALIDATION_ERROR
| REQUEST_FAILED | UNKNOWN_ERROR.

(** The string value of each member of the enum. *)
Definition codeValue (c : ClientErrorCode) : string :=
  match c with
  | AUTH_INVALID_CREDENTIALS => "AUTH_INVALID_CREDENTIALS"
  | AUTH_USER_EXISTS => "AUTH_USER_EXISTS"
  | AUTH_EMAIL_NOT_VERIFIED => "AUTH_EMAIL_NOT_VERIFIED"
  | AUTH_TOKEN_EXPIRED => "AUTH_TOKEN_EXPIRED"
  | AUTH_TOKEN_INVALID => "AUTH_TOKEN_INVALID"
  | AUTH_OTP_EXPIRED => "AUTH_OTP_EXPIRED"
  | AUTH_OTP_INVALID => "AUTH_OTP_INVALID"
  | AUTH_PASSWORD_WEAK => "AUTH_PASSWORD_WEAK"
  | AUTH_RESET_TOKEN_INVALID => "AUTH_RESET_TOKEN_INVALID"
  | NETWORK_ERROR => "NETWORK_ERROR"
  | NETWORK_TIMEOUT => "NETWORK_TIMEOUT"
  | VALIDATION_ERROR => "VALIDATION_ERROR"
  | REQUEST_FAILED => "REQUEST_FAILED"
  | UNKNOWN_ERROR => "UNKNOWN_ERROR"
  end.

(** [Object.values(ClientErrorCode)], as codes. *)
Definition allCodes : list ClientErrorCode :=
  [AUTH_INVALID_CREDENTIALS; AUTH_USER_EXISTS; AUTH_EMAIL_NOT_VERIFIED;
   AUTH_TOKEN_EXPIRED; AUTH_TOKEN_INVALID; AUTH_OTP_EXPIRED;
   AUTH_OTP_INVALID; AUTH_PASSWORD_WEAK; AUTH_RESET_TOKEN_INVALID;
   NETWORK_ERROR; NETWORK_TIMEOUT; VALIDATION_ERROR;
   REQUEST_FAILED; UNKNOWN_ERROR].

Record ClientErrorDetails : Type := {
  cd_suggestion : option string;
  cd_field : option string;
  cd_recoveryAction : option string
}.

(** An instance of [ClientError] or of one of its subclasses, which its
    [name] tells. *)
Record ClientError : Type := {
  ce_name : string;
  ce_code : ClientErrorCode;
  ce_message : string;
  ce_details : option ClientErrorDetails;
  ce_statusCode : option Z
}.



Definition isValidationError (e : ClientError) : bool :=
  match ce_code e with
  | VALIDATION_ERROR => true
  | _ => false
  end.

(** [new ClientError(code, message, details, statusCode)]. *)
Definition newClientError (c : ClientErrorCode) (message : string)
  (details : option ClientErrorDetails) (statusCode : option Z) : ClientError :=
  {| ce_name := "ClientError"; ce_code := c; ce_message := message;
     ce_details := details; ce_statusCode := statusCode |}.

(** [new AuthenticationError(code, message, details, statusCode)]. *)
Definition newAuthenticationError (c : ClientErrorCode) (message : string)
  (details : option ClientErrorDetails) (statusCode : option Z) : ClientError :=
  {| ce_name := "AuthenticationError"; ce_code := c; ce_message := message;
     ce_details := details; ce_statusCode := statusCode |}.

(** [new ValidationError(message, field, suggestion)]. *)
Definition newValidationError (message : string) (field suggestion : option string)
  : ClientError :=
  {| ce_name := "ValidationError"; ce_code := VALIDATION_ERROR;
     ce_message := message;
     ce_details := Some {| cd_suggestion := suggestion; cd_field := field;
                           cd_recoveryAction := None |};
     ce_statusCode := Some 400%Z |}.

(** [new NetworkError(message, suggestion)]. *)
Definition newNetworkError (message : string) (suggestion : option string)
  : ClientError :=
  {| ce_name := "NetworkError"; ce_code := NETWORK_ERROR;
     ce_message := message;
     ce_details := Some {| cd_suggestion := suggestion; cd_field := None;
                           cd_recoveryAction := None |};
     ce_statusCode := None |}.

(** ** [mapErrorCode] and [getSuggestion] of [client.ts] *)

(** [mapErrorCode(apiCode, statusCode)]. *)
Definition mapErrorCode (apiCode : option string) (statusCode : Z)
  : ClientErrorCode :=
  let direct :=
    match apiCode with
    | Some (String _ _ as code) =>
        find (fun c => String.eqb (codeValue c) code) allCodes
    | _ => None
    end in
  match direct with
  | Some c => c
  | None =>
      match statusCode with
      | 401%Z => AUTH_INVALID_CREDENTIALS
      | 409%Z => AUTH_USER_EXISTS
      | 400%Z => VALIDATION_ERROR
      | 403%Z => AUTH_TOKEN_INVALID
      | _ => REQUEST_FAILED
      end
  end.

(** [getSuggestion(errorCode, data)]; [dataSuggestion] is
    [data?.details?.suggestion]. *)
Definition getSuggestion (errorCode : ClientErrorCode)
  (dataSuggestion : option string) : string :=
  match errorCode with
  | AUTH_INVALID_CREDENTIALS => "Double-check your email and password"
  | AUTH_USER_EXISTS =>
      "Try logging in instead, or use password reset if you forgot your password"
  | AUTH_EMAIL_NOT_VERIFIED => "Check your email for verification link"
  | AUTH_TOKEN_EXPIRED => "Your session has expired. Please login again"
  | AUTH_OTP_EXPIRED => "Request a new OTP code"
  | AUTH_OTP_INVALID => "Check the code and try again, or request a new one"
  | AUTH_PASSWORD_WEAK =>
      "Use at least 8 characters with a mix of letters, numbers, and symbols"
  | NETWORK_ERROR => "Check your internet connection and try again"
  | _ => orElse dataSuggestion "Please try again or contact support"
  end.

End Client.



(** X19.  [mapErrorCode] gives every code of the enum back from its own
    string value, whatever the HTTP status; a missing, empty or unknown
    API code falls back on the status: 401, 409, 400 and 403 have a code
    of their own and every other status is [REQUEST_FAILED]. *)
Theorem mapErrorCode_roundtrip :
  forall (statusCode : Z),
    (forall c, Client.mapErrorCode (Some (Client.codeValue c)) statusCode = c) /\
    (forall apiCode,
        (forall c, Client.codeValue c <> apiCode) ->
        Client.mapErrorCode (Some apiCode) statusCode
        = Client.mapErrorCode None statusCode) /\
    Client.mapErrorCode (Some "") statusCode = Client.mapErrorCode None statusCode /\
    Client.mapErrorCode None 401 = Client.AUTH_INVALID_CREDENTIALS /\
    Client.mapErrorCode None 409 = Client.AUTH_USER_EXISTS /\
    Client.mapErrorCode None 400 = Client.VALIDATION_ERROR /\
    Client.mapErrorCode None 403 = Client.AUTH_TOKEN_INVALID /\
    (~ In statusCode [401; 409; 400; 403]%Z ->
     Client.mapErrorCode None statusCode = Client.REQUEST_FAILED).
Proof.
  intros statusCode. repeat apply conj; try reflexivity.
  - intros c; destruct c; reflexivity.
  - intros apiCode Hno. unfold Client.mapErrorCode.
    destruct apiCode as [|a s]; [reflexivity|].
    destruct (find _ Client.allCodes) as [c|] eqn:E; [|reflexivity].
    apply find_some in E as [_ E]. apply String.eqb_eq in E.
    now apply Hno in E.
  - intros Hno. unfold Client.mapErrorCode.
    destruct statusCode as [|p|p]; try reflexivity.
    destruct (Pos.eq_dec p 401) as [->|H1]; [exfalso; apply Hno; simpl; auto|].
    destruct (Pos.eq_dec p 409) as [->|H2]; [exfalso; apply Hno; simpl; auto|].
    destruct (Pos.eq_dec p 400) as [->|H3]; [exfalso; apply Hno; simpl; auto|].
    destruct (Pos.eq_dec p 403) as [->|H4]; [exfalso; apply Hno; simpl; auto|].
    repeat (destruct p as [p|p|]; try reflexivity; try congruence).
Qed.

Lemma mapErrorCode_roundtrip_witness :
  Client.mapErrorCode (Some "RATE_LIMITED") 429 = Client.REQUEST_FAILED.
Proof.
  rewrite (proj1 (proj2 (mapErrorCode_roundtrip 429)) "RATE_LIMITED").
  - apply (proj2 (proj2 (proj2 (proj2 (proj2 (proj2 (proj2
             (mapErrorCode_roundtrip 429)))))))).
    intros H. simpl in H. decompose [or] H; try discriminate; contradiction.
  - intros c; destruct c; discriminate.
Defined.

(** ** The request layer of [client.ts] *)

Module ClientApi.

Import Client.

(** An exception of the runtime, read through [name] and [message]. *)
Record JsException : Type := {
  ex_name : option string;
  ex_message : option string
}.

(** The parsed body of a response, as far as the client reads it;
    [d_suggestion] is [data.details?.suggestion]. *)
Record ApiData : Type := {
  d_code : option string;
  d_message : option string;
  d_error : option string;
  d_field : option string;
  d_suggestion : option string;
  d_user : JsValue
}.

(** A response of [fetch]; [json] is what [response.json()] settles to,
    [None] for a body that parses to [null]. *)
Record HttpResponse : Type := {
  ok : bool;
  status : Z;
  json : JsException + option ApiData
}.

(** The [TypeError] of reading a property of [null] or [undefined]. *)
Definition cannotRead (base property : string) : JsException :=
  {| ex_name := Some "TypeError";
     ex_message := Some ("Cannot read properties of " ++ base ++ " (reading '"
                         ++ property ++ "')") |}.

Record RequestInit : Type := {
  method : string;
  headers : list (string * string);
  body : option string
}.

(** A request body before [JSON.stringify]. *)
#[warnings="-register-all"]
Inductive Json : Type :=
| JsonValue (v : JsValue)
| JsonObject (fields : list (string * Json)).

Definition truthyJson (j : Json) : bool :=
  match j with
  | JsonValue v => truthy v
  | JsonObject _ => true
  end.

(** What the client throws: one of its errors, or an exception of the
    runtime that it let through. *)
Inductive ClientThrown : Type :=
| ThrownClientError (e : ClientError)
| ThrownException (e : JsException).

(** The fields of an [AerostackClient]; the first listing has neither
    [projectId] nor [apiKey]. *)
Record AerostackClient : Type := {
  projectSlug : string;
  projectId : option string;
  baseUrl : string;
  apiKey : option string
}.

Record SDKConfig : Type := {
  cfg_projectSlug : string;
  cfg_projectId : option string;
  cfg_baseUrl : option string;
  cfg_apiKey : option string
}.

(** [new AerostackClient(config)]. *)
Definition newAerostackClient (rev : Revision) (config : SDKConfig)
  : AerostackClient :=
  {| projectSlug := cfg_projectSlug config;
     projectId := match rev with
                  | Legacy => None
                  | Current => cfg_projectId config
                  end;
     baseUrl := orElse (cfg_baseUrl config)
                  match rev with
                  | Legacy => "https://api.aerostack.app"
                  | Current => "https://api.aerostack.ai/v1"
                  end;
     apiKey := match rev with
               | Legacy => None
               | Current => cfg_apiKey config
               end |}.

Record RegisterData : Type := {
  email : string;
  password : string;
  name : option string;
  customFields : option Json
}.

(** [err.name === s]. *)
Definition nameIs (err : JsException) (s : string) : bool :=
  match ex_name err with
  | Some n => String.eqb n s
  | None => false
  end.

(** The catch clause of [request] on an exception of the runtime.  The
    test [err.name === 'TypeError' && err.message.includes('fetch')]
    throws a [TypeError] of its own when the message is [undefined]. *)
Definition normalize (err : JsException) : ClientThrown :=
  let fetchFailed : option bool :=
    if nameIs err "TypeError" then
      match ex_message err with
      | Some m => Some (includes m "fetch")
      | None => None
      end
    else Some false in
  match fetchFailed with
  | None =>
      ThrownException (cannotRead "undefined" "includes")
  | Some true =>
      ThrownClientError
        (newNetworkError "Network request failed"
           (Some "Check your internet connection"))
  | Some false =>
      if nameIs err "AbortError" then
        ThrownClientError
          (newNetworkError "Request timeout"
             (Some "The request took too long. Please try again"))
      else
        ThrownClientError
          (newClientError UNKNOWN_ERROR
             (orElse (ex_message err) "An unexpected error occurred")
             (Some {| cd_suggestion := Some "Please try again or contact support";
                      cd_field := None; cd_recoveryAction := None |})
             None)
  end.

(** The error thrown for a response that is not [ok]. *)
Definition httpError (data : ApiData) (statusCode : Z) : ClientError :=
  let errorCode := mapErrorCode (d_code data) statusCode in
  newClientError errorCode
    (orElse (d_message data) (orElse (d_error data) "Request failed"))
    (Some {| cd_suggestion := Some (getSuggestion errorCode (d_suggestion data));
             cd_field := d_field data;
             cd_recoveryAction := None |})
    (Some statusCode).

Section Request.
Variable rev : Revision.
Context {W : Type}.

(** The runtime: [fetch], [JSON.stringify] and [crypto.randomUUID]; each
    of them may throw. *)
Variable fetch : string -> RequestInit -> W -> (JsException + HttpResponse) * W.
Variable JSON_stringify : Json -> JsException + string.
Variable randomUUID : W -> (JsException + string) * W.

Variable this : AerostackClient.

Definition requestUrl (path : string) : string :=
  match rev with
  | Legacy => baseUrl this ++ "/api/v1/public/projects/" ++ projectSlug this ++ path
  | Current => baseUrl this ++ path
  end.

Definition bearer (token : option string) : list (string * string) :=
  match token with
  | Some (String _ _ as t) => [("Authorization", "Bearer " ++ t)]
  | _ => []
  end.

Definition requestHeaders (requestId : string) (token functionName : option string)
  : list (string * string) :=
  match rev with
  | Legacy => (("Content-Type", "application/json") :: bearer token)%list
  | Current =>
      ([("Content-Type", "application/json");
        ("x-request-id", requestId);
        ("x-aerostack-function", orElse functionName "api_call");
        ("X-Project-Id", orElse (projectId this) (projectSlug this))]
       ++ bearer token
       ++ match apiKey this with
          | Some (String _ _ as k) => [("X-Aerostack-Key", k)]
          | _ => []
          end)%list
  end.

(** [request(path, method, body, token, options)].  The request id and
    the text of the body are made before the [try]: what
    [crypto.randomUUID] or [JSON.stringify] throws reaches the caller as
    it is.  On a response that is not [ok] and whose body is [null],
    reading [data.code] throws inside the [try]. *)
Definition request (path method : string) (body : option Json)
  (token functionName : option string)
  : W -> (ClientThrown + option ApiData) * W :=
  fun w =>
    let url := requestUrl path in
    match (match rev with
           | Legacy => (inr EmptyString, w)
           | Current => randomUUID w
           end) with
    | (inl err, w0) => (inl (ThrownException err), w0)
    | (inr requestId, w0) =>
        match (match body with
               | Some b =>
                   if truthyJson b
                   then match JSON_stringify b with
                        | inl err => inl err
                        | inr text => inr (Some text)
                        end
                   else inr None
               | None => inr None
               end) with
        | inl err => (inl (ThrownException err), w0)
        | inr text =>
            let init :=
              {| method := method;
                 headers := requestHeaders requestId token functionName;
                 body := text |} in
            match fetch url init w0 with
            | (inl err, w1) => (inl (normalize err), w1)
            | (inr response, w1) =>
                match json response with
                | inl err => (inl (normalize err), w1)
                | inr data =>
                    if ok response then (inr data, w1)
                    else
                      match data with
                      | Some d =>
                          (inl (ThrownClientError
                                  (httpError d (status response))), w1)
                      | None => (inl (normalize (cannotRead "null" "code")), w1)
                      end
                end
            end
        end
    end.

Definition invalid {A : Type} (message : string) (field suggestion : option string)
  : W -> (ClientThrown + A) * W :=
  fun w => (inl (ThrownClientError (newValidationError message field suggestion)), w).

Definition field (k : string) (v : string) : string * Json :=
  (k, JsonValue (JStr v)).

(** [auth.register(data)]. *)
Definition register (data : RegisterData) : W -> (ClientThrown + option ApiData) * W :=
  if negb (includes (email data) "@") then
    invalid "Invalid email address" (Some "email")
            (Some "Provide a valid email address")
  else if (String.length (password data) <? 8)%nat then
    invalid "Password must be at least 8 characters" (Some "password")
            (Some "Use a stronger password with minimum 8 characters")
  else
    match rev with
    | Legacy =>
        request "/auth/register" "POST"
          (Some (JsonObject
                   ([field "email" (email data);
                     field "password" (password data)]
                    ++ match name data with
                       | Some n => [field "name" n]
                       | None => []
                       end
                    ++ match customFields data with
                       | Some c => [("customFields", c)]
                       | None => []
                       end)%list))
          None None
    | Current =>
        request "/auth/signup" "POST"
          (Some (JsonObject
                   [field "email" (email data);
                    field "password" (password data);
                    ("name", JsonValue (optionValue (name data)));
                    ("metadata", match customFields data with
                                 | Some c => c
                                 | None => JsonValue JUndefined
                                 end)]))
          None None
    end.

(** [auth.login(email, password)]. *)
Definition login (email password : string) : W -> (ClientThrown + option ApiData) * W :=
  if String.eqb email "" || String.eqb password "" then
    invalid "Email and password are required" (Some "email") None
  else
    request (match rev with
             | Legacy => "/auth/login"
             | Current => "/auth/signin"
             end) "POST"
      (Some (JsonObject [field "email" email; field "password" password]))
      None None.

(** [auth.sendOTP(email)]. *)
Definition sendOTP (email : string) : W -> (ClientThrown + option ApiData) * W :=
  if negb (includes email "@") then
    invalid "Invalid email address" (Some "email") None
  else
    request "/auth/otp/send" "POST" (Some (JsonObject [field "email" email]))
      None None.




(** [auth.verifyEmail(token)]. *)
Definition verifyEmail (token : string) : W -> (ClientThrown + option ApiData) * W :=
  if String.eqb token "" then
    invalid "Verification token is required" (Some "token") None
  else request ("/auth/verify-email?token=" ++ token) "GET" None None None.

(** [auth.requestPasswordReset(email)]. *)
Definition requestPasswordReset (email : string)
  : W -> (ClientThrown + option ApiData) * W :=
  if negb (includes email "@") then
    invalid "Invalid email address" (Some "email") None
  else
    request "/auth/password-reset/request" "POST"
      (Some (JsonObject [field "email" email])) None None.

(** [auth.resetPassword(token, newPassword)]. *)
Definition resetPassword (token newPassword : string)
  : W -> (ClientThrown + option ApiData) * W :=
  if String.eqb token "" then
    invalid "Reset token is required" (Some "token") None
  else if (String.length newPassword <? 8)%nat then
    invalid "Password must be at least 8 characters" (Some "password")
            (Some "Use a stronger password")
  else
    request "/auth/password-reset/confirm" "POST"
      (Some (JsonObject [field "token" token; field "newPassword" newPassword]))
      None None.

(** [auth.refreshToken(refreshToken)]. *)
Definition refreshToken (token : string) : W -> (ClientThrown + option ApiData) * W :=
  if String.eqb token "" then
    invalid "Refresh token is required" (Some "refreshToken") None
  else
    request "/auth/refresh" "POST"
      (Some (JsonObject [field "refreshToken" token])) None None.

(** [auth.logout(token)]. *)
Definition logout (token : string) : W -> (ClientThrown + option ApiData) * W :=
  request "/auth/logout" "POST" (Some (JsonObject [])) (Some token) None.

(** [auth.getCurrentUser(token)]. *)
Definition getCurrentUser (token : string) : W -> (ClientThrown + JsValue) * W :=
  fun w =>
    if String.eqb token "" then
      (inl (ThrownClientError
              (newAuthenticationError AUTH_TOKEN_INVALID
                 "Authentication token is required"
                 (Some {| cd_suggestion := Some "Please login first";
                          cd_field := None; cd_recoveryAction := None |})
                 None)), w)
    else
      match request "/auth/me" "GET" None (Some token) None w with
      | (inr (Some response), w') => (inr (d_user response), w')
      | (inr None, w') => (inl (ThrownException (cannotRead "null" "user")), w')
      | (inl e, w') => (inl e, w')
      end.

End Request.

End ClientApi.

Section ClientFacts.
Import Client ClientApi.
Variable rev : Revision.
Context {W : Type}.
Variable fetch : string -> RequestInit -> W -> (JsException + HttpResponse) * W.
Variable JSON_stringify : Json -> JsException + string.
Variable randomUUID : W -> (JsException + string) * W.
Variable this : AerostackClient.

Lemma invalid_inv (A : Type) message fld suggestion (w w' : W) (d : A) :
  invalid message fld suggestion w = (inr d, w') -> False.
Proof. discriminate. Qed.



End ClientFacts.

(** X20.  The checks of the [auth] methods come before the network: a
    call that resolves had valid arguments -- an email with an [@] and a
    password of eight code units or more for [register], a token and such
    a password for [resetPassword], two non-empty strings for [login], an
    email with an [@] for [sendOTP] -- and [register] with an argument
    that fails its check throws a [ValidationError] of status 400 and
    leaves the world as it was. *)
Theorem auth_validation_sound :
  forall (rev : Revision) (W : Type)
         (fetch : string -> ClientApi.RequestInit -> W ->
                  (ClientApi.JsException + ClientApi.HttpResponse) * W)
         (JSON_stringify : ClientApi.Json -> ClientApi.JsException + string)
         (randomUUID : W -> (ClientApi.JsException + string) * W) (this : ClientApi.AerostackClient),
    (forall data w d w',
        ClientApi.register rev fetch JSON_stringify randomUUID this data w
        = (inr d, w') ->
        includes (ClientApi.email data) "@" = true /\
        (8 <= String.length (ClientApi.password data))%nat) /\
    (forall token newPassword w d w',
        ClientApi.resetPassword rev fetch JSON_stringify randomUUID this
          token newPassword w = (inr d, w') ->
        token <> "" /\ (8 <= String.length newPassword)%nat) /\
    (forall email password w d w',
        ClientApi.login rev fetch JSON_stringify randomUUID this email password w
        = (inr d, w') ->
        email <> "" /\ password <> "") /\
    (forall email w d w',
        ClientApi.sendOTP rev fetch JSON_stringify randomUUID this email w
        = (inr d, w') ->
        includes email "@" = true) /\
    (forall data w,
        includes (ClientApi.email data) "@" = false \/
        (String.length (ClientApi.password data) < 8)%nat ->
        exists e,
          ClientApi.register rev fetch JSON_stringify randomUUID this data w
          = (inl (ClientApi.ThrownClientError e), w) /\
          Client.isValidationError e = true /\
          Client.ce_statusCode e = Some 400%Z).
Proof.
  intros rev W fetch JSON_stringify randomUUID this. repeat apply conj.
  - intros data w d w'. unfold ClientApi.register.
    destruct (includes (ClientApi.email data) "@"); cbn [negb];
      [|discriminate].
    destruct (String.length (ClientApi.password data) <? 8)%nat eqn:E;
      [discriminate|].
    apply Nat.ltb_ge in E. auto.
  - intros token newPassword w d w'. unfold ClientApi.resetPassword.
    destruct (String.eqb token "") eqn:Et; [discriminate|].
    destruct (String.length newPassword <? 8)%nat eqn:E; [discriminate|].
    apply Nat.ltb_ge in E. apply String.eqb_neq in Et. auto.
  - intros email password w d w'. unfold ClientApi.login.
    destruct (String.eqb email "") eqn:Ee; [discriminate|].
    destruct (String.eqb password "") eqn:Ep; [discriminate|].
    apply String.eqb_neq in Ee, Ep. auto.
  - intros email w d w'. unfold ClientApi.sendOTP.
    destruct (includes email "@"); [reflexivity | discriminate].
  - intros data w H. unfold ClientApi.register.
    destruct (includes (ClientApi.email data) "@"); cbn [negb].
    + destruct H as [H|H]; [discriminate|].
      apply Nat.ltb_lt in H. rewrite H.
      eexists; split; [reflexivity|]. split; reflexivity.
    + eexists; split; [reflexivity|]. split; reflexivity.
Qed.

(** An HTTP layer that answers every request with [{}] and status 200. *)
Definition fakeFetch (url : string) (init : ClientApi.RequestInit) (w : Trace)
  : (ClientApi.JsException + ClientApi.HttpResponse) * Trace :=
  (inr {| ClientApi.ok := true; ClientApi.status := 200;
          ClientApi.json :=
            inr (Some {| ClientApi.d_code := None;
                         ClientApi.d_message := None;
                         ClientApi.d_error := None;
                         ClientApi.d_field := None;
                         ClientApi.d_suggestion := None;
                         ClientApi.d_user := JNull |}) |},
   (w ++ [(postgres, (ClientApi.method init ++ " " ++ url)%string)])%list).

Definition shopClient : ClientApi.AerostackClient :=
  ClientApi.newAerostackClient Current
    {| ClientApi.cfg_projectSlug := "shop"; ClientApi.cfg_projectId := None;
       ClientApi.cfg_baseUrl := None; ClientApi.cfg_apiKey := None |}.

Lemma auth_validation_sound_witness :
  exists e,
    ClientApi.register Current fakeFetch (fun _ => inr "{}") (fun w => (inr "uuid", w))
      shopClient
      {| ClientApi.email := "ann@example.com"; ClientApi.password := "short";
         ClientApi.name := None; ClientApi.customFields := None |} []
    = (inl (ClientApi.ThrownClientError e), []) /\
    Client.isValidationError e = true /\
    Client.ce_statusCode e = Some 400%Z.
Proof.
  apply (proj2 (proj2 (proj2 (proj2
           (auth_validation_sound Current Trace fakeFetch (fun _ => inr "{}")
              (fun w => (inr "uuid", w)) shopClient))))).
  right. simpl. lia.
Defined.





(** ** Remote calls, services and the queue *)

Module Rpc.

(** Structured data: the arguments of a remote call, a job, the body of a
    response. *)
#[warnings="-register-all"]
Inductive Data : Type :=
| DValue (v : JsValue)
| DArray (items : list Data)
| DObject (fields : list (string * Data)).

(** A response, as far as the server reads it: [text] and [json] are what
    [res.text()] and [res.json()] settle to. *)
Record Response : Type := {
  ok : bool;
  status : Z;
  text : DriverError + string;
  json : DriverError + Data
}.

Record RequestInit : Type := {
  method : string;
  headers : list (string * string);
  body : option string
}.

(** [fetch(url, init)], of the runtime or of a service binding. *)
Definition Fetcher (W : Type) : Type :=
  string -> RequestInit -> W -> (DriverError + Response) * W.

(** A stub of the dispatch namespace: building the [Request] for a URL and
    fetching it, with the delay in milliseconds after which it is
    aborted. *)
Definition Stub (W : Type) : Type :=
  string -> RequestInit -> Z -> W -> (DriverError + Response) * W.

(** The dispatch namespace: [get(idFromName(name))]. *)
Record Dispatcher (W : Type) : Type := {
  stubOf : string -> W -> (DriverError + Stub W) * W
}.

(** The queue binding: [send(message, { delaySeconds })]. *)
Record Queue (W : Type) : Type := {
  send : Data -> option Z -> W -> (DriverError + unit) * W
}.

Arguments stubOf {W} _ _ _.
Arguments send {W} _ _ _ _.

(** The fields of the server that the remote calls read; [API], [API_URL]
    and [AEROSTACK_API_URL] are those of [env]. *)
Record Host (W : Type) : Type := {
  _authToken : option string;
  API : option (Fetcher W);
  API_URL : option string;
  AEROSTACK_API_URL : option string;
  _projectId : option string;
  _dispatcher : option (Dispatcher W);
  _queue : option (Queue W)
}.

Arguments _authToken {W} _.
Arguments API {W} _.
Arguments API_URL {W} _.
Arguments AEROSTACK_API_URL {W} _.
Arguments _projectId {W} _.
Arguments _dispatcher {W} _.
Arguments _queue {W} _.

(** An instance of [ServiceError] or [QueueError]: a [ServerError] whose
    context holds structured data. *)
Record Failure : Type := {
  f_name : string;
  f_code : ErrorCode;
  f_message : string;
  f_details : option ErrorDetails;
  f_context : option (JsObject Data)
}.

Definition f_cause (e : Failure) : option string :=
  match f_details e with
  | Some d => cause d
  | None => None
  end.

(** What a remote call throws: [new Error(message)], an exception of the
    runtime, or a [ServiceError]. *)
Inductive Thrown : Type :=
| ThrownError (message : string)
| ThrownDriver (err : DriverError)
| ThrownFailure (e : Failure).

(** [err.message]. *)
Definition messageOf (t : Thrown) : option string :=
  match t with
  | ThrownError message => Some message
  | ThrownDriver err => err_message err
  | ThrownFailure e => Some (f_message e)
  end.

Record InvokeOptions : Type := {
  timeout : option Z;
  path : option string
}.

Record Job : Type := {
  job_type : string;
  job_data : Data;
  job_delay : option Z
}.

Record JobResult : Type := {
  jobId : string;
  jr_status : string;
  queuedAt : Z
}.

Definition dispatcherNotConfigured (rev : Revision) : Failure :=
  {| f_name := "ServiceError";
     f_code := SERVICE_INVOKE_FAILED;
     f_message := "Service dispatcher not configured";
     f_details :=
       Some {| suggestion :=
                 Some match rev with
                      | Legacy => "Configure Workers Dispatch namespace in aerostack.toml"
                      | Current => "Configure Workers Dispatch namespace in aerostack.toml or ensure API_URL/AEROSTACK_API_URL is set."
                      end;
               recoveryAction := None; field := None; cause := None |};
     f_context := None |}.

(** The error of the catch clause of [services.invoke]. *)
Definition invokeFailed (serviceName : string) (data : Data)
  (message : option string) : Failure :=
  {| f_name := "ServiceError";
     f_code := SERVICE_INVOKE_FAILED;
     f_message := "Failed to invoke service: " ++ serviceName;
     f_details := Some {| suggestion := Some "Check service name and dispatcher binding";
                          recoveryAction := None; field := None;
                          cause := message |};
     f_context := Some [("serviceName", DValue (JStr serviceName));
                        ("data", data)] |}.

(** The URL that [services.invoke] asks the stub for. *)
Definition invokeUrl (rev : Revision) (options : option InvokeOptions) : string :=
  match rev with
  | Legacy => "https://internal/"
  | Current =>
      let path := orElse match options with
                         | Some o => path o
                         | None => None
                         end "/" in
      "https://internal" ++ (if startsWith path "/" then "" else "/") ++ path
  end.

Definition invokeTimeout (options : option InvokeOptions) : Z :=
  match orNumber match options with
                 | Some o => timeout o
                 | None => None
                 end None with
  | Some t => t
  | None => 30000
  end.

(** [services.invoke(serviceName, data, options)]. *)
Definition services_invoke (rev : Revision) {W : Type}
  (JSON_stringify : Data -> DriverError + option string) (this : Host W)
  (serviceName : string) (data : Data) (options : option InvokeOptions)
  : W -> (Failure + Data) * W :=
  fun w =>
    match _dispatcher this with
    | None => (inl (dispatcherNotConfigured rev), w)
    | Some dispatcher =>
        let failed message := invokeFailed serviceName data message in
        match stubOf dispatcher serviceName w with
        | (inl err, w1) => (inl (failed (err_message err)), w1)
        | (inr stub, w1) =>
            match JSON_stringify data with
            | inl err => (inl (failed (err_message err)), w1)
            | inr text0 =>
                match stub (invokeUrl rev options)
                           {| method := "POST"; headers := []; body := text0 |}
                           (invokeTimeout options) w1 with
                | (inl err, w2) => (inl (failed (err_message err)), w2)
                | (inr response, w2) =>
                    let checked := match rev with
                                   | Legacy => false
                                   | Current => negb (ok response)
                                   end in
                    if checked then
                      match text response with
                      | inl err => (inl (failed (err_message err)), w2)
                      | inr errText =>
                          (inl (failed
                                  (Some ("Service invocation failed ("
                                         ++ toString (JNum (status response))
                                         ++ "): " ++ errText))), w2)
                      end
                    else
                      match json response with
                      | inl err => (inl (failed (err_message err)), w2)
                      | inr d => (inr d, w2)
                      end
                end
            end
        end
    end.

(** [this.env.API_URL || this.env.AEROSTACK_API_URL]. *)
Definition apiUrl {W : Type} (this : Host W) : option string :=
  if truthyString (API_URL this) then API_URL this
  else AEROSTACK_API_URL this.

Definition rpcHeaders {W : Type} (this : Host W) : list (string * string) :=
  ("Content-Type", "application/json")
  :: match _authToken this with
     | Some (String _ _ as t) => [("Authorization", "Bearer " ++ t)]
     | _ => []
     end.

(** [{ method, args, projectId: this._projectId ?? undefined }]. *)
Definition rpcBody {W : Type} (this : Host W) (method0 : string)
  (args : list Data) : Data :=
  DObject [("method", DValue (JStr method0)); ("args", DArray args);
           ("projectId", DValue (optionValue (_projectId this)))].

(** One of the first two transports of [_rpcCall]: post the call, throw an
    [Error] for a response that is not [ok], parse the body of one that
    is. *)
Definition rpcVia {W : Type} (send0 : Fetcher W) (url via : string)
  (JSON_stringify : Data -> DriverError + option string) (this : Host W)
  (method0 : string) (args : list Data) : W -> (Thrown + Data) * W :=
  fun w =>
    match JSON_stringify (rpcBody this method0 args) with
    | inl err => (inl (ThrownDriver err), w)
    | inr text0 =>
        match send0 url {| method := "POST"; headers := rpcHeaders this;
                           body := text0 |} w with
        | (inl err, w1) => (inl (ThrownDriver err), w1)
        | (inr res, w1) =>
            if negb (ok res) then
              match text res with
              | inl err => (inl (ThrownDriver err), w1)
              | inr errText =>
                  (inl (ThrownError ("RPC " ++ method0 ++ " failed via " ++ via
                                     ++ " (" ++ toString (JNum (status res))
                                     ++ "): " ++ errText)), w1)
              end
            else
              match json res with
              | inl err => (inl (ThrownDriver err), w1)
              | inr d => (inr d, w1)
              end
        end
    end.

(** [_rpcCall(serviceName, method, args)] of the second listing. *)
Definition _rpcCall {W : Type} (fetch : Fetcher W)
  (JSON_stringify : Data -> DriverError + option string) (this : Host W)
  (serviceName method0 : string) (args : list Data)
  : W -> (Thrown + Data) * W :=
  fun w =>
    let internal := String.eqb serviceName "internal" in
    match (if internal then API this else None) with
    | Some api =>
        rpcVia api "http://internal/internal/hooks/rpc" "Service Binding"
               JSON_stringify this method0 args w
    | None =>
        match (if internal then apiUrl this else None) with
        | Some (String _ _ as url) =>
            rpcVia fetch (url ++ "/internal/hooks/rpc") "HTTP"
                   JSON_stringify this method0 args w
        | _ =>
            match services_invoke Current JSON_stringify this serviceName
                    (DObject [("method", DValue (JStr method0));
                              ("args", DArray args)])
                    (Some {| timeout := None;
                             path := Some "/internal/hooks/rpc" |}) w with
            | (inl e, w') => (inl (ThrownFailure e), w')
            | (inr d, w') => (inr d, w')
            end
        end
    end.

(** The job as the context of an error carries it. *)
Definition jobData (job : Job) : Data :=
  DObject [("type", DValue (JStr (job_type job))); ("data", job_data job);
           ("delay", DValue match job_delay job with
                            | Some n => JNum n
                            | None => JUndefined
                            end)].

Definition queueNotConfigured (rev : Revision) (message : option string)
  : Failure :=
  {| f_name := "QueueError";
     f_code := QUEUE_NOT_CONFIGURED;
     f_message := match rev with
                  | Legacy => "Queue not configured"
                  | Current => "Queue not configured and RPC fallback failed"
                  end;
     f_details :=
       Some {| suggestion :=
                 Some match rev with
                      | Legacy => "Add [[queues]] binding to aerostack.toml"
                      | Current => "Add [[queues]] binding to aerostack.toml or ensure API is reachable"
                      end;
               recoveryAction := None; field := None; cause := message |};
     f_context := None |}.

Definition enqueueFailed (job : Job) (message : option string) : Failure :=
  {| f_name := "QueueError";
     f_code := QUEUE_ENQUEUE_FAILED;
     f_message := "Failed to enqueue job";
     f_details := Some {| suggestion := Some "Check queue binding and message size limits";
                          recoveryAction := None; field := None;
                          cause := message |};
     f_context := Some [("job", jobData job)] |}.

(** [queue.enqueue(job)].  [Date_now] reads the clock, [toISOString]
    prints a time, [randomSuffix] is
    [Math.random().toString(36).substring(7)]. *)
Definition queue_enqueue (rev : Revision) {W : Type} (fetch : Fetcher W)
  (JSON_stringify : Data -> DriverError + option string)
  (Date_now : W -> Z * W) (toISOString : Z -> string)
  (randomSuffix : W -> string * W) (this : Host W) (job : Job)
  : W -> (Failure + JobResult) * W :=
  fun w =>
    match _queue this with
    | None =>
        match rev with
        | Legacy => (inl (queueNotConfigured Legacy None), w)
        | Current =>
            match _rpcCall fetch JSON_stringify this "internal" "queue.enqueue"
                    [DValue (JStr (job_type job)); job_data job] w with
            | (inr _, w1) =>
                let (now, w2) := Date_now w1 in
                let (date, w3) := Date_now w2 in
                (inr {| jobId := "rpc_" ++ toString (JNum now);
                        jr_status := "queued"; queuedAt := date |}, w3)
            | (inl rpcErr, w1) =>
                (inl (queueNotConfigured Current (messageOf rpcErr)), w1)
            end
        end
    | Some queue =>
        let (stamp, w1) := Date_now w in
        let message := DObject [("type", DValue (JStr (job_type job)));
                                ("data", job_data job);
                                ("queuedAt", DValue (JStr (toISOString stamp)))] in
        match send queue message (job_delay job) w1 with
        | (inl err, w2) => (inl (enqueueFailed job (err_message err)), w2)
        | (inr tt, w2) =>
            let (now, w3) := Date_now w2 in
            let (suffix, w4) := randomSuffix w3 in
            let (date, w5) := Date_now w4 in
            (inr {| jobId := "job_" ++ toString (JNum now) ++ "_" ++ suffix;
                    jr_status := "queued"; queuedAt := date |}, w5)
        end
    end.

End Rpc.

Lemma invokeUrl_prefix (rev : Revision) (options : option Rpc.InvokeOptions) :
  startsWith (Rpc.invokeUrl rev options) "https://internal/" = true.
Proof.
  destruct rev; [reflexivity|]. unfold Rpc.invokeUrl.
  set (p := orElse _ "/").
  destruct (startsWith p "/") eqn:E.
  - destruct p as [|c p']; [discriminate|].
    cbn [startsWith] in E.
    apply andb_true_iff in E as [E _]. apply Ascii.eqb_eq in E. subst c.
    cbn. now destruct p'.
  - cbn. now destruct p.
Qed.

Lemma services_invoke_failure (rev : Revision) (W : Type)
  (JSON_stringify : Rpc.Data -> DriverError + option string)
  (this : Rpc.Host W) (serviceName : string) (data : Rpc.Data)
  (options : option Rpc.InvokeOptions) (w : W) (e : Rpc.Failure) (w' : W) :
  Rpc.services_invoke rev JSON_stringify this serviceName data options w
  = (inl e, w') ->
  Rpc.f_name e = "ServiceError" /\
  Rpc.f_code e = SERVICE_INVOKE_FAILED /\
  (Rpc._dispatcher this = None ->
   w' = w /\ Rpc.f_message e = "Service dispatcher not configured") /\
  (Rpc._dispatcher this <> None ->
   Rpc.f_message e = "Failed to invoke service: " ++ serviceName /\
   Rpc.f_context e
   = Some [("serviceName", Rpc.DValue (JStr serviceName)); ("data", data)]).
Proof.
  unfold Rpc.services_invoke.
  destruct (Rpc._dispatcher this) as [dispatcher|].
  2:{ intros [= <- <-]. repeat split; now destruct rev. }
  destruct (Rpc.stubOf dispatcher serviceName w) as [[err|stub] w1].
  { intros [= <- <-]. repeat split; discriminate. }
  destruct (JSON_stringify data) as [err|body].
  { intros [= <- <-]. repeat split; discriminate. }
  destruct (stub _ _ _ w1) as [[err|response] w2].
  { intros [= <- <-]. repeat split; discriminate. }
  destruct (match rev with Legacy => false | Current => negb (Rpc.ok response) end).
  - destruct (Rpc.text response); intros [= <- <-]; repeat split; discriminate.
  - destruct (Rpc.json response); [|discriminate].
    intros [= <- <-]; repeat split; discriminate.
Qed.

(** X23.  [services.invoke] throws nothing but a [ServiceError] of code
    [SERVICE_INVOKE_FAILED]: without a dispatcher at once, the world left
    as it was; with one, an error that names the service and carries the
    service name and the data as context.  The URL it asks the stub for
    always starts with [https://internal/].  On a response that is not
    [ok] the two listings part: the first parses the body and returns it,
    the second throws, the status and the text of the response going to
    [cause]; what the second returns is the body of an [ok] response. *)
Theorem services_invoke_outcomes :
  forall (rev : Revision) (W : Type)
         (JSON_stringify : Rpc.Data -> DriverError + option string)
         (this : Rpc.Host W) (serviceName : string) (data : Rpc.Data)
         (options : option Rpc.InvokeOptions) (w : W),
    let call := Rpc.services_invoke rev JSON_stringify this serviceName data
                  options w in
    startsWith (Rpc.invokeUrl rev options) "https://internal/" = true /\
    (forall e w', call = (inl e, w') ->
        Rpc.f_name e = "ServiceError" /\
        Rpc.f_code e = SERVICE_INVOKE_FAILED /\
        (Rpc._dispatcher this = None ->
         w' = w /\ Rpc.f_message e = "Service dispatcher not configured") /\
        (Rpc._dispatcher this <> None ->
         Rpc.f_message e = "Failed to invoke service: " ++ serviceName /\
         Rpc.f_context e
         = Some [("serviceName", Rpc.DValue (JStr serviceName));
                 ("data", data)])) /\
    (forall dispatcher stub body response w1 w2,
        Rpc._dispatcher this = Some dispatcher ->
        Rpc.stubOf dispatcher serviceName w = (inr stub, w1) ->
        JSON_stringify data = inr body ->
        stub (Rpc.invokeUrl rev options)
             {| Rpc.method := "POST"; Rpc.headers := []; Rpc.body := body |}
             (Rpc.invokeTimeout options) w1 = (inr response, w2) ->
        Rpc.ok response = false ->
        match rev with
        | Legacy =>
            forall d, Rpc.json response = inr d -> call = (inr d, w2)
        | Current =>
            exists e, call = (inl e, w2) /\
              forall errText, Rpc.text response = inr errText ->
                Rpc.f_cause e
                = Some ("Service invocation failed ("
                        ++ toString (JNum (Rpc.status response))
                        ++ "): " ++ errText)
        end) /\
    (rev = Current -> forall d w', call = (inr d, w') ->
        exists dispatcher stub w1 init response,
          Rpc._dispatcher this = Some dispatcher /\
          Rpc.stubOf dispatcher serviceName w = (inr stub, w1) /\
          stub (Rpc.invokeUrl rev options) init (Rpc.invokeTimeout options) w1
          = (inr response, w') /\
          Rpc.ok response = true /\ Rpc.json response = inr d).
Proof.
  intros rev W JSON_stringify this serviceName data options w call.
  split; [apply invokeUrl_prefix|].
  split; [intros e w'; apply services_invoke_failure|].
  subst call. unfold Rpc.services_invoke.
  destruct (Rpc._dispatcher this) as [dispatcher|]; [|split; discriminate].
  destruct (Rpc.stubOf dispatcher serviceName w) as [[err|stub] w1] eqn:Es.
  { split; [|discriminate].
    intros d0 s0 b0 r0 w10 w20 [= <-]. rewrite Es. discriminate. }
  destruct (JSON_stringify data) as [err|body] eqn:Ej; [split; discriminate|].
  destruct (stub _ _ _ w1) as [[err|response] w2] eqn:Ef.
  { split; [|discriminate].
    intros d0 s0 b0 r0 w10 w20 [= <-]. rewrite Es. intros [= <- <-] [= <-].
    rewrite Ef. discriminate. }
  split.
  - intros d0 s0 b0 r0 w10 w20 [= <-]. rewrite Es. intros [= <- <-] [= <-].
    rewrite Ef. intros [= <- <-] Hok. rewrite Hok. destruct rev.
    + intros d Hd. now rewrite Hd.
    + cbn [negb]. destruct (Rpc.text response) as [err|errText].
      * eexists; split; [reflexivity|]. discriminate.
      * eexists; split; [reflexivity|]. now intros t [= <-].
  - intros -> d w'. destruct (Rpc.ok response) eqn:Eo; cbn [negb].
    + destruct (Rpc.json response) as [err|d'] eqn:Ed; [discriminate|].
      intros [= <- <-]. exists dispatcher, stub, w1. eauto 8.
    + destruct (Rpc.text response); discriminate.
Qed.

(** Test doubles of the remote side, over a log of the names and URLs
    asked for. *)
Definition Log : Type := list string.

Definition answering (response : Rpc.Response) : Rpc.Fetcher Log :=
  fun url _ w => (inr response, (w ++ [url])%list).

Definition stubAnswering (response : Rpc.Response) : Rpc.Dispatcher Log :=
  {| Rpc.stubOf := fun name w =>
       (inr (fun url _ _ w' => (inr response, (w' ++ [url])%list)),
        (w ++ [name])%list) |}.

Definition accepted : Rpc.Response :=
  {| Rpc.ok := true; Rpc.status := 200; Rpc.text := inr "{}";
     Rpc.json := inr (Rpc.DObject []) |}.

Definition unavailable : Rpc.Response :=
  {| Rpc.ok := false; Rpc.status := 503; Rpc.text := inr "busy";
     Rpc.json := inl (driverError None (Some "Unexpected token b in JSON")) |}.

Definition rpcHost (api : option (Rpc.Fetcher Log)) (url : option string)
  (dispatcher : option (Rpc.Dispatcher Log)) : Rpc.Host Log :=
  {| Rpc._authToken := Some "secret"; Rpc.API := api; Rpc.API_URL := None;
     Rpc.AEROSTACK_API_URL := url; Rpc._projectId := Some "p1";
     Rpc._dispatcher := dispatcher; Rpc._queue := None |}.

Definition stringify (d : Rpc.Data) : DriverError + option string :=
  inr (Some "{}").


Lemma services_invoke_outcomes_witness :
  exists e,
    Rpc.services_invoke Current stringify
      (rpcHost None None (Some (stubAnswering unavailable))) "mailer"
      (Rpc.DObject []) None []
    = (inl e, ["mailer"; "https://internal/"]) /\
    forall errText, Rpc.text unavailable = inr errText ->
      Rpc.f_cause e = Some ("Service invocation failed (503): " ++ errText).
Proof.
  exact (proj1 (proj2 (proj2
           (services_invoke_outcomes Current Log stringify
              (rpcHost None None (Some (stubAnswering unavailable))) "mailer"
              (Rpc.DObject []) None [])))
           (stubAnswering unavailable)
           (fun url _ _ w' => (inr unavailable, (w' ++ [url])%list))
           (Some "{}") unavailable ["mailer"] ["mailer"; "https://internal/"]
           eq_refl eq_refl eq_refl eq_refl eq_refl).
Defined.





(** X25.  [queue.enqueue] throws nothing but a [QueueError] and a job it
    accepts is reported [queued].  With a queue binding a rejection is
    [QUEUE_ENQUEUE_FAILED] with the job as context, and the id of an
    accepted job starts with [job_].  Without one the first listing
    throws [QUEUE_NOT_CONFIGURED] at once, while the second hands the job
    to the remote call: the id then starts with [rpc_], a failure of the
    call is [QUEUE_NOT_CONFIGURED] with the message of that failure as
    [cause], and the delay of the job is not passed on, so that two jobs
    that differ in their delay only are treated alike. *)
Theorem queue_enqueue_outcomes :
  forall (rev : Revision) (W : Type) (fetch : Rpc.Fetcher W)
         (JSON_stringify : Rpc.Data -> DriverError + option string)
         (Date_now : W -> Z * W) (toISOString : Z -> string)
         (randomSuffix : W -> string * W) (this : Rpc.Host W)
         (job : Rpc.Job) (w : W),
    let enqueue := Rpc.queue_enqueue rev fetch JSON_stringify Date_now
                     toISOString randomSuffix this in
    (forall e w', enqueue job w = (inl e, w') ->
        Rpc.f_name e = "QueueError" /\
        ((Rpc._queue this = None /\ Rpc.f_code e = QUEUE_NOT_CONFIGURED /\
          Rpc.f_context e = None /\
          match rev with
          | Legacy => w' = w
          | Current =>
              exists t,
                Rpc._rpcCall fetch JSON_stringify this "internal" "queue.enqueue"
                  [Rpc.DValue (JStr (Rpc.job_type job)); Rpc.job_data job] w
                = (inl t, w') /\
                Rpc.f_cause e = Rpc.messageOf t
          end) \/
         (Rpc._queue this <> None /\ Rpc.f_code e = QUEUE_ENQUEUE_FAILED /\
          Rpc.f_context e = Some [("job", Rpc.jobData job)]))) /\
    (forall r w', enqueue job w = (inr r, w') ->
        Rpc.jr_status r = "queued" /\
        match Rpc._queue this with
        | Some _ => startsWith (Rpc.jobId r) "job_" = true
        | None => rev = Current /\ startsWith (Rpc.jobId r) "rpc_" = true
        end) /\
    (Rpc._queue this = None ->
     forall delay,
       enqueue {| Rpc.job_type := Rpc.job_type job;
                  Rpc.job_data := Rpc.job_data job;
                  Rpc.job_delay := delay |} w
       = enqueue job w).
Proof.
  intros rev W fetch JSON_stringify Date_now toISOString randomSuffix this job w
         enqueue.
  subst enqueue. unfold Rpc.queue_enqueue.
  destruct (Rpc._queue this) as [queue|].
  - destruct (Date_now w) as [stamp w1].
    destruct (Rpc.send queue _ (Rpc.job_delay job) w1) as [[err|[]] w2].
    + split; [|split; discriminate].
      intros e w' [= <- <-]. split; [reflexivity|]. right.
      repeat split. discriminate.
    + destruct (Date_now w2) as [now w3]. destruct (randomSuffix w3) as [sfx w4].
      destruct (Date_now w4) as [date w5].
      split; [discriminate|]. split; [|discriminate].
      intros r w' [= <- <-]. split; [reflexivity|].
      apply (startsWith_app "job_").
  - destruct rev.
    + split; [|split; [discriminate | reflexivity]].
      intros e w' [= <- <-]. split; [reflexivity|]. left. now repeat split.
    + cbn [Rpc.job_type Rpc.job_data].
      destruct (Rpc._rpcCall fetch JSON_stringify this _ _ _ w) as [[t|d] w1].
      * split; [|split; [discriminate | reflexivity]].
        intros e w' [= <- <-]. split; [reflexivity|]. left.
        repeat split. exists t. split; reflexivity.
      * destruct (Date_now w1) as [now w2]. destruct (Date_now w2) as [date w3].
        split; [discriminate|]. split; [|reflexivity].
        intros r w' [= <- <-]. split; [reflexivity|]. split; [reflexivity|].
        apply (startsWith_app "rpc_").
Qed.

Lemma queue_enqueue_outcomes_witness :
  Rpc.queue_enqueue Current (answering accepted) stringify
    (fun w => (1700000000000%Z, w)) (fun _ => "2023-11-14T22:13:20.000Z")
    (fun w => ("k3x9q", w))
    (rpcHost (Some (answering accepted)) None None)
    {| Rpc.job_type := "email"; Rpc.job_data := Rpc.DObject [];
       Rpc.job_delay := Some 60%Z |} []
  = Rpc.queue_enqueue Current (answering accepted) stringify
      (fun w => (1700000000000%Z, w)) (fun _ => "2023-11-14T22:13:20.000Z")
      (fun w => ("k3x9q", w))
      (rpcHost (Some (answering accepted)) None None)
      {| Rpc.job_type := "email"; Rpc.job_data := Rpc.DObject [];
         Rpc.job_delay := None |} [].
Proof.
  exact (proj2 (proj2
           (queue_enqueue_outcomes Current Log (answering accepted) stringify
              (fun w => (1700000000000%Z, w))
              (fun _ => "2023-11-14T22:13:20.000Z") (fun w => ("k3x9q", w))
              (rpcHost (Some (answering accepted)) None None)
              {| Rpc.job_type := "email"; Rpc.job_data := Rpc.DObject [];
                 Rpc.job_delay := None |} []))
           eq_refl (Some 60%Z)).
Defined.

(** ** Gateway billing *)

Module Billing.

Record GatewayBillingLogOptions : Type := {
  apiKey : string;
  baseUrl : option string;
  consumerId : string;
  apiId : string;
  metric : option string;
  units : Z
}.

Record GatewayBillingLogResult : Type := {
  success : bool;
  loggedUnits : Z
}.

(** The body of the answer, as far as [logUsage] reads it. *)
Record LogData : Type := {
  d_success : JsValue;
  d_loggedUnits : option Z;
  d_message : option string;
  d_error : option string
}.

(** A response; [json] is what [res.json()] settles to, [None] for a body
    that parses to [null]. *)
Record Response : Type := {
  ok : bool;
  status : Z;
  json : DriverError + option LogData
}.

Record RequestInit : Type := {
  method : string;
  headers : list (string * string);
  body : string
}.

(** What [logUsage] throws: its own [Error], or an exception of the
    runtime. *)
Inductive Thrown : Type :=
| ThrownError (message : string)
| ThrownException (err : DriverError).

(** [s.replace(/\/$/, '')]: one slash at the end of [s] is dropped. *)
Fixpoint dropFinalSlash (s : string) : string :=
  match s with
  | EmptyString => EmptyString
  | String c EmptyString => if Ascii.eqb c "/" then EmptyString else s
  | String c s' => String c (dropFinalSlash s')
  end.

Definition logUrl (options : GatewayBillingLogOptions) : string :=
  dropFinalSlash (orElse (baseUrl options) "https://api.aerostack.ai/v1")
  ++ "/gateway/billing/log".

(** The object that [logUsage] sends. *)
Definition logPayload (options : GatewayBillingLogOptions) : JsObject JsValue :=
  [("consumerId", JStr (consumerId options));
   ("apiId", JStr (apiId options));
   ("metric", JStr match metric options with
                   | Some m => m
                   | None => "units"
                   end);
   ("units", JNum (units options))].

Definition cannotRead (property : string) : DriverError :=
  {| err_code := None;
     err_message := Some ("Cannot read properties of null (reading '"
                          ++ property ++ "')");
     err_table := None; err_column := None |}.

(** [logUsage(options)]. *)
Definition logUsage {W : Type}
  (fetch : string -> RequestInit -> W -> (DriverError + Response) * W)
  (JSON_stringify : JsObject JsValue -> string)
  (options : GatewayBillingLogOptions)
  : W -> (Thrown + GatewayBillingLogResult) * W :=
  fun w =>
    match fetch (logUrl options)
                {| method := "POST";
                   headers := [("Content-Type", "application/json");
                               ("X-Aerostack-Key", apiKey options)];
                   body := JSON_stringify (logPayload options) |} w with
    | (inl err, w1) => (inl (ThrownException err), w1)
    | (inr res, w1) =>
        match json res with
        | inl err => (inl (ThrownException err), w1)
        | inr data =>
            if negb (ok res) then
              match data with
              | None => (inl (ThrownException (cannotRead "message")), w1)
              | Some d =>
                  (inl (ThrownError
                          (orElse (d_message d)
                             (orElse (d_error d)
                                ("Gateway billing log failed: "
                                 ++ toString (JNum (status res)))))), w1)
              end
            else
              match data with
              | None => (inl (ThrownException (cannotRead "success")), w1)
              | Some d =>
                  (inr {| success := strictEq (d_success d) (JBool true);
                          loggedUnits := match d_loggedUnits d with
                                         | Some n => n
                                         | None => units options
                                         end |}, w1)
              end
        end
    end.




End Billing.

Lemma dropFinalSlash_app (s : string) :
  Billing.dropFinalSlash (s ++ "/") = s.
Proof.
  induction s as [|c s IH]; [reflexivity|].
  change (String c s ++ "/") with (String c (s ++ "/")).
  cbn [Billing.dropFinalSlash]. rewrite IH.
  destruct s; reflexivity.
Qed.

Lemma dropFinalSlash_id (s : string) :
  endsWith s "/" = false -> Billing.dropFinalSlash s = s.
Proof.
  induction s as [|c s IH]; [reflexivity|]. intros H.
  destruct s as [|c' s'].
  - cbn. destruct (Ascii.eqb c "/") eqn:E; [|reflexivity].
    apply Ascii.eqb_eq in E. subst c. discriminate H.
  - change (Billing.dropFinalSlash (String c (String c' s')))
      with (String c (Billing.dropFinalSlash (String c' s'))).
    rewrite IH; [reflexivity|].
    destruct (endsWith (String c' s') "/") eqn:E; [|reflexivity].
    apply endsWith_iff in E as (pre & E). rewrite E in H.
    assert (Hc : endsWith (String c (pre ++ "/")) "/" = true).
    { apply endsWith_iff. exists (String c pre). reflexivity. }
    congruence.
Qed.

(** X26.  [logUsage] posts to [<base>/gateway/billing/log], where one
    slash at the end of the base URL makes no difference.  It returns only
    for a response that is [ok] and whose body is an object: [success] is
    [true] exactly when the body says [success: true], and [loggedUnits]
    is the number of the body when it has one, zero included, and the
    units asked for otherwise.  The body is parsed before the status is
    looked at: when the parsing fails, the exception of the parser is what
    the caller gets, whatever the status; for a parsed object and a
    status that is not [ok] the [Error] thrown has a message that is not
    empty. *)
Theorem logUsage_outcomes :
  forall (W : Type)
         (fetch : string -> Billing.RequestInit -> W ->
                  (DriverError + Billing.Response) * W)
         (JSON_stringify : JsObject JsValue -> string)
         (options : Billing.GatewayBillingLogOptions) (w : W),
    let withBase (b : string) :=
      {| Billing.apiKey := Billing.apiKey options;
         Billing.baseUrl := Some b;
         Billing.consumerId := Billing.consumerId options;
         Billing.apiId := Billing.apiId options;
         Billing.metric := Billing.metric options;
         Billing.units := Billing.units options |} in
    let call := Billing.logUsage fetch JSON_stringify options w in
    (forall b, b <> "" -> endsWith b "/" = false ->
       Billing.logUrl (withBase (b ++ "/")) = b ++ "/gateway/billing/log" /\
       Billing.logUrl (withBase b) = b ++ "/gateway/billing/log") /\
    (forall r w', call = (inr r, w') ->
       exists init res d,
         fetch (Billing.logUrl options) init w = (inr res, w') /\
         Billing.ok res = true /\ Billing.json res = inr (Some d) /\
         (Billing.success r = true <-> Billing.d_success d = JBool true) /\
         Billing.loggedUnits r = match Billing.d_loggedUnits d with
                                 | Some n => n
                                 | None => Billing.units options
                                 end) /\
    (forall init res w1,
       fetch (Billing.logUrl options) init w = (inr res, w1) ->
       Billing.method init = "POST" ->
       Billing.headers init = [("Content-Type", "application/json");
                               ("X-Aerostack-Key", Billing.apiKey options)] ->
       Billing.body init = JSON_stringify (Billing.logPayload options) ->
       (forall err, Billing.json res = inl err ->
          call = (inl (Billing.ThrownException err), w1)) /\
       (forall d, Billing.json res = inr (Some d) -> Billing.ok res = false ->
          exists message,
            call = (inl (Billing.ThrownError message), w1) /\ message <> "" /\
            (forall m, m <> "" -> Billing.d_message d = Some m -> message = m))).
Proof.
  intros W fetch JSON_stringify options w withBase call.
  split; [|split].
  - intros b Hb Hend. unfold Billing.logUrl, withBase. cbn [Billing.baseUrl].
    split.
    + assert (E : orElse (Some (b ++ "/")) "https://api.aerostack.ai/v1"
                  = b ++ "/") by (now destruct b).
      rewrite E. now rewrite dropFinalSlash_app.
    + assert (E : orElse (Some b) "https://api.aerostack.ai/v1" = b)
        by (destruct b; [contradiction | reflexivity]).
      rewrite E. now rewrite dropFinalSlash_id.
  - intros r w'. subst call. unfold Billing.logUsage.
    destruct (fetch _ _ w) as [[err|res] w1] eqn:Ef; [discriminate|].
    destruct (Billing.json res) as [err|[d|]] eqn:Ej; try discriminate;
      destruct (Billing.ok res) eqn:Eo; cbn [negb]; try discriminate.
    intros [= <- <-]. eexists _, res, d. split; [exact Ef|].
    split; [exact Eo|]. split; [exact Ej|]. cbn [Billing.success Billing.loggedUnits].
    split; [|reflexivity]. split.
    + destruct (Billing.d_success d) as [| |[]| |]; (discriminate || reflexivity).
    + intros ->. reflexivity.
  - intros init res w1 Hf Hm Hh Hb.
    assert (Ei : init = {| Billing.method := "POST";
                           Billing.headers := [("Content-Type", "application/json");
                                               ("X-Aerostack-Key", Billing.apiKey options)];
                           Billing.body := JSON_stringify (Billing.logPayload options) |}).
    { destruct init; cbn in *; congruence. }
    subst init call. unfold Billing.logUsage. rewrite Hf.
    split.
    + intros err ->. reflexivity.
    + intros d -> ->. cbn [negb]. eexists. split; [reflexivity|]. split.
      * unfold orElse.
        destruct (Billing.d_message d) as [[|c m]|];
          destruct (Billing.d_error d) as [[|c' m']|]; discriminate.
      * intros m Hm' ->. destruct m; [contradiction | reflexivity].
Qed.

Definition logged (body : DriverError + option Billing.LogData) (ok0 : bool)
  (status0 : Z) (url : string) (init : Billing.RequestInit) (w : Log)
  : (DriverError + Billing.Response) * Log :=
  (inr {| Billing.ok := ok0; Billing.status := status0; Billing.json := body |},
   (w ++ [url])%list).

Definition usage (metric : option string) : Billing.GatewayBillingLogOptions :=
  {| Billing.apiKey := "ac_secret_1"; Billing.baseUrl := Some "https://gw.example.com";
     Billing.consumerId := "c1"; Billing.apiId := "api1";
     Billing.metric := metric; Billing.units := 5 |}.

Lemma logUsage_outcomes_witness :
  Billing.logUsage
    (logged (inl (driverError None (Some "Unexpected token < in JSON"))) false 502)
    (fun _ => "{}") (usage None) []
  = (inl (Billing.ThrownException
            (driverError None (Some "Unexpected token < in JSON"))),
     ["https://gw.example.com/gateway/billing/log"]).
Proof.
  exact (proj1 (proj2 (proj2
           (logUsage_outcomes Log
              (logged (inl (driverError None (Some "Unexpected token < in JSON")))
                      false 502)
              (fun _ => "{}") (usage None) []))
           {| Billing.method := "POST";
              Billing.headers := [("Content-Type", "application/json");
                                  ("X-Aerostack-Key", "ac_secret_1")];
              Billing.body := "{}" |}
           _ _ eq_refl eq_refl eq_refl eq_refl) _ eq_refl).
Defined.



(** ** Managed search (second listing) *)

Module Search.

Import Rpc.

(** The AI binding, as [embed] uses it: [run(model, { text })] settles to
    a result, read through its property [data]. *)
Record Ai (Vector W : Type) : Type := {
  run : string -> string -> W -> (DriverError + option (list Vector)) * W
}.

Record VectorizeMatch (Score : Type) : Type := {
  m_id : string;
  m_score : Score;
  m_metadata : option (JsObject Data)
}.

Record VectorizeQueryOptions : Type := {
  q_topK : Z;
  q_returnMetadata : bool;
  q_filter : option (JsObject Data)
}.

(** The index binding [env.VECTORIZE]: [query(vector, options)] settles
    to the matches. *)
Record VectorizeIndex (Vector Score W : Type) : Type := {
  vz_query : option Vector -> VectorizeQueryOptions -> W ->
             (DriverError + list (VectorizeMatch Score)) * W
}.

Arguments run {Vector W} _ _ _ _.
Arguments m_id {Score} _.
Arguments m_score {Score} _.
Arguments m_metadata {Score} _.
Arguments vz_query {Vector Score W} _ _ _ _.

Record EmbedOptions : Type := {
  eo_model : option string
}.

Record Embedding (Vector : Type) : Type := {
  embedding : option Vector;
  model : string
}.

Arguments embedding {Vector} _.
Arguments model {Vector} _.

Record SearchOptions : Type := {
  topK : option Z;
  types : option (list string);
  filter : option (JsObject Data)
}.

Record SearchResult (Score : Type) : Type := {
  sr_id : string;
  sr_content : Data;
  sr_score : Score;
  sr_type : Data;
  sr_metadata : JsObject Data
}.

Arguments sr_id {Score} _.
Arguments sr_content {Score} _.
Arguments sr_score {Score} _.
Arguments sr_type {Score} _.
Arguments sr_metadata {Score} _.

(** What [search.query] resolves to: the results made of the matches of
    the index, or whatever the remote call returned. *)
Inductive QueryAnswer (Score : Type) : Type :=
| Found (results : list (SearchResult Score))
| Remote (d : Data).

Arguments Found {Score} _.
Arguments Remote {Score} _.

Definition aiNotConfigured : Failure :=
  {| f_name := "AIError";
     f_code := AI_NOT_CONFIGURED;
     f_message := "AI binding not configured";
     f_details := Some {| suggestion := Some "AI binding is automatically available in Workers";
                          recoveryAction := None; field := None; cause := None |};
     f_context := None |}.

Definition embedOptionsData (options : option EmbedOptions) : Data :=
  match options with
  | Some o => DObject [("model", DValue (optionValue (eo_model o)))]
  | None => DValue JUndefined
  end.

Definition embedFailed (text0 : string) (options : option EmbedOptions)
  (message : option string) : Failure :=
  {| f_name := "AIError";
     f_code := AI_REQUEST_FAILED;
     f_message := "AI embedding request failed";
     f_details := Some {| suggestion := Some "Check model name and text input";
                          recoveryAction := None; field := None;
                          cause := message |};
     f_context := Some [("text", DValue (JStr text0));
                        ("options", embedOptionsData options)] |}.

(** [ai.embed(text, options)]; reading [data[0]] of a result without
    [data] throws inside the [try]. *)
Definition ai_embed {Vector W : Type} (_ai : option (Ai Vector W))
  (text0 : string) (options : option EmbedOptions)
  : W -> (Failure + Embedding Vector) * W :=
  fun w =>
    match _ai with
    | None => (inl aiNotConfigured, w)
    | Some ai =>
        let model0 := orElse match options with
                             | Some o => eo_model o
                             | None => None
                             end "@cf/baai/bge-base-en-v1.5" in
        match run ai model0 text0 w with
        | (inl err, w1) => (inl (embedFailed text0 options (err_message err)), w1)
        | (inr None, w1) =>
            (inl (embedFailed text0 options
                    (Some "Cannot read properties of undefined (reading '0')")),
             w1)
        | (inr (Some data), w1) =>
            (inr {| embedding := hd_error data; model := model0 |}, w1)
        end
    end.

(** [o[k] = v] on a plain object. *)
Fixpoint assign {V : Type} (o : JsObject V) (k : string) (v : V) : JsObject V :=
  match o with
  | [] => [(k, v)]
  | (k', v') :: o' =>
      if String.eqb k' k then (k, v) :: o' else (k', v') :: assign o' k v
  end.

Definition assignAll {V : Type} (kvs : list (string * V)) (o : JsObject V)
  : JsObject V :=
  fold_left (fun acc kv => assign acc (fst kv) (snd kv)) kvs o.

(** [{ ...a, ...b }]. *)
Definition spread {V : Type} (a b : JsObject V) : JsObject V :=
  assignAll (JsObj.entries b) (assignAll (JsObj.entries a) []).

(** [{ type: { $in: types } }]. *)
Definition typeFilter (types0 : list string) : JsObject Data :=
  [("type", DObject [("$in", DArray (map (fun t => DValue (JStr t)) types0))])].

(** The [filter] of the options that [search.query] hands to the index. *)
Definition queryFilter (options : option SearchOptions) : option (JsObject Data) :=
  let byType := match options with
                | Some {| types := Some ts |} => Some (typeFilter ts)
                | _ => None
                end in
  match options with
  | Some {| filter := Some f |} =>
      Some (spread match byType with
                   | Some a => a
                   | None => []
                   end f)
  | _ => byType
  end.

Definition truthyData (d : Data) : bool :=
  match d with
  | DValue v => truthy v
  | _ => true
  end.

(** [m.metadata?.[k] || fallback]. *)
Definition metadataOr {Score : Type} (m : VectorizeMatch Score) (k fallback : string)
  : Data :=
  match m_metadata m with
  | Some md =>
      match JsObj.get md k with
      | Some d => if truthyData d then d else DValue (JStr fallback)
      | None => DValue (JStr fallback)
      end
  | None => DValue (JStr fallback)
  end.

Definition toResult {Score : Type} (m : VectorizeMatch Score) : SearchResult Score :=
  {| sr_id := m_id m;
     sr_content := metadataOr m "text" "";
     sr_score := m_score m;
     sr_type := metadataOr m "type" "unknown";
     sr_metadata := match m_metadata m with
                    | Some md => md
                    | None => []
                    end |}.

Definition searchOptionsData (options : option SearchOptions) : Data :=
  match options with
  | None => DValue JUndefined
  | Some o =>
      DObject [("topK", DValue match topK o with
                               | Some n => JNum n
                               | None => JUndefined
                               end);
               ("types", match types o with
                         | Some ts => DArray (map (fun t => DValue (JStr t)) ts)
                         | None => DValue JUndefined
                         end);
               ("filter", match filter o with
                          | Some f => DObject f
                          | None => DValue JUndefined
                          end)]
  end.

(** [ai.search.query(text, options)]. *)
Definition search_query {Vector Score W : Type} (fetch : Fetcher W)
  (JSON_stringify : Data -> DriverError + option string) (this : Host W)
  (_ai : option (Ai Vector W)) (VECTORIZE : option (VectorizeIndex Vector Score W))
  (text0 : string) (options : option SearchOptions)
  : W -> (Thrown + QueryAnswer Score) * W :=
  fun w =>
    let topK0 := match orNumber match options with
                                | Some o => topK o
                                | None => None
                                end None with
                 | Some n => n
                 | None => 5%Z
                 end in
    match ai_embed _ai text0 None w with
    | (inl e, w1) => (inl (ThrownFailure e), w1)
    | (inr embedding0, w1) =>
        match VECTORIZE with
        | Some vectorize =>
            match vz_query vectorize (embedding embedding0)
                    {| q_topK := topK0; q_returnMetadata := true;
                       q_filter := queryFilter options |} w1 with
            | (inl err, w2) => (inl (ThrownDriver err), w2)
            | (inr matches, w2) => (inr (Found (map toResult matches)), w2)
            end
        | None =>
            match _rpcCall fetch JSON_stringify this "internal" "ai.search.query"
                    [DObject [("text", DValue (JStr text0));
                              ("options", searchOptionsData options)]] w1 with
            | (inl t, w2) => (inl t, w2)
            | (inr d, w2) => (inr (Remote d), w2)
            end
        end
    end.

(** [{ ...options, types: [type] }], the options of the [search] of a
    helper. *)
Definition withType (type0 : string) (options : option SearchOptions)
  : SearchOptions :=
  {| topK := match options with
             | Some o => topK o
             | None => None
             end;
     types := Some [type0];
     filter := match options with
               | Some o => filter o
               | None => None
               end |}.

(** [helpers.products.search], [helpers.faq.search] and
    [helpers.content.search], for the types [product], [faq] and
    [content]. *)
Definition helper_search {Vector Score W : Type} (type0 : string)
  (fetch : Fetcher W) (JSON_stringify : Data -> DriverError + option string)
  (this : Host W) (_ai : option (Ai Vector W))
  (VECTORIZE : option (VectorizeIndex Vector Score W))
  (query : string) (options : option SearchOptions)
  : W -> (Thrown + QueryAnswer Score) * W :=
  search_query fetch JSON_stringify this _ai VECTORIZE query
    (Some (withType type0 options)).

End Search.







